(** * second_brain: pipeline execution, diagnostics and transcription fallback

    A shallow embedding of the Python sources

      - [second_brain/content_ingestor/schema.py]
      - [second_brain/content_ingestor/diagnostics/collector.py]
      - [second_brain/transcription/{schema,captions,whisper,core}.py]
      - [second_brain/content_ingestor/stages/*.py]
      - [second_brain/content_ingestor/runner.py]

    Python objects that are mutated in place (the collector, the artifact
    dictionary, the module-level model cache) live in an explicit state;
    Python exceptions are an explicit [Raise] result.  External
    collaborators (caption client, yt-dlp, the transcription model, the
    language model, pydantic validation, clocks) are
    fields of an environment record, so every statement below is
    quantified over everything the outside world may answer. *)

From Stdlib Require Import Ascii String QArith.
From stdpp Require Import base gmap strings list fin_maps pretty.

Set Warnings "-register-all".

Local Open Scope string_scope.
Local Open Scope list_scope.

(** ** Python exceptions and results *)

Module Py.

(** Exception classes that occur in the sources.  Only subclasses of
    Python's [Exception] are modelled: these are what [except Exception]
    catches.  Process-level signals ([KeyboardInterrupt], [SystemExit]) are
    not [Exception]s and are outside the model. *)
Inductive ExnClass :=
| ValueError
| KeyError
| TypeError
| AttributeError
| ImportError
| UnboundLocalError
| RuntimeError
| JSONDecodeError
| ValidationError
| DownloadError
| TranscriptsDisabled
| NoTranscriptFound
| CalledProcessError
| OtherError (name : string).

#[global] Instance ExnClass_eq_dec : EqDecision ExnClass.
Proof. solve_decision. Defined.

(** An exception object: its class and the text of [str(exc)]. *)
Record Exn := mkExn { exn_class : ExnClass; exn_str : string }.

#[global] Instance Exn_eq_dec : EqDecision Exn.
Proof. solve_decision. Defined.

Inductive res (A : Type) :=
| Ok (a : A)
| Raise (e : Exn).
Arguments Ok {A} a.
Arguments Raise {A} e.

(** State-and-exception monad.  A raising computation still returns the
    state it reached: in-place mutations made before the [raise] stay. *)
Definition M (S A : Type) : Type := S -> res A * S.

Definition ret {S A} (a : A) : M S A := fun s => (Ok a, s).

Definition raise {S A} (e : Exn) : M S A := fun s => (Raise e, s).

Definition bind {S A B} (m : M S A) (k : A -> M S B) : M S B :=
  fun s =>
    match m s with
    | (Ok a, s') => k a s'
    | (Raise e, s') => (Raise e, s')
    end.

(** [try: m  except Exception as e: h e] *)
Definition try_except {S A} (m : M S A) (h : Exn -> M S A) : M S A :=
  fun s =>
    match m s with
    | (Ok a, s') => (Ok a, s')
    | (Raise e, s') => h e s'
    end.

Definition get {S} : M S S := fun s => (Ok s, s).

Definition modify {S} (f : S -> S) : M S unit := fun s => (Ok tt, f s).

(** A computation on a component of the state. *)
Definition zoom {S T A} (proj : S -> T) (upd : T -> S -> S) (m : M T A) : M S A :=
  fun s => let (r, t') := m (proj s) in (r, upd t' s).

(** Lifting of a pure fallible expression. *)
Definition lift {S A} (r : res A) : M S A := fun s => (r, s).

(** [for x in l: body x] *)
Fixpoint for_each {S A} (l : list A) (body : A -> M S unit) : M S unit :=
  match l with
  | [] => ret tt
  | x :: l' => bind (body x) (fun _ => for_each l' body)
  end.

End Py.

Import Py.

Notation "x <- m ;; k" := (Py.bind m (fun x => k))
  (at level 100, m at next level, right associativity).
Notation "m ;;; k" := (Py.bind m (fun _ => k))
  (at level 100, right associativity).

(** ** Python values *)

(** The values stored in the artifact dictionary and exchanged with the
    collaborators.  [VObj] stands for objects that the pipeline only
    passes around (UUIDs, datetimes); a Python float is represented by a
    rational. *)
Inductive PyVal :=
| VNone
| VBool (b : bool)
| VInt (n : Z)
| VFloat (q : Q)
| VStr (s : string)
| VList (l : list PyVal)
| VDict (d : gmap string PyVal)
| VObj (repr : string).

Abbreviation PyDict := (gmap string PyVal).

(** [bool(v)]. *)
Definition truthy (v : PyVal) : bool :=
  match v with
  | VNone => false
  | VBool b => b
  | VInt n => negb (n =? 0)%Z
  | VFloat q => negb (Qnum q =? 0)%Z
  | VStr s => negb (String.eqb s "")
  | VList l => match l with [] => false | _ => true end
  | VDict d => match map_to_list d with [] => false | _ => true end
  | VObj _ => true
  end.

(** [d.get(k)], which defaults to [None]. *)
Definition dict_get (d : PyDict) (k : string) : PyVal :=
  default VNone (d !! k).

(** [d.get(k, dflt)]. *)
Definition dict_get_default (d : PyDict) (k : string) (dflt : PyVal) : PyVal :=
  default dflt (d !! k).

Definition str_list (l : list string) : PyVal := VList (VStr <$> l).

(** ** [content_ingestor/schema.py] *)

Module Schema.

Inductive FailureType :=
| INPUT_ERROR
| SOURCE_ERROR
| EXTRACTION_ERROR
| STRUCTURE_ERROR
| INTERPRETATION_ERROR.

(** The value of the [str]-valued enumeration member. *)
Definition FailureType_value (t : FailureType) : string :=
  match t with
  | INPUT_ERROR => "input_error"
  | SOURCE_ERROR => "source_error"
  | EXTRACTION_ERROR => "extraction_error"
  | STRUCTURE_ERROR => "structure_error"
  | INTERPRETATION_ERROR => "interpretation_error"
  end.

Record StageFailure := mkStageFailure {
  stage : string;
  type : FailureType;
  cause : string;
  impact : string;
  failure_suggested_fixes : list string
}.

Record StageResult := mkStageResult {
  stage_name : string;
  success : bool;
  warnings : list string;
  errors : list string;
  failures : list StageFailure;
  suggested_fixes : list string;
  execution_time_ms : option Q
}.

(** [model_dump(by_alias=False, exclude_none=True)] of the three models
    that end up in the diagnostics section. *)
Definition dump_StageFailure (f : StageFailure) : PyVal :=
  VDict (<["stage" := VStr (stage f)]>
        (<["type" := VStr (FailureType_value (type f))]>
        (<["cause" := VStr (cause f)]>
        (<["impact" := VStr (impact f)]>
        (<["suggested_fixes" := str_list (failure_suggested_fixes f)]> ∅))))).

Definition dump_StageResult (r : StageResult) : PyVal :=
  let d : PyDict :=
    <["stage_name" := VStr (stage_name r)]>
    (<["success" := VBool (success r)]>
    (<["warnings" := str_list (warnings r)]>
    (<["errors" := str_list (errors r)]>
    (<["failures" := VList (dump_StageFailure <$> failures r)]>
    (<["suggested_fixes" := str_list (suggested_fixes r)]> ∅))))) in
  VDict match execution_time_ms r with
        | Some t => <["execution_time_ms" := VFloat t]> d
        | None => d
        end.

Record Diagnostics := mkDiagnostics {
  diag_stage_status : gmap string StageResult;
  diag_warnings : list string;
  diag_errors : list string;
  diag_suggested_fixes : list string
}.

Definition dump_Diagnostics (d : Diagnostics) : PyDict :=
  <["stage_status" := VDict (dump_StageResult <$> diag_stage_status d)]>
  (<["warnings" := str_list (diag_warnings d)]>
  (<["errors" := str_list (diag_errors d)]>
  (<["suggested_fixes" := str_list (diag_suggested_fixes d)]> ∅))).

(** The models of the artifact sections, as instances look after
    validation.  UUIDs and datetimes are kept as opaque objects; the
    entries of fields typed [Dict[str, Any]] are kept as dumped. *)
Module Models.

Record Identity := mkIdentity {
  content_id : string;
  workflow_run_id : string;
  created_at : string;
  workflow_version : string
}.

Record Source := mkSource {
  source_type : string;
  url : string;
  video_id : option string;
  title : option string;
  channel_name : option string;
  duration_seconds : option Z;
  published_at : option string;
  language : option string;
  captions_available : option bool
}.

Record Raw := mkRaw {
  transcript_text : option string;
  transcript_language : option string;
  transcript_confidence : option Q;
  chapters : option (list PyVal);
  description_text : option string;
  tags : option (list string)
}.

Record Structure := mkStructure {
  sections : option (list PyVal);
  entities : option (list string);
  references : option (list string);
  detected_steps : option (list string);
  code_blocks_present : option bool
}.

Record Semantics := mkSemantics {
  primary_topics : option (list string);
  secondary_topics : option (list string);
  content_type : option string;
  difficulty_level : option string;
  knowledge_type : option string
}.

Record ContentObject := mkContentObject {
  identity : Identity;
  source : Source;
  raw : Raw;
  structure : Structure;
  semantics : Semantics;
  diagnostics : Diagnostics
}.

(** An optional field under [exclude_none=True]. *)
Definition set_unless_none (k : string) (o : option PyVal) (d : PyDict) : PyDict :=
  match o with
  | Some v => <[k := v]> d
  | None => d
  end.

Definition dump_Identity (i : Identity) : PyDict :=
  <["content_id" := VObj (content_id i)]>
  (<["workflow_run_id" := VObj (workflow_run_id i)]>
  (<["created_at" := VObj (created_at i)]>
  (<["workflow_version" := VStr (workflow_version i)]> ∅))).

Definition dump_Source (s : Source) : PyDict :=
  <["source_type" := VStr (source_type s)]>
  (<["url" := VStr (url s)]>
  (set_unless_none "video_id" (VStr <$> video_id s)
  (set_unless_none "title" (VStr <$> title s)
  (set_unless_none "channel_name" (VStr <$> channel_name s)
  (set_unless_none "duration_seconds" (VInt <$> duration_seconds s)
  (set_unless_none "published_at" (VObj <$> published_at s)
  (set_unless_none "language" (VStr <$> language s)
  (set_unless_none "captions_available" (VBool <$> captions_available s) ∅)))))))).

Definition dump_Raw (r : Raw) : PyDict :=
  set_unless_none "transcript_text" (VStr <$> transcript_text r)
  (set_unless_none "transcript_language" (VStr <$> transcript_language r)
  (set_unless_none "transcript_confidence" (VFloat <$> transcript_confidence r)
  (set_unless_none "chapters" (VList <$> chapters r)
  (set_unless_none "description_text" (VStr <$> description_text r)
  (set_unless_none "tags" (str_list <$> tags r) ∅))))).

Definition dump_Structure (s : Structure) : PyDict :=
  set_unless_none "sections" (VList <$> sections s)
  (set_unless_none "entities" (str_list <$> entities s)
  (set_unless_none "references" (str_list <$> references s)
  (set_unless_none "detected_steps" (str_list <$> detected_steps s)
  (set_unless_none "code_blocks_present" (VBool <$> code_blocks_present s) ∅)))).

Definition dump_Semantics (s : Semantics) : PyDict :=
  set_unless_none "primary_topics" (str_list <$> primary_topics s)
  (set_unless_none "secondary_topics" (str_list <$> secondary_topics s)
  (set_unless_none "content_type" (VStr <$> content_type s)
  (set_unless_none "difficulty_level" (VStr <$> difficulty_level s)
  (set_unless_none "knowledge_type" (VStr <$> knowledge_type s) ∅)))).

(** [validated.model_dump(by_alias=False, exclude_none=True)] *)
Definition dump_ContentObject (c : ContentObject) : PyDict :=
  <["identity" := VDict (dump_Identity (identity c))]>
  (<["source" := VDict (dump_Source (source c))]>
  (<["raw" := VDict (dump_Raw (raw c))]>
  (<["structure" := VDict (dump_Structure (structure c))]>
  (<["semantics" := VDict (dump_Semantics (semantics c))]>
  (<["diagnostics" := VDict (dump_Diagnostics (diagnostics c))]> ∅))))).

End Models.

End Schema.

(** ** [content_ingestor/diagnostics/collector.py] *)

Module Collector.
Import Schema.

Record DiagnosticsCollector := mkCollector {
  run_id : string;
  _stage_status : gmap string StageResult;
  _global_warnings : list string;
  _global_errors : list string;
  _global_suggested_fixes : list string
}.

(** [DiagnosticsCollector.__init__] *)
Definition init (run_id : string) : DiagnosticsCollector :=
  mkCollector run_id ∅ [] [] [].

Definition set_stage_status (k : string) (r : StageResult)
    (self : DiagnosticsCollector) : DiagnosticsCollector :=
  mkCollector (run_id self) (<[k := r]> (_stage_status self))
    (_global_warnings self) (_global_errors self) (_global_suggested_fixes self).

Definition extend_warnings (l : list string)
    (self : DiagnosticsCollector) : DiagnosticsCollector :=
  mkCollector (run_id self) (_stage_status self)
    (_global_warnings self ++ l) (_global_errors self) (_global_suggested_fixes self).

Definition extend_errors (l : list string)
    (self : DiagnosticsCollector) : DiagnosticsCollector :=
  mkCollector (run_id self) (_stage_status self)
    (_global_warnings self) (_global_errors self ++ l) (_global_suggested_fixes self).

Definition extend_suggested_fixes (l : list string)
    (self : DiagnosticsCollector) : DiagnosticsCollector :=
  mkCollector (run_id self) (_stage_status self)
    (_global_warnings self) (_global_errors self) (_global_suggested_fixes self ++ l).

Definition add_stage_result (result : StageResult) : M DiagnosticsCollector unit :=
  self <- get ;;
  if decide (is_Some (_stage_status self !! stage_name result)) then
    raise (mkExn ValueError ("Duplicate stage result for " +:+ stage_name result))
  else
    modify (set_stage_status (stage_name result) result) ;;;
    modify (extend_warnings (warnings result)) ;;;
    modify (extend_errors (errors result)) ;;;
    modify (extend_suggested_fixes (suggested_fixes result)) ;;;
    for_each (failures result)
      (fun failure => modify (extend_suggested_fixes (failure_suggested_fixes failure))).

Definition has_fatal_failure : M DiagnosticsCollector bool :=
  self <- get ;;
  ret (existsb (fun kv => negb (success kv.2)) (map_to_list (_stage_status self))).

(** [list(set(l))].  Python leaves the iteration order of a set
    unspecified; the order chosen here is the one of [elements], and
    nothing below depends on it. *)
Definition list_of_set (l : list string) : list string :=
  elements (list_to_set l : gset string).

Definition build_diagnostics : M DiagnosticsCollector PyDict :=
  self <- get ;;
  let diag := mkDiagnostics
                (_stage_status self)
                (_global_warnings self)
                (_global_errors self)
                (list_of_set (_global_suggested_fixes self)) in
  ret (dump_Diagnostics diag).

End Collector.

(** ** Python string operations

    A [string] is read as a sequence of code points below 256. *)

Module Str.
Local Open Scope nat_scope.

Definition code (c : ascii) : nat := nat_of_ascii c.

(** [c.isspace()] on the code points below 256. *)
Definition is_space (c : ascii) : bool :=
  let n := code c in
  ((9 <=? n) && (n <=? 13)) || ((28 <=? n) && (n <=? 32))
  || (n =? 133) || (n =? 160).

Fixpoint lstrip (s : string) : string :=
  match s with
  | EmptyString => EmptyString
  | String c s' => if is_space c then lstrip s' else s
  end.

Fixpoint rstrip (s : string) : string :=
  match s with
  | EmptyString => EmptyString
  | String c s' =>
      let r := rstrip s' in
      if is_space c && String.eqb r "" then EmptyString else String c r
  end.

(** [s.strip()] *)
Definition strip (s : string) : string := rstrip (lstrip s).

(** [sub in s] *)
Fixpoint contains (sub s : string) : bool :=
  String.prefix sub s ||
  match s with
  | EmptyString => false
  | String _ s' => contains sub s'
  end.

(** [s.split(sep)] for a non-empty separator: [skip] counts the
    characters of a separator occurrence still to be passed over, [cur]
    is the piece being collected. *)
Fixpoint split_go (sep s : string) (skip : nat) (cur : string) : list string :=
  match s with
  | EmptyString => [cur]
  | String c s' =>
      match skip with
      | S k => split_go sep s' k cur
      | O =>
          if String.prefix sep s
          then cur :: split_go sep s' (String.length sep - 1) ""
          else split_go sep s' 0 (cur +:+ String c "")
      end
  end.

Definition split (sep s : string) : list string := split_go sep s 0 "".

(** [sep.join(l)] *)
Fixpoint join (sep : string) (l : list string) : string :=
  match l with
  | [] => ""
  | [x] => x
  | x :: l' => x +:+ sep +:+ join sep l'
  end.

(** [s.replace(old, new)] for a non-empty [old]. *)
Definition replace (old new s : string) : string := join new (split old s).

(** [s.lower()] on the code points below 256. *)
Definition lower_char (c : ascii) : ascii :=
  let n := code c in
  if ((65 <=? n) && (n <=? 90))
     || ((192 <=? n) && (n <=? 222) && negb (n =? 215))
  then ascii_of_nat (n + 32) else c.

Fixpoint lower (s : string) : string :=
  match s with
  | EmptyString => EmptyString
  | String c s' => String (lower_char c) (lower s')
  end.

(** [s[:n]] *)
Fixpoint take (n : nat) (s : string) : string :=
  match n, s with
  | S k, String c s' => String c (take k s')
  | _, _ => EmptyString
  end.

(** The longest prefix of characters that satisfy [p]. *)
Fixpoint take_while (p : ascii -> bool) (s : string) : string :=
  match s with
  | EmptyString => EmptyString
  | String c s' => if p c then String c (take_while p s') else EmptyString
  end.

(** [os.path.join(a, b)] on a POSIX system. *)
Definition path_join (a b : string) : string :=
  if String.prefix "/" b then b
  else if String.eqb a "" then b
  else if String.eqb (String.substring (String.length a - 1) 1 a) "/" then a +:+ b
  else a +:+ "/" +:+ b.

End Str.

(** ** The outside world *)

Inductive LogLevel := INFO | WARNING | ERROR.

(** Log records and calls that leave the process, in the order they
    happen. *)
Inductive Event :=
| EvLog (level : LogLevel) (message : string) (stage_name : option string)
        (event_type : string)
| EvGetTranscript (video_id : string)
| EvMakedirs (path : string)
| EvTemporaryDirectory
| EvDownloadAudio (command : list string)
| EvLoadModel (model_name device : string)
| EvModelTranscribe (audio_path : string)
| EvTempCleanup
| EvExtractInfo (url : string)
| EvLLM (prompt : string).

(** What the collaborators answer.  [None] in an [option Exn] means that
    the call returns normally. *)
Record Env := mkEnv {
  (* uuid4() and datetime.utcnow() at artifact creation *)
  new_run_id : string;
  new_content_id : string;
  new_workflow_run_id : string;
  utcnow : string;
  (* time.time() and time.perf_counter(), by number of earlier readings *)
  time_time : nat -> Q;
  perf_counter : nat -> Q;
  (* youtube_transcript_api *)
  import_youtube_transcript_api : option Exn;
  import_youtube_transcript_api_errors : option Exn;
  get_transcript : string -> res (list PyDict);
  (* os, tempfile, subprocess *)
  makedirs : string -> option Exn;
  TemporaryDirectory : res string;
  subprocess_run : list string -> option Exn;
  tmpdir_cleanup : option Exn;
  (* torch, whisper *)
  cuda_is_available : bool;
  load_model : string -> string -> option Exn;
  model_transcribe : string -> res PyDict;
  (* yt_dlp *)
  extract_info : string -> res PyVal;
  fromtimestamp : PyVal -> res PyVal;
  (* language model client, json, pydantic *)
  llm_chat : string -> res string;
  format_value : PyVal -> string;
  json_dumps : PyVal -> res string;
  json_loads : string -> res PyVal;
  StructuredResponse_validate : PyVal -> res PyDict;
  SemanticsResponse_validate : PyVal -> res PyDict;
  ContentObject_model_validate : PyDict -> res Schema.Models.ContentObject
}.

(** The mutable state of one process: the artifact dictionary that the
    runner creates and every stage mutates in place (all stages return
    the very object they were given), the runner's collector, the log of
    outside calls, the module-level model cache of [whisper.py]
    ([_MODEL is not None]) and the number of clock readings so far. *)
Record World := mkWorld {
  content_object : PyDict;
  collector : Collector.DiagnosticsCollector;
  trace : list Event;
  _MODEL : bool;
  clock_reads : nat
}.

Definition set_content_object (d : PyDict) (w : World) : World :=
  mkWorld d (collector w) (trace w) (_MODEL w) (clock_reads w).

Definition set_collector (c : Collector.DiagnosticsCollector) (w : World) : World :=
  mkWorld (content_object w) c (trace w) (_MODEL w) (clock_reads w).

Definition add_event (ev : Event) (w : World) : World :=
  mkWorld (content_object w) (collector w) (trace w ++ [ev]) (_MODEL w) (clock_reads w).

Definition set_MODEL (b : bool) (w : World) : World :=
  mkWorld (content_object w) (collector w) (trace w) b (clock_reads w).

Definition tick (w : World) : World :=
  mkWorld (content_object w) (collector w) (trace w) (_MODEL w) (S (clock_reads w)).

Definition of_option_exn (o : option Exn) : res unit :=
  match o with
  | None => Ok tt
  | Some e => Raise e
  end.

(** An outside call: it is logged, then it returns or raises. *)
Definition call {A} (ev : Event) (answer : res A) : M World A :=
  modify (add_event ev) ;;; lift answer.

Definition read_clock (clock : nat -> Q) : M World Q :=
  w <- get ;;
  modify tick ;;;
  ret (clock (clock_reads w)).

(** [logging_core.logger.log_event]: the record goes to the stream
    handler, which keeps every error of formatting and writing to itself
    but one: a [RecursionError] met while the record is serialised is
    handed on to the caller ([Logger.emit] below has that case).  Here
    the call always returns: the metadata of a record are taken to be of
    bounded nesting.  The stages and the runner build them from strings,
    counts and flags, and from values of the artifact or of an outside
    answer as they find them; of the latter, those logged outside a
    [try] are [source.url] in the start record of [validate_input] and
    [source.video_id] in that of [fetch_metadata].  The [metadata]
    dictionary is not recorded; where evaluating it can raise, the caller
    below performs that evaluation before the call. *)
Definition log_event (level : LogLevel) (message : string)
    (stage_name : option string) (event_type : string) : M World unit :=
  modify (add_event (EvLog level message stage_name event_type)).

(** ** [transcription/] *)

Module Transcription.

(** [transcription/schema.py] *)
Record TranscriptionConfig := mkConfig {
  download_audio_dir : option string;
  cfg_transcribe : bool
}.

Record TranscriptionResult := mkResult {
  success : bool;
  transcript_text : string;
  audio_path : option string;
  method : option string;
  warnings : list string;
  errors : list string;
  suggested_fixes : list string;
  execution_time_sec : Q
}.

Definition set_success (b : bool) (r : TranscriptionResult) :=
  mkResult b (transcript_text r) (audio_path r) (method r)
    (warnings r) (errors r) (suggested_fixes r) (execution_time_sec r).

Definition set_transcript_text (t : string) (r : TranscriptionResult) :=
  mkResult (success r) t (audio_path r) (method r)
    (warnings r) (errors r) (suggested_fixes r) (execution_time_sec r).

Definition set_warnings (l : list string) (r : TranscriptionResult) :=
  mkResult (success r) (transcript_text r) (audio_path r) (method r)
    l (errors r) (suggested_fixes r) (execution_time_sec r).

Definition set_errors (l : list string) (r : TranscriptionResult) :=
  mkResult (success r) (transcript_text r) (audio_path r) (method r)
    (warnings r) l (suggested_fixes r) (execution_time_sec r).

Definition set_suggested_fixes (l : list string) (r : TranscriptionResult) :=
  mkResult (success r) (transcript_text r) (audio_path r) (method r)
    (warnings r) (errors r) l (execution_time_sec r).

Definition set_execution_time_sec (t : Q) (r : TranscriptionResult) :=
  mkResult (success r) (transcript_text r) (audio_path r) (method r)
    (warnings r) (errors r) (suggested_fixes r) t.

Definition index_error : Exn :=
  mkExn (OtherError "IndexError") "list index out of range".

(** [_extract_video_id], defined alike in [captions.py] and [whisper.py]:
    [url.split("v=")[1].split("&")[0]]. *)
Definition _extract_video_id (url : string) : res string :=
  if Str.contains "v=" url then
    match Str.split "v=" url !! 1%nat with
    | Some rest =>
        match Str.split "&" rest !! 0%nat with
        | Some id => Ok id
        | None => Raise index_error
        end
    | None => Raise index_error
    end
  else Raise (mkExn ValueError "Invalid YouTube URL").

(** *** [captions.py] *)

(** [segment["text"] for segment in transcript] *)
Fixpoint segment_texts (transcript : list PyDict) : res (list PyVal) :=
  match transcript with
  | [] => Ok []
  | segment :: rest =>
      match segment !! "text" with
      | None => Raise (mkExn KeyError "'text'")
      | Some v =>
          match segment_texts rest with
          | Ok vs => Ok (v :: vs)
          | Raise e => Raise e
          end
      end
  end.

(** [" ".join(items)]: every item has to be a [str]. *)
Fixpoint expect_strs (items : list PyVal) : res (list string) :=
  match items with
  | [] => Ok []
  | VStr s :: rest =>
      match expect_strs rest with
      | Ok ss => Ok (s :: ss)
      | Raise e => Raise e
      end
  | _ :: _ => Raise (mkExn TypeError "sequence item: expected str instance")
  end.

Definition join_segments (transcript : list PyDict) : res string :=
  match segment_texts transcript with
  | Ok items =>
      match expect_strs items with
      | Ok ss => Ok (Str.join " " ss)
      | Raise e => Raise e
      end
  | Raise e => Raise e
  end.

(** The names [TranscriptsDisabled] and [NoTranscriptFound] are local
    variables of [get_captions], bound by the second import statement
    inside the [try]. *)
Definition error_classes_bound (env : Env) : bool :=
  match import_youtube_transcript_api env, import_youtube_transcript_api_errors env with
  | None, None => true
  | _, _ => false
  end.

Definition get_captions (env : Env) (youtube_url : string)
    : M World TranscriptionResult :=
  try_except
    (lift (of_option_exn (import_youtube_transcript_api env)) ;;;
     lift (of_option_exn (import_youtube_transcript_api_errors env)) ;;;
     video_id <- lift (_extract_video_id youtube_url) ;;
     transcript <- call (EvGetTranscript video_id) (get_transcript env video_id) ;;
     text <- lift (join_segments transcript) ;;
     ret (mkResult true text None (Some "captions") [] [] [] 0))
    (fun e =>
       (* except (TranscriptsDisabled, NoTranscriptFound): evaluating the
          tuple reads the two local names *)
       if negb (error_classes_bound env) then
         raise (mkExn UnboundLocalError
                  "cannot access local variable 'TranscriptsDisabled' where it is not associated with a value")
       else if decide (exn_class e = TranscriptsDisabled ∨ exn_class e = NoTranscriptFound) then
         ret (mkResult false "" None None
                ["YouTube captions unavailable"] []
                ["Fallback to audio transcription"] 0)
       else
         (* except Exception as e *)
         ret (mkResult false "" None None
                [] [exn_str e]
                ["Retry caption fetch"] 0)).

(** *** [whisper.py] *)

Definition _DEVICE (env : Env) : string :=
  if cuda_is_available env then "cuda" else "cpu".

Definition _load_model (env : Env) (model_name : string) : M World unit :=
  w <- get ;;
  if _MODEL w then ret tt
  else
    call (EvLoadModel model_name (_DEVICE env))
         (of_option_exn (load_model env model_name (_DEVICE env))) ;;;
    modify (set_MODEL true).

Definition _download_audio (env : Env) (youtube_url output_path : string)
    : M World unit :=
  let output_template := Str.replace ".wav" ".%(ext)s" output_path in
  let command := ["yt-dlp"; "-f"; "bestaudio"; "--extract-audio";
                  "--audio-format"; "wav"; "-o"; output_template; youtube_url] in
  call (EvDownloadAudio command) (of_option_exn (subprocess_run env command)).

(** [if save_dir:] for an [Optional[str]]. *)
Definition dir_given (save_dir : option string) : bool :=
  match save_dir with
  | Some d => negb (String.eqb d "")
  | None => false
  end.

(** [whisper_result.get("text", "").strip()] *)
Definition result_text (whisper_result : PyDict) : res string :=
  match dict_get_default whisper_result "text" (VStr "") with
  | VStr s => Ok (Str.strip s)
  | _ => Raise (mkExn AttributeError "object has no attribute 'strip'")
  end.

Definition transcribe_audio (env : Env) (youtube_url : string)
    (save_dir : option string) (do_transcribe : bool)
    : M World TranscriptionResult :=
  try_except
    (audio_path <-
       (if dir_given save_dir then
          id <- lift (_extract_video_id youtube_url) ;;
          let audio_path := Str.path_join (default "" save_dir) (id +:+ ".wav") in
          call (EvMakedirs (default "" save_dir))
               (of_option_exn (makedirs env (default "" save_dir))) ;;;
          ret audio_path
        else
          tmpdir <- call EvTemporaryDirectory (TemporaryDirectory env) ;;
          ret (Str.path_join tmpdir "audio.wav")) ;;
     _download_audio env youtube_url audio_path ;;;
     let result :=
       mkResult true ""
         (if dir_given save_dir then Some audio_path else None)
         (Some "whisper") ["Used audio fallback (slower)"] [] [] 0 in
     result <-
       (if do_transcribe then
          _load_model env "base" ;;;
          whisper_result <- call (EvModelTranscribe audio_path)
                                 (model_transcribe env audio_path) ;;
          text <- lift (result_text whisper_result) ;;
          if String.eqb text "" then
            ret (set_suggested_fixes ["Check audio quality"; "Try larger model"]
                   (set_errors ["Whisper returned empty transcript"]
                      (set_success false result)))
          else
            ret (set_transcript_text text result)
        else ret result) ;;
     (if negb (dir_given save_dir) then
        call EvTempCleanup (of_option_exn (tmpdir_cleanup env))
      else ret tt) ;;;
     ret result)
    (fun e =>
       ret (mkResult false "" None None [] [exn_str e]
              ["Ensure yt-dlp/whisper installed"; "Check ffmpeg"] 0)).

(** *** [core.py] *)

Definition transcribe (env : Env) (youtube_url : string)
    (config : TranscriptionConfig) : M World TranscriptionResult :=
  start <- read_clock (time_time env) ;;
  captions_result <- get_captions env youtube_url ;;
  if success captions_result then
    now <- read_clock (time_time env) ;;
    ret (set_execution_time_sec (now - start) captions_result)
  else
    whisper_result <- transcribe_audio env youtube_url
                        (download_audio_dir config) (cfg_transcribe config) ;;
    now <- read_clock (time_time env) ;;
    let whisper_result := set_execution_time_sec (now - start) whisper_result in
    let whisper_result :=
      set_warnings (warnings whisper_result ++ warnings captions_result) whisper_result in
    let whisper_result :=
      set_errors (errors whisper_result ++ errors captions_result) whisper_result in
    let whisper_result :=
      set_suggested_fixes (suggested_fixes whisper_result ++ suggested_fixes captions_result)
        whisper_result in
    ret whisper_result.

End Transcription.

(** ** Operations on the artifact dictionary *)

Definition key_error (k : string) : Exn := mkExn KeyError ("'" +:+ k +:+ "'").

(** [d[k]] *)
Definition getitem (d : PyDict) (k : string) : res PyVal :=
  match d !! k with
  | Some v => Ok v
  | None => Raise (key_error k)
  end.

(** [v.get(k, dflt)] on an arbitrary value. *)
Definition py_get (v : PyVal) (k : string) (dflt : PyVal) : res PyVal :=
  match v with
  | VDict d => Ok (dict_get_default d k dflt)
  | _ => Raise (mkExn AttributeError "object has no attribute 'get'")
  end.

(** [v[k] = x] on an arbitrary value. *)
Definition py_setitem (v : PyVal) (k : string) (x : PyVal) : res PyVal :=
  match v with
  | VDict d => Ok (VDict (<[k := x]> d))
  | _ => Raise (mkExn TypeError "object does not support item assignment")
  end.

(** [a or b] *)
Definition py_or (a b : PyVal) : PyVal := if truthy a then a else b.

(** [content_object[sec]] *)
Definition get_section (sec : string) : M World PyVal :=
  w <- get ;;
  lift (getitem (content_object w) sec).

(** [content_object[sec].get(k, dflt)] *)
Definition get_field (sec k : string) (dflt : PyVal) : M World PyVal :=
  section <- get_section sec ;;
  lift (py_get section k dflt).

(** [content_object[sec][k] = x] *)
Definition set_field (sec k : string) (x : PyVal) : M World unit :=
  section <- get_section sec ;;
  section' <- lift (py_setitem section k x) ;;
  modify (fun w => set_content_object (<[sec := section']> (content_object w)) w).

(** [content_object[sec] = v] *)
Definition set_section (sec : string) (v : PyVal) : M World unit :=
  modify (fun w => set_content_object (<[sec := v]> (content_object w)) w).

(** ** [str.format] on the prompt templates

    The fragment of the format mini-language that the two templates
    exercise: literal text, the escapes [{{] and [}}], and replacement
    fields looked up among the keyword arguments.  As in CPython, a field
    runs up to its matching closing brace (a [:] starts a format spec in
    which braces nest), and it is resolved only once it has been read
    completely.  A resolved field that carries a conversion, an accessor
    or a non-empty spec is outside the fragment ([unsupported]). *)

Module Format.

Definition dq : string := String (ascii_of_nat 34) EmptyString.
Definition nl : string := String (ascii_of_nat 10) EmptyString.

Definition unsupported : Exn :=
  mkExn (OtherError "NotModelled") "format field outside the modelled fragment".

Definition value_error (msg : string) : Exn := mkExn ValueError msg.

Inductive mode :=
| Literal
| Name (name : string) (in_bracket : bool)
| Spec (name : string) (depth : nat) (plain : bool).

(** [repr] of a key, for the text of a [KeyError]: printable characters
    and the escapes of newline, carriage return, tab and backslash. *)
Fixpoint escape (s : string) : string :=
  match s with
  | EmptyString => EmptyString
  | String c s' =>
      (if Ascii.eqb c (ascii_of_nat 10) then "\n"
       else if Ascii.eqb c (ascii_of_nat 13) then "\r"
       else if Ascii.eqb c (ascii_of_nat 9) then "\t"
       else if Ascii.eqb c (ascii_of_nat 92) then "\\"
       else String c EmptyString) +:+ escape s'
  end.

Definition repr_str (s : string) : string :=
  if Str.contains "'" s && negb (Str.contains dq s)
  then dq +:+ escape s +:+ dq
  else "'" +:+ Str.replace "'" "\'" (escape s) +:+ "'".

Fixpoint lookup (kwargs : list (string * string)) (k : string) : option string :=
  match kwargs with
  | [] => None
  | (k', v) :: rest => if String.eqb k k' then Some v else lookup rest k
  end.

Definition is_digit (c : ascii) : bool :=
  let n := nat_of_ascii c in (48 <=? n)%nat && (n <=? 57)%nat.

Fixpoint all_digits (s : string) : bool :=
  match s with
  | EmptyString => true
  | String c s' => is_digit c && all_digits s'
  end.

Definition key_char (c : ascii) : bool :=
  negb (Ascii.eqb c "." || Ascii.eqb c "[")%char.

(** Resolution of a completely read field. *)
Definition resolve (kwargs : list (string * string)) (name : string) (plain : bool)
    : res string :=
  let key := Str.take_while key_char name in
  if all_digits key then
    (* automatic or explicit numbering: there are no positional arguments *)
    Raise (mkExn (OtherError "IndexError")
             "Replacement index out of range for positional args tuple")
  else
    match lookup kwargs key with
    | None => Raise (mkExn KeyError (repr_str key))
    | Some v =>
        if String.eqb key name && plain then Ok v else Raise unsupported
    end.

Fixpoint go (kwargs : list (string * string)) (s : string) (m : mode)
    (skip : bool) (out : string) : res string :=
  match s with
  | EmptyString =>
      match m with
      | Literal => Ok out
      | Name _ _ => Raise (value_error "expected '}' before end of string")
      | Spec _ _ _ => Raise (value_error "unmatched '{' in format spec")
      end
  | String c s' =>
      if skip then go kwargs s' m false out
      else
        match m with
        | Literal =>
            if Ascii.eqb c "{" then
              match s' with
              | EmptyString =>
                  Raise (value_error "Single '{' encountered in format string")
              | String c' _ =>
                  if Ascii.eqb c' "{"
                  then go kwargs s' Literal true (out +:+ "{")
                  else go kwargs s' (Name "" false) false out
              end
            else if Ascii.eqb c "}" then
              match s' with
              | String "}" _ => go kwargs s' Literal true (out +:+ "}")
              | _ => Raise (value_error "Single '}' encountered in format string")
              end
            else go kwargs s' Literal false (out +:+ String c "")
        | Name n true =>
            go kwargs s' (Name (n +:+ String c "") (negb (Ascii.eqb c "]"))) false out
        | Name n false =>
            if Ascii.eqb c "{" then
              Raise (value_error "unexpected '{' in field name")
            else if Ascii.eqb c "[" then
              go kwargs s' (Name (n +:+ "[") true) false out
            else if Ascii.eqb c "}" then
              match resolve kwargs n true with
              | Ok v => go kwargs s' Literal false (out +:+ v)
              | Raise e => Raise e
              end
            else if Ascii.eqb c ":" then
              go kwargs s' (Spec n 1 true) false out
            else if Ascii.eqb c "!" then
              Raise unsupported
            else go kwargs s' (Name (n +:+ String c "") false) false out
        | Spec n depth plain =>
            if Ascii.eqb c "{" then go kwargs s' (Spec n (S depth) false) false out
            else if Ascii.eqb c "}" then
              match depth with
              | 0%nat | 1%nat =>
                  match resolve kwargs n plain with
                  | Ok v => go kwargs s' Literal false (out +:+ v)
                  | Raise e => Raise e
                  end
              | S d => go kwargs s' (Spec n d false) false out
              end
            else go kwargs s' (Spec n depth false) false out
        end
  end.

(** [template.format] applied to keyword arguments. *)
Definition format (template : string) (kwargs : list (string * string)) : res string :=
  go kwargs template Literal false "".

End Format.

(** ** [content_ingestor/stages/] *)

Module Stages.
Import Schema.

(** The run configuration built by the command line: a dictionary with
    the two entries below; [None] stands for an absent key (and, for the
    directory, for the value [None]). *)
Record RunConfig := mkRunConfig {
  config_download_audio_dir : option string;
  config_transcribe : option bool
}.

(** [stages/base.py]: [with timer() as end] reads the clock on entry and
    [end()] returns the milliseconds elapsed since. *)
Definition timer (env : Env) : M World Q := read_clock (perf_counter env).

Definition timer_end (env : Env) (start : Q) : M World Q :=
  now <- read_clock (perf_counter env) ;;
  ret ((now - start) * 1000)%Q.

(** *** [validate_input.py] *)

Module validate_input.

Definition strip_prefix (p s : string) : option string :=
  if String.prefix p s
  then Some (String.substring (String.length p) (String.length s - String.length p) s)
  else None.

(** The class [[^&\n?#]]. *)
Definition id_char (c : ascii) : bool :=
  negb (Ascii.eqb c "&" || Ascii.eqb c (ascii_of_nat 10)
        || Ascii.eqb c "?" || Ascii.eqb c "#")%char.

(** The alternatives of an optional group, in the order in which the
    backtracking matcher tries them: each listed prefix, then nothing. *)
Definition optional (alts : list string) (s : string) : list string :=
  omap (fun p => strip_prefix p s) alts ++ [s].

Definition one_of (alts : list string) (s : string) : list string :=
  omap (fun p => strip_prefix p s) alts.

(** The first alternative that lets the rest of the pattern match. *)
Fixpoint first_match {A} (k : string -> option A) (rests : list string) : option A :=
  match rests with
  | [] => None
  | r :: rests' =>
      match k r with
      | Some x => Some x
      | None => first_match k rests'
      end
  end.

(** [YOUTUBE_REGEX] anchored at the start of [s]; the result is group 1. *)
Definition match_here (s : string) : option string :=
  first_match (fun s1 =>
  first_match (fun s2 =>
  first_match (fun s3 =>
  first_match (fun s4 =>
  first_match (fun s5 =>
    let g := Str.take_while id_char s5 in
    if String.eqb g "" then None else Some g)
    (optional ["watch?v="; "embed/"; "v/"; "shorts/"] s4))
    (one_of ["/"] s3))
    (one_of ["youtube.com"; "youtu.be"; "youtube-nocookie.com"] s2))
    (optional ["www."] s1))
    (optional ["https://"; "http://"] s).

(** [YOUTUBE_REGEX.search(url)]: the leftmost position that matches. *)
Fixpoint search (url : string) : option string :=
  match match_here url with
  | Some g => Some g
  | None =>
      match url with
      | EmptyString => None
      | String _ url' => search url'
      end
  end.

Definition stage_name : string := "validate_input".

Definition process (env : Env) (config : RunConfig) : M World StageResult :=
  (* metadata={"raw_url": content_object.get("source", {}).get("url")} *)
  w <- get ;;
  lift (py_get (dict_get_default (content_object w) "source" (VDict ∅)) "url" VNone) ;;;
  log_event INFO "Validating YouTube URL" (Some stage_name) "start" ;;;
  start <- timer env ;;
  w <- get ;;
  let source := dict_get_default (content_object w) "source" (VDict ∅) in
  raw_url <- lift (py_get source "url" (VStr "")) ;;
  url <- lift (match raw_url with
               | VStr s => Ok (Str.strip s)
               | _ => Raise (mkExn AttributeError "object has no attribute 'strip'")
               end) ;;
  if String.eqb url "" then
    let failure := mkStageFailure stage_name INPUT_ERROR "missing_url"
                     "Cannot proceed without input URL"
                     ["Provide a valid YouTube URL via CLI"] in
    t <- timer_end env start ;;
    let result := mkStageResult stage_name false [] ["No URL provided"]
                    [failure] [] (Some t) in
    log_event ERROR "Validation failed: missing URL" (Some stage_name) "failure" ;;;
    ret result
  else
    match search url with
    | None =>
        let failure := mkStageFailure stage_name INPUT_ERROR "invalid_youtube_url"
                         "Cannot extract video_id; pipeline will produce diagnostics-only artifact"
                         ["Ensure URL is from youtube.com or youtu.be";
                          "Check for typos or extra characters";
                          "Use standard watch?v= or youtu.be format"] in
        t <- timer_end env start ;;
        let result := mkStageResult stage_name false
                        ["URL did not match YouTube pattern: " +:+ url] []
                        [failure] [] (Some t) in
        log_event ERROR "Validation failed: invalid YouTube URL" (Some stage_name) "failure" ;;;
        ret result
    | Some group1 =>
        video_id <- lift (match Str.split "&" group1 !! 0%nat with
                          | Some v => Ok v
                          | None => Raise Transcription.index_error
                          end) ;;
        set_field "source" "video_id" (VStr video_id) ;;;
        set_field "source" "url" (VStr url) ;;;
        t <- timer_end env start ;;
        let result := mkStageResult stage_name true [] [] [] [] (Some t) in
        log_event INFO "URL validated and video_id extracted" (Some stage_name) "success" ;;;
        ret result
    end.

End validate_input.

(** *** [fetch_metadata.py] *)

Module fetch_metadata.

Definition stage_name : string := "fetch_metadata".

(** An f-string placeholder: a [str] is inserted as it is. *)
Definition format_str (env : Env) (v : PyVal) : string :=
  match v with
  | VStr s => s
  | _ => format_value env v
  end.

(** [info[k]] and [info.get(k)] on what [extract_info] returned. *)
Definition info_getitem (info : PyVal) (k : string) : res PyVal :=
  match info with
  | VDict d => getitem d k
  | _ => Raise (mkExn TypeError "object is not subscriptable")
  end.

Definition info_get (info : PyVal) (k : string) : M World PyVal :=
  lift (py_get info k VNone).

Definition process (env : Env) (config : RunConfig) : M World StageResult :=
  (* metadata={"video_id": content_object["source"].get("video_id")} *)
  get_field "source" "video_id" VNone ;;;
  log_event INFO "Fetching YouTube metadata" (Some stage_name) "start" ;;;
  video_id <- get_field "source" "video_id" VNone ;;
  if negb (truthy video_id) then
    let failure := mkStageFailure stage_name INPUT_ERROR "missing_video_id"
                     "Cannot fetch metadata without video_id"
                     ["Ensure validate_input stage succeeded"] in
    ret (mkStageResult stage_name false [] [] [failure] [] None)
  else
    start <- timer env ;;
    try_except
      (let url := "https://www.youtube.com/watch?v=" +:+ format_str env video_id in
       info <- call (EvExtractInfo url) (extract_info env url) ;;
       (if negb (truthy info)
        then raise (mkExn DownloadError "No info returned")
        else ret tt) ;;;
       title <- info_get info "title" ;;
       set_field "source" "title" title ;;;
       channel <- info_get info "channel" ;;
       uploader <- (if truthy channel then ret VNone else info_get info "uploader") ;;
       set_field "source" "channel_name" (py_or channel uploader) ;;;
       duration <- info_get info "duration" ;;
       set_field "source" "duration_seconds" duration ;;;
       timestamp <- info_get info "timestamp" ;;
       published_at <-
         (if truthy timestamp then
            ts <- lift (info_getitem info "timestamp") ;;
            lift (fromtimestamp env ts)
          else ret VNone) ;;
       set_field "source" "published_at" published_at ;;;
       language <- info_get info "language" ;;
       set_field "source" "language" language ;;;
       subtitles <- info_get info "subtitles" ;;
       let has_manual := truthy subtitles in
       automatic_captions <- info_get info "automatic_captions" ;;
       let has_auto := truthy automatic_captions in
       set_field "source" "captions_available" (VBool (has_manual || has_auto)) ;;;
       description <- info_get info "description" ;;
       set_field "raw" "description_text" description ;;;
       tags <- info_get info "tags" ;;
       set_field "raw" "tags" tags ;;;
       t <- timer_end env start ;;
       let result := mkStageResult stage_name true [] [] [] [] (Some t) in
       (* metadata of the success record *)
       info_get info "title" ;;;
       section <- get_section "source" ;;
       lift (match section with
             | VDict d => getitem d "channel_name"
             | _ => Raise (mkExn TypeError "object is not subscriptable")
             end) ;;;
       info_get info "duration" ;;;
       lift (match section with
             | VDict d => getitem d "captions_available"
             | _ => Raise (mkExn TypeError "object is not subscriptable")
             end) ;;;
       log_event INFO "Metadata fetched successfully" (Some stage_name) "success" ;;;
       ret result)
      (fun exc =>
         if decide (exn_class exc = DownloadError) then
           let msg := Str.lower (exn_str exc) in
           let cause := if Str.contains "unavailable" msg
                        then "video_unavailable" else "download_error" in
           let suggested := ["Check if video is public and not deleted";
                             "Try again later (transient YouTube issue)"] in
           let restricted := Str.contains "age-restricted" msg
                             || Str.contains "sign in" msg in
           let cause := if restricted then "age_restricted" else cause in
           let suggested := if restricted
                            then suggested ++ ["Provide cookies.txt with logged-in session"]
                            else suggested in
           let failure := mkStageFailure stage_name SOURCE_ERROR cause
                            "Metadata unavailable; downstream stages will have limited data"
                            suggested in
           t <- timer_end env start ;;
           let result := mkStageResult stage_name false ["Metadata fetch failed"] []
                           [failure] [] (Some t) in
           log_event WARNING "Metadata fetch failed" (Some stage_name) "failure" ;;;
           ret result
         else
           let failure := mkStageFailure stage_name SOURCE_ERROR "unexpected_error"
                            "Metadata unavailable"
                            ["Check internet connection"; "Update yt-dlp"; "Review logs"] in
           t <- timer_end env start ;;
           let result := mkStageResult stage_name false []
                           ["Unexpected error: " +:+ exn_str exc]
                           [failure] [] (Some t) in
           log_event ERROR "Unexpected error during metadata fetch" (Some stage_name) "failure" ;;;
           ret result).

End fetch_metadata.

(** *** [fetch_transcript.py] *)

Module fetch_transcript.

Definition stage_name : string := "fetch_transcript".

Definition option_str (o : option string) : PyVal :=
  match o with
  | Some s => VStr s
  | None => VNone
  end.

Definition process (env : Env) (config : RunConfig) : M World StageResult :=
  log_event INFO "Starting transcription" (Some stage_name) "start" ;;;
  source <- get_section "source" ;;
  url <- lift (match source with
               | VDict d => getitem d "url"
               | _ => Raise (mkExn TypeError "object is not subscriptable")
               end) ;;
  (* the runner stores a [str] here and no stage stores anything else;
     the model stops at any other value *)
  url <- lift (match url with
               | VStr s => Ok s
               | _ => Raise (mkExn TypeError "url is not a str")
               end) ;;
  let trans_config :=
    Transcription.mkConfig (config_download_audio_dir config)
                           (default true (config_transcribe config)) in
  start <- timer env ;;
  try_except
    (result <- Transcription.transcribe env url trans_config ;;
     (if Transcription.success result then
        set_field "raw" "transcript_text" (VStr (Transcription.transcript_text result)) ;;;
        set_field "raw" "audio_path" (option_str (Transcription.audio_path result)) ;;;
        set_field "raw" "transcript_language" (VStr "en") ;;;
        set_field "raw" "transcript_confidence"
          (if decide (Transcription.method result = Some "captions")
           then VFloat 1 else VFloat (7 # 10))
      else ret tt) ;;;
     t <- timer_end env start ;;
     let stage_result :=
       mkStageResult stage_name
         (Transcription.success result)
         (Transcription.warnings result)
         (Transcription.errors result)
         ((fun err => mkStageFailure stage_name EXTRACTION_ERROR err "Transcript limited"
                        (Transcription.suggested_fixes result))
            <$> Transcription.errors result)
         (Transcription.suggested_fixes result)
         (Some t) in
     log_event (if Transcription.success result then INFO else WARNING)
       "Transcription completed" (Some stage_name)
       (if Transcription.success result then "success" else "failure") ;;;
     ret stage_result)
    (fun exc =>
       let stage_result :=
         mkStageResult stage_name false [] [exn_str exc]
           [mkStageFailure stage_name EXTRACTION_ERROR "unexpected" "No transcript"
              ["Review logs"]]
           [] None in
       log_event ERROR "Transcription failed unexpectedly" (Some stage_name) "failure" ;;;
       ret stage_result).

End fetch_transcript.

(** *** [analyze_structure.py] *)

Module analyze_structure.
Import Format.

Definition STRUCTURE_PROMPT : string :=
  Str.strip (Str.join nl
    ["";
     "You are an expert content analyst. Analyze the following YouTube video transcript and extract only structural elements.";
     "Do not summarize, interpret, or judge quality.";
     "";
     "Extract:";
     "- sections: major timed or topical sections (use chapter titles if available, else infer from headings/transitions)";
     "- entities: people, tools, products, frameworks, concepts, organizations mentioned";
     "- references: URLs, books, papers, other videos/channels explicitly mentioned";
     "- detected_steps: ordered procedural steps if present (e.g., tutorials)";
     "- code_blocks_present: true if any code is shown or discussed";
     "";
     "Transcript:";
     "{transcript}";
     "";
     "Chapters (if available):";
     "{chapters}";
     "";
     "Respond with valid JSON only, matching this schema exactly:";
     "{";
     "  " +:+ dq +:+ "sections" +:+ dq +:+ ": [{" +:+ dq +:+ "start_time?" +:+ dq +:+ ": number, " +:+ dq +:+ "title" +:+ dq +:+ ": string}],";
     "  " +:+ dq +:+ "entities" +:+ dq +:+ ": [string],";
     "  " +:+ dq +:+ "references" +:+ dq +:+ ": [string],";
     "  " +:+ dq +:+ "detected_steps" +:+ dq +:+ ": [string],";
     "  " +:+ dq +:+ "code_blocks_present" +:+ dq +:+ ": boolean";
     "}";
     "";
     "Rules:";
     "- sections: use chapter timestamps if present; otherwise null start_time";
     "- entities/references/steps: max 50 items each";
     "- no explanations, no markdown, no extra fields";
     ""]).

(** [_call_llm]: whatever the client raises is re-raised as a
    [RuntimeError]. *)
Definition _call_llm (env : Env) (prompt : string) : M World string :=
  try_except
    (content <- call (EvLLM prompt) (llm_chat env prompt) ;;
     ret (Str.strip content))
    (fun exc => raise (mkExn RuntimeError ("LLM call failed: " +:+ exn_str exc))).

(** [len(v)] and [v[:n]] *)
Definition py_len (v : PyVal) : res nat :=
  match v with
  | VStr s => Ok (String.length s)
  | VList l => Ok (length l)
  | VDict d => Ok (size d)
  | _ => Raise (mkExn TypeError "object has no len()")
  end.

Definition py_take (n : nat) (v : PyVal) : res PyVal :=
  match v with
  | VStr s => Ok (VStr (Str.take n s))
  | VList l => Ok (VList (take n l))
  | _ => Raise (mkExn TypeError "object is not subscriptable")
  end.

(** [content_object["diagnostics"].setdefault("warnings", []).append(msg)] *)
Definition append_diagnostics_warning (msg : string) : M World unit :=
  diagnostics <- get_section "diagnostics" ;;
  match diagnostics with
  | VDict d =>
      match dict_get_default d "warnings" (VList []) with
      | VList l => set_field "diagnostics" "warnings" (VList (l ++ [VStr msg]))
      | _ => raise (mkExn AttributeError "object has no attribute 'append'")
      end
  | _ => raise (mkExn AttributeError "object has no attribute 'setdefault'")
  end.

Definition stage_name : string := "analyze_structure".

Definition empty_structure (chapters : PyVal) : PyVal :=
  VDict (<["sections" := py_or chapters (VList [])]>
        (<["entities" := VList []]>
        (<["references" := VList []]>
        (<["detected_steps" := VList []]>
        (<["code_blocks_present" := VBool false]> ∅))))).

Definition process (env : Env) (config : Stages.RunConfig) : M World Schema.StageResult :=
  log_event INFO "Starting structural analysis" (Some stage_name) "start" ;;;
  transcript <- get_field "raw" "transcript_text" (VStr "") ;;
  let transcript := py_or transcript (VStr "") in
  chapters <- get_field "raw" "chapters" (VList []) ;;
  start <- timer env ;;
  if negb (truthy transcript) then
    set_section "structure" (empty_structure chapters) ;;;
    t <- timer_end env start ;;
    let result := mkStageResult stage_name true
                    ["No transcript available for structural analysis"] [] [] []
                    (Some t) in
    log_event INFO "Structural analysis skipped (no transcript)" (Some stage_name) "success" ;;;
    ret result
  else
    n <- lift (py_len transcript) ;;
    transcript <-
      (if (40000 <? N.of_nat n)%N then
         transcript <- lift (py_take (N.to_nat 40000) transcript) ;;
         append_diagnostics_warning "Transcript truncated for structural analysis" ;;;
         ret transcript
       else ret transcript) ;;
    chapters_json <- (if truthy chapters then lift (json_dumps env chapters)
                      else ret "none") ;;
    prompt <- lift (format STRUCTURE_PROMPT
                      [("transcript", fetch_metadata.format_str env transcript);
                       ("chapters", chapters_json)]) ;;
    try_except
      (raw_response <- _call_llm env prompt ;;
       parsed <- lift (json_loads env raw_response) ;;
       validated <- lift (StructuredResponse_validate env parsed) ;;
       set_section "structure"
         (VDict (<["sections" := py_or (dict_get validated "sections")
                                       (py_or chapters (VList []))]>
                (<["entities" := dict_get validated "entities"]>
                (<["references" := dict_get validated "references"]>
                (<["detected_steps" := dict_get validated "detected_steps"]>
                (<["code_blocks_present" := dict_get validated "code_blocks_present"]>
                   ∅)))))) ;;;
       t <- timer_end env start ;;
       let result := mkStageResult stage_name true [] [] [] [] (Some t) in
       log_event INFO "Structural analysis completed" (Some stage_name) "success" ;;;
       ret result)
      (fun exc =>
         if decide (exn_class exc = JSONDecodeError) then
           (* [raw_response] is bound here: [_call_llm] raises nothing
              but [RuntimeError] *)
           let failure := mkStageFailure stage_name STRUCTURE_ERROR
                            "invalid_json_response"
                            "Structural fields empty; raw response preserved in logs"
                            ["Review prompt"; "Update model"; "Add response repair logic"] in
           set_section "structure" (empty_structure chapters) ;;;
           t <- timer_end env start ;;
           let result := mkStageResult stage_name false [] ["AI returned invalid JSON"]
                           [failure] [] (Some t) in
           log_event ERROR "Structural analysis failed: invalid JSON" (Some stage_name) "failure" ;;;
           ret result
         else if decide (exn_class exc = ValidationError) then
           let failure := mkStageFailure stage_name STRUCTURE_ERROR
                            "schema_validation_failed"
                            "Structural fields empty"
                            ["Adjust prompt for stricter adherence"; "Add fallback parsing"] in
           set_section "structure" (empty_structure chapters) ;;;
           t <- timer_end env start ;;
           ret (mkStageResult stage_name false [] ["Validation error: " +:+ exn_str exc]
                  [failure] [] (Some t))
         else
           let failure := mkStageFailure stage_name STRUCTURE_ERROR
                            "llm_invocation_failed"
                            "Structural fields empty"
                            ["Check API key/model availability"; "Retry later"] in
           set_section "structure" (empty_structure chapters) ;;;
           t <- timer_end env start ;;
           let result := mkStageResult stage_name false [] ["LLM call failed: " +:+ exn_str exc]
                           [failure] [] (Some t) in
           log_event ERROR "Structural analysis failed: LLM error" (Some stage_name) "failure" ;;;
           ret result).

End analyze_structure.

(** *** [analyze_semantics.py] *)

Module analyze_semantics.
Import Format.

Definition SEMANTICS_PROMPT : string :=
  Str.strip (Str.join nl
    ["";
     "You are an expert content classifier. Analyze the YouTube video based on title, description, and transcript.";
     "";
     "Classify only these attributes:";
     "- primary_topics: 3-7 main topics (most central)";
     "- secondary_topics: 0-5 additional notable topics";
     "- content_type: one of [tutorial, explanation, interview, review, opinion, demonstration, vlog, news, entertainment, other]";
     "- difficulty_level: one of [beginner, intermediate, advanced]";
     "- knowledge_type: one of [conceptual, procedural, mixed]";
     "";
     "Title: {title}";
     "Description: {description}";
     "Transcript sample: {transcript_sample}";
     "";
     "Rules:";
     "- Be objective and evidence-based";
     "- No commentary or summary";
     "- Respond with valid JSON only, exact schema:";
     "{";
     "  " +:+ dq +:+ "primary_topics" +:+ dq +:+ ": [string],";
     "  " +:+ dq +:+ "secondary_topics" +:+ dq +:+ ": [string],";
     "  " +:+ dq +:+ "content_type" +:+ dq +:+ ": string,";
     "  " +:+ dq +:+ "difficulty_level" +:+ dq +:+ ": string,";
     "  " +:+ dq +:+ "knowledge_type" +:+ dq +:+ ": string";
     "}";
     ""]).

Definition stage_name : string := "analyze_semantics".

Definition empty_semantics : PyVal :=
  VDict (<["primary_topics" := VList []]>
        (<["secondary_topics" := VList []]>
        (<["content_type" := VNone]>
        (<["difficulty_level" := VNone]>
        (<["knowledge_type" := VNone]> ∅))))).

Definition process (env : Env) (config : Stages.RunConfig) : M World Schema.StageResult :=
  log_event INFO "Starting semantic classification" (Some stage_name) "start" ;;;
  title <- get_field "source" "title" (VStr "") ;;
  description <- get_field "raw" "description_text" (VStr "") ;;
  transcript <- get_field "raw" "transcript_text" (VStr "") ;;
  let transcript := py_or transcript (VStr "") in
  start <- timer env ;;
  if negb (truthy transcript) && negb (truthy title) then
    set_section "semantics" empty_semantics ;;;
    t <- timer_end env start ;;
    let result := mkStageResult stage_name true
                    ["Insufficient content for semantic analysis"] [] [] []
                    (Some t) in
    log_event INFO "Semantic analysis skipped (no content)" (Some stage_name) "success" ;;;
    ret result
  else
    transcript_sample <- lift (analyze_structure.py_take (N.to_nat 20000) transcript) ;;
    n <- lift (analyze_structure.py_len transcript) ;;
    (if (20000 <? N.of_nat n)%N
     then analyze_structure.append_diagnostics_warning
            "Transcript truncated for semantic analysis"
     else ret tt) ;;;
    description_head <- lift (analyze_structure.py_take (N.to_nat 2000) description) ;;
    prompt <- lift (format SEMANTICS_PROMPT
                      [("title", fetch_metadata.format_str env (py_or title (VStr "No title")));
                       ("description",
                        fetch_metadata.format_str env
                          (py_or description_head (VStr "No description")));
                       ("transcript_sample",
                        fetch_metadata.format_str env
                          (py_or transcript_sample (VStr "No transcript")))]) ;;
    try_except
      (raw_response <- analyze_structure._call_llm env prompt ;;
       parsed <- lift (json_loads env raw_response) ;;
       validated <- lift (SemanticsResponse_validate env parsed) ;;
       set_section "semantics"
         (VDict (<["primary_topics" := dict_get validated "primary_topics"]>
                (<["secondary_topics" := dict_get validated "secondary_topics"]>
                (<["content_type" := dict_get validated "content_type"]>
                (<["difficulty_level" := dict_get validated "difficulty_level"]>
                (<["knowledge_type" := dict_get validated "knowledge_type"]> ∅)))))) ;;;
       t <- timer_end env start ;;
       let result := mkStageResult stage_name true [] [] [] [] (Some t) in
       log_event INFO "Semantic classification completed" (Some stage_name) "success" ;;;
       ret result)
      (fun exc =>
         if decide (exn_class exc = JSONDecodeError) then
           (* [raw_response] is bound here, as in [analyze_structure] *)
           let failure := mkStageFailure stage_name INTERPRETATION_ERROR
                            "invalid_json_response"
                            "Semantics fields empty"
                            ["Review prompt"; "Update model for JSON adherence"] in
           set_section "semantics" empty_semantics ;;;
           t <- timer_end env start ;;
           let result := mkStageResult stage_name false [] ["AI returned invalid JSON"]
                           [failure] [] (Some t) in
           log_event ERROR "Semantics failed: invalid JSON" (Some stage_name) "failure" ;;;
           ret result
         else if decide (exn_class exc = ValidationError) then
           let failure := mkStageFailure stage_name INTERPRETATION_ERROR
                            "schema_validation_failed"
                            "Semantics fields empty"
                            ["Strengthen prompt constraints"; "Add response repair"] in
           set_section "semantics" empty_semantics ;;;
           t <- timer_end env start ;;
           ret (mkStageResult stage_name false [] ["Validation failed: " +:+ exn_str exc]
                  [failure] [] (Some t))
         else
           let failure := mkStageFailure stage_name INTERPRETATION_ERROR
                            "llm_invocation_failed"
                            "Semantics fields empty"
                            ["Check model availability"; "Retry later"] in
           set_section "semantics" empty_semantics ;;;
           t <- timer_end env start ;;
           let result := mkStageResult stage_name false [] ["LLM error: " +:+ exn_str exc]
                           [failure] [] (Some t) in
           log_event ERROR "Semantics failed: LLM error" (Some stage_name) "failure" ;;;
           ret result).

End analyze_semantics.

End Stages.

(** ** [content_ingestor/runner.py] *)

Module Runner.
Import Schema Stages.

(** A stage function: the module it is defined in and its [process]. *)
Record StageFunc := mkStageFunc {
  __module__ : string;
  stage_call : Env -> RunConfig -> M World StageResult
}.

Definition STAGES : list StageFunc :=
  [ mkStageFunc "second_brain.content_ingestor.stages.validate_input"
      validate_input.process;
    mkStageFunc "second_brain.content_ingestor.stages.fetch_metadata"
      fetch_metadata.process;
    mkStageFunc "second_brain.content_ingestor.stages.fetch_transcript"
      fetch_transcript.process;
    mkStageFunc "second_brain.content_ingestor.stages.analyze_structure"
      analyze_structure.process;
    mkStageFunc "second_brain.content_ingestor.stages.analyze_semantics"
      analyze_semantics.process ].

(** [stage_func.__module__.split('.')[-1]] *)
Definition stage_name_of (stage_func : StageFunc) : string :=
  List.last (Str.split "." (__module__ stage_func)) "".

(** [Identity().model_dump()] and [Source(url=url).model_dump()] *)
Definition Identity_dump (env : Env) : PyDict :=
  <["content_id" := VObj (new_content_id env)]>
  (<["workflow_run_id" := VObj (new_workflow_run_id env)]>
  (<["created_at" := VObj (utcnow env)]>
  (<["workflow_version" := VStr "0.1.0"]> ∅))).

Definition Source_dump (url : string) : PyDict :=
  <["source_type" := VStr "youtube"]>
  (<["url" := VStr url]>
  (<["video_id" := VNone]>
  (<["title" := VNone]>
  (<["channel_name" := VNone]>
  (<["duration_seconds" := VNone]>
  (<["published_at" := VNone]>
  (<["language" := VNone]>
  (<["captions_available" := VNone]> ∅)))))))).

Definition initial_content_object (env : Env) (url : string) : PyDict :=
  <["identity" := VDict (Identity_dump env)]>
  (<["source" := VDict (Source_dump url)]>
  (<["raw" := VDict ∅]>
  (<["structure" := VDict ∅]>
  (<["semantics" := VDict ∅]>
  (<["diagnostics" := VDict ∅]> ∅))))).

(** [collector.add_stage_result(stage_result)] on the runner's collector. *)
Definition collector_add (stage_result : StageResult) : M World unit :=
  zoom collector set_collector (Collector.add_stage_result stage_result).

(** The result that the failure boundary builds from an exception. *)
Definition unhandled_result (stage_name : string) (exc : Exn) : StageResult :=
  let failure := mkStageFailure stage_name SOURCE_ERROR "unexpected_exception"
                   "stage aborted"
                   ["Review logs"; "Report bug with traceback"] in
  mkStageResult stage_name false []
    ["Unhandled exception: " +:+ exn_str exc]
    [failure] [] None.

(** The body of the loop over [STAGES]. *)
Definition run_stage (env : Env) (config : RunConfig) (stage_func : StageFunc)
    : M World unit :=
  let stage_name := stage_name_of stage_func in
  log_event INFO "Starting stage" (Some stage_name) "start" ;;;
  try_except
    (stage_result <- stage_call stage_func env config ;;
     collector_add stage_result ;;;
     log_event (if success stage_result then INFO else WARNING)
       "Stage completed" (Some stage_name)
       (if success stage_result then "success" else "failure"))
    (fun exc =>
       let stage_result := unhandled_result stage_name exc in
       collector_add stage_result ;;;
       log_event ERROR "Unhandled exception in stage" (Some stage_name) "failure").

Definition run_stages (env : Env) (config : RunConfig) (stages : list StageFunc)
    : M World unit :=
  for_each stages (run_stage env config).

(** [config or {}] *)
Definition config_or_empty (config : option RunConfig) : RunConfig :=
  default (mkRunConfig None None) config.

(** Everything up to the loop. *)
Definition initialize (env : Env) (url : string) : M World unit :=
  log_event INFO "Starting YouTube content ingestion pipeline" None "pipeline_start" ;;;
  modify (set_content_object (initial_content_object env url)) ;;;
  modify (set_collector (Collector.init (new_run_id env))).

(** Everything after the loop. *)
Definition finalize (env : Env) : M World PyDict :=
  diagnostics <- zoom collector set_collector Collector.build_diagnostics ;;
  set_section "diagnostics" (VDict diagnostics) ;;;
  try_except
    (w <- get ;;
     validated <- lift (ContentObject_model_validate env (content_object w)) ;;
     let content_object := Models.dump_ContentObject validated in
     log_event INFO "Pipeline completed successfully" None "pipeline_success" ;;;
     ret content_object)
    (fun exc =>
       log_event ERROR "Final schema validation failed — returning raw object"
         None "validation_failure" ;;;
       w <- get ;;
       ret (content_object w)).

Definition run_ingestion (env : Env) (url : string) (config : option RunConfig)
    : M World PyDict :=
  initialize env url ;;;
  run_stages env (config_or_empty config) STAGES ;;;
  finalize env.

End Runner.

(** ** [logging_core/logger.py] *)

(** The file drives the standard [logging] module; the part of it that
    the file reaches is modelled here: a registry of named loggers, each
    with a level, a propagation flag, its handlers and its filters.  The
    handlers are those that [get_logger] installs, a [StreamHandler] on
    standard output with a [JSONFormatter]; the filters are
    [RunIdFilter]s, each closing over a run id. *)
Module Logger.

Inductive Handler := StdoutJSONHandler.

Inductive Filter := RunIdFilter (run_id_str : string).

Record LoggerObj := mkLogger {
  level : N;
  propagate : bool;
  handlers : list Handler;
  filters : list Filter
}.

(** The standard levels. *)
Definition NOTSET : N := 0.
Definition DEBUG : N := 10.
Definition INFO : N := 20.
Definition WARNING : N := 30.
Definition ERROR : N := 40.
Definition CRITICAL : N := 50.

(** [logging.getLevelName] *)
Definition getLevelName (levelno : N) : string :=
  if (levelno =? CRITICAL)%N then "CRITICAL"
  else if (levelno =? ERROR)%N then "ERROR"
  else if (levelno =? WARNING)%N then "WARNING"
  else if (levelno =? INFO)%N then "INFO"
  else if (levelno =? DEBUG)%N then "DEBUG"
  else if (levelno =? NOTSET)%N then "NOTSET"
  else "Level " +:+ pretty levelno.

(** A log record: the attributes that [JSONFormatter.format] reads.
    [attrs] holds the attributes set from [extra]; [record_run_id] is
    the attribute [run_id], absent until a filter sets it; [exc_text] is
    the formatted exception when the record carries one. *)
Record LogRecord := mkLogRecord {
  levelno : N;
  msg : string;
  record_run_id : option string;
  attrs : PyDict;
  exc_text : option string
}.

(** The state: the registry of [logging], the module-level cache
    [_loggers] (a logger is held by reference, here by the name under
    which it is registered), the lines written to standard output and the
    number of clock readings so far. *)
Record State := mkState {
  loggerDict : gmap string LoggerObj;
  _loggers : gmap string string;
  stdout : list string;
  clock_reads : nat
}.

Definition set_loggerDict (d : gmap string LoggerObj) (st : State) : State :=
  mkState d (_loggers st) (stdout st) (clock_reads st).

(** [logging.getLogger(name)]: the logger registered under [name]; when
    there is none, one is created at level [NOTSET], propagating,
    without handlers or filters. *)
Definition getLogger (name : string) (st : State) : State :=
  match loggerDict st !! name with
  | Some _ => st
  | None => set_loggerDict (<[name := mkLogger NOTSET true [] []]> (loggerDict st)) st
  end.

Definition update_logger (name : string) (f : LoggerObj -> LoggerObj) (st : State) : State :=
  set_loggerDict (alter f name (loggerDict st)) st.

Definition logger_name (run_id_str : string) : string :=
  "second_brain.ingestor." +:+ run_id_str.

(** [get_logger(run_id)], with [run_id_str = str(run_id)]; the result is
    the reference to the logger. *)
Definition get_logger (run_id_str : string) (st : State) : string * State :=
  match _loggers st !! run_id_str with
  | Some logger => (logger, st)
  | None =>
      let name := logger_name run_id_str in
      let st := getLogger name st in
      (* logger.setLevel(logging.INFO); logger.propagate = False *)
      let st := update_logger name
                  (fun l => mkLogger INFO false (handlers l) (filters l)) st in
      (* if not logger.handlers: ... logger.addHandler(handler) *)
      let st := update_logger name
                  (fun l => match handlers l with
                            | [] => mkLogger (level l) (propagate l)
                                      [StdoutJSONHandler] (filters l)
                            | _ :: _ => l
                            end) st in
      (* _loggers[run_id_str] = logger *)
      let st := mkState (loggerDict st) (<[run_id_str := name]> (_loggers st))
                  (stdout st) (clock_reads st) in
      (* logger.addFilter(RunIdFilter()): the filter is a new object, so
         it is in no list yet *)
      let st := update_logger name
                  (fun l => mkLogger (level l) (propagate l) (handlers l)
                              (filters l ++ [RunIdFilter run_id_str])) st in
      (name, st)
  end.

(** [getattr(record, field, None)] for a name that only [extra] can
    set, and the conditional store that follows it. *)
Definition is_none (v : PyVal) : bool :=
  match v with
  | VNone => true
  | _ => false
  end.

Definition add_if_not_none (field : string) (record : LogRecord) (d : PyDict) : PyDict :=
  let value := dict_get (attrs record) field in
  if is_none value then d else <[field := value]> d.

(** [JSONFormatter.format(record)] up to the final [json.dumps]: the
    dictionary [log_record].  [now] is
    [datetime.utcnow().replace(microsecond=0).isoformat()]. *)
Definition log_record (now : string) (record : LogRecord) : PyDict :=
  let d : PyDict :=
    <["message" := VStr (msg record)]>
    (<["level" := VStr (getLevelName (levelno record))]>
    (<["timestamp" := VStr (now +:+ "Z")]> ∅)) in
  let d := match record_run_id record with
           | Some run_id => <["run_id" := VStr run_id]> d
           | None => d
           end in
  let d := add_if_not_none "metadata" record
             (add_if_not_none "event_type" record
                (add_if_not_none "stage_name" record d)) in
  match exc_text record with
  | Some text => <["exc_info" := VStr text]> d
  | None => d
  end.

Section Emit.
(** The clock, by number of earlier readings, and
    [json.dumps(_, ensure_ascii=False)]. *)
Context (utcnow_iso : nat -> string) (json_dumps : PyVal -> res string).

Definition format (record : LogRecord) : M State string :=
  st <- get ;;
  modify (fun st => mkState (loggerDict st) (_loggers st) (stdout st)
                      (S (clock_reads st))) ;;;
  lift (json_dumps (VDict (log_record (utcnow_iso (clock_reads st)) record))).

Definition recursion_error : ExnClass := OtherError "RecursionError".

(** [StreamHandler.emit]: apart from [RecursionError], an exception
    raised while formatting is handed to [handleError], which reports it
    on standard error, and goes no further. *)
Definition emit (h : Handler) (record : LogRecord) : M State unit :=
  try_except
    (line <- format record ;;
     modify (fun st => mkState (loggerDict st) (_loggers st) (stdout st ++ [line])
                         (clock_reads st)))
    (fun exc =>
       if decide (exn_class exc = recursion_error) then raise exc else ret tt).

(** [Filterer.filter]: every [RunIdFilter] sets the attribute and lets
    the record pass. *)
Definition apply_filter (record : LogRecord) (f : Filter) : LogRecord :=
  match f with
  | RunIdFilter run_id_str =>
      mkLogRecord (levelno record) (msg record) (Some run_id_str)
        (attrs record) (exc_text record)
  end.

(** [logger.log(level, message, extra=extra)].  The answer is [None]
    where the model stops: when [logger] refers to no logger, and when the
    logger is not set up as [get_logger] leaves it (then its parents,
    which are not modelled, decide). *)
Definition log (logger : string) (levelno : N) (message : string) (extra : PyDict)
    (st : State) : option (res unit * State) :=
  match loggerDict st !! logger with
  | None => None
  | Some l =>
      if (level l =? NOTSET)%N || propagate l
         || bool_decide (handlers l = []) then None
      else if (level l <=? levelno)%N then
        let record := mkLogRecord levelno message None extra None in
        let record := foldl apply_filter record (filters l) in
        Some (for_each (handlers l) (fun h => emit h record) st)
      else Some (Ok tt, st)
  end.

(** [log_event(logger, level, message, stage_name=, event_type=, metadata=)] *)
Definition log_event (logger : string) (levelno : N) (message : string)
    (stage_name : option string) (event_type : string) (metadata : option PyDict)
    (st : State) : option (res unit * State) :=
  let extra : PyDict := {["event_type" := VStr event_type]} in
  let extra := match stage_name with
               | Some name => if truthy (VStr name) then <["stage_name" := VStr name]> extra
                              else extra
               | None => extra
               end in
  let extra := match metadata with
               | Some m => if truthy (VDict m) then <["metadata" := VDict m]> extra
                           else extra
               | None => extra
               end in
  log logger levelno message extra st.

End Emit.

End Logger.

(** * Properties *)

(** ** The diagnostics collector *)

Module CollectorFacts.
Import Schema Collector.

(** All nested per-failure fixes of a result, in order. *)
Definition failure_fixes (r : StageResult) : list string :=
  concat (failure_suggested_fixes <$> failures r).

Lemma for_each_extend (fs : list StageFailure) (c : DiagnosticsCollector) :
  for_each fs (fun failure => modify (extend_suggested_fixes (failure_suggested_fixes failure))) c
  = (Ok tt, extend_suggested_fixes (concat (failure_suggested_fixes <$> fs)) c).
Proof.
  revert c. induction fs as [|f fs IH]; intros c.
  - destruct c. unfold extend_suggested_fixes. simpl. by rewrite app_nil_r.
  - simpl. unfold bind, modify at 1. rewrite IH.
    destruct c. unfold extend_suggested_fixes. simpl. by rewrite app_assoc.
Qed.

(** What an accepted call does to the collector. *)
Lemma add_stage_result_fresh (r : StageResult) (c : DiagnosticsCollector) :
  _stage_status c !! stage_name r = None →
  add_stage_result r c
  = (Ok tt,
     mkCollector (run_id c) (<[stage_name r := r]> (_stage_status c))
       (_global_warnings c ++ warnings r)
       (_global_errors c ++ errors r)
       ((_global_suggested_fixes c ++ suggested_fixes r) ++ failure_fixes r)).
Proof.
  intros Hfresh. unfold add_stage_result, bind, get.
  destruct (decide (is_Some (_stage_status c !! stage_name r))) as [[x Hx]|_].
  { congruence. }
  unfold modify at 1 2 3 4. by rewrite for_each_extend.
Qed.

(** What a rejected call does: nothing. *)
Lemma add_stage_result_duplicate (r : StageResult) (c : DiagnosticsCollector) :
  is_Some (_stage_status c !! stage_name r) →
  add_stage_result r c
  = (Raise (mkExn ValueError ("Duplicate stage result for " +:+ stage_name r)), c).
Proof.
  intros Hdup. unfold add_stage_result, bind, get.
  by destruct (decide (is_Some (_stage_status c !! stage_name r))).
Qed.

Lemma add_stage_result_recorded (r : StageResult) (c : DiagnosticsCollector) :
  is_Some (_stage_status (add_stage_result r c).2 !! stage_name r).
Proof.
  destruct (_stage_status c !! stage_name r) as [x|] eqn:Hx.
  - rewrite add_stage_result_duplicate by eauto. simpl. eauto.
  - rewrite add_stage_result_fresh by done. simpl.
    rewrite lookup_insert_eq. eauto.
Qed.

Lemma add_stage_result_keeps (r : StageResult) (c : DiagnosticsCollector) (k : string) :
  is_Some (_stage_status c !! k) →
  is_Some (_stage_status (add_stage_result r c).2 !! k).
Proof.
  intros Hk.
  destruct (_stage_status c !! stage_name r) as [x|] eqn:Hx.
  - rewrite add_stage_result_duplicate by eauto. done.
  - rewrite add_stage_result_fresh by done. simpl.
    destruct (decide (stage_name r = k)) as [->|Hne].
    + rewrite lookup_insert_eq. eauto.
    + by rewrite lookup_insert_ne.
Qed.

(** Submitting a sequence of results to the same collector, one call
    after the other; a rejected call leaves the collector where it is and
    the caller carries on. *)
Definition submit_all (rs : list StageResult) (c : DiagnosticsCollector)
    : DiagnosticsCollector :=
  foldl (fun c r => (add_stage_result r c).2) c rs.

Lemma submit_all_snoc (rs : list StageResult) (r : StageResult) (c : DiagnosticsCollector) :
  submit_all (rs ++ [r]) c = (add_stage_result r (submit_all rs c)).2.
Proof. unfold submit_all. by rewrite foldl_app. Qed.

Lemma submit_all_recorded (rs : list StageResult) (c : DiagnosticsCollector) (k : string) :
  k ∈ stage_name <$> rs →
  is_Some (_stage_status (submit_all rs c) !! k).
Proof.
  induction rs as [|r rs IH] using rev_ind; intros Hk.
  - by apply elem_of_nil in Hk.
  - rewrite submit_all_snoc.
    rewrite fmap_app in Hk. apply elem_of_app in Hk as [Hk|Hk].
    + apply add_stage_result_keeps. by apply IH.
    + apply list_elem_of_singleton in Hk as ->. apply add_stage_result_recorded.
Qed.

(** C7. Take a collector in any state [c0] and submit the results [rs] to
    it, one call after the other.  Submitting then a result whose stage
    name is among those of [rs] raises the duplicate-key [ValueError], and
    the collector after the rejected call is exactly the collector before
    it: stage-status map and global warnings, errors and suggested fixes
    are all untouched. *)
Theorem add_stage_result_twice_rejected
    (c0 : DiagnosticsCollector) (rs : list StageResult) (r : StageResult) :
  stage_name r ∈ stage_name <$> rs →
  let c := submit_all rs c0 in
  add_stage_result r c
  = (Raise (mkExn ValueError ("Duplicate stage result for " +:+ stage_name r)), c).
Proof.
  intros Hsubmitted c.
  apply add_stage_result_duplicate. by apply submit_all_recorded.
Qed.

Definition sample_result : StageResult :=
  mkStageResult "fetch_metadata" false ["Metadata fetch failed"] []
    [mkStageFailure "fetch_metadata" SOURCE_ERROR "download_error" "Metadata unavailable"
       ["Try again later"]]
    ["Try again later"] None.

Lemma add_stage_result_twice_rejected_witness :
  let c := submit_all [sample_result] (init "run-1") in
  add_stage_result sample_result c
  = (Raise (mkExn ValueError "Duplicate stage result for fetch_metadata"), c).
Proof.
  apply (add_stage_result_twice_rejected (init "run-1") [sample_result] sample_result).
  simpl. apply list_elem_of_here.
Defined.

Lemma elem_of_list_of_set (l : list string) (x : string) :
  x ∈ list_of_set l ↔ x ∈ l.
Proof. unfold list_of_set. by rewrite elem_of_elements, elem_of_list_to_set. Qed.

Lemma NoDup_list_of_set (l : list string) : NoDup (list_of_set l).
Proof. unfold list_of_set. apply NoDup_elements. Qed.

Lemma build_diagnostics_run (c : DiagnosticsCollector) :
  build_diagnostics c
  = (Ok (dump_Diagnostics
           (mkDiagnostics (_stage_status c) (_global_warnings c) (_global_errors c)
              (list_of_set (_global_suggested_fixes c)))), c).
Proof. reflexivity. Qed.

(** C8. After any sequence of [add_stage_result] calls, on a collector in
    any state, [build_diagnostics] returns a dictionary whose
    [suggested_fixes] entry is a list of strings without duplicates; its
    members are exactly the fixes accumulated by the collector (stage-level
    and per-failure ones), whatever their multiplicity there. *)
Theorem build_diagnostics_suggested_fixes_NoDup
    (c0 : DiagnosticsCollector) (rs : list StageResult) :
  let c := submit_all rs c0 in
  ∃ (d : PyDict) (fixes : list string),
    build_diagnostics c = (Ok d, c)
    ∧ d !! "suggested_fixes" = Some (str_list fixes)
    ∧ NoDup fixes
    ∧ ∀ x, x ∈ fixes ↔ x ∈ _global_suggested_fixes c.
Proof.
  intros c. eexists _, (list_of_set (_global_suggested_fixes c)).
  split; [apply build_diagnostics_run|].
  split; [reflexivity|].
  split; [apply NoDup_list_of_set|].
  intros x. apply elem_of_list_of_set.
Qed.

(** C9. Two calls of [build_diagnostics] in a row, with no
    [add_stage_result] between them, both return normally, return equal
    values, and leave the collector as it was. *)
Theorem build_diagnostics_idempotent (c : DiagnosticsCollector) :
  ∃ d : PyDict,
    (first <- build_diagnostics ;;
     second <- build_diagnostics ;;
     ret (first, second)) c
    = (Ok (d, d), c).
Proof.
  eexists. unfold bind. rewrite !build_diagnostics_run. reflexivity.
Qed.

End CollectorFacts.

(** ** The transcription fallback *)

Module TranscriptionFacts.
Import Transcription.

Ltac unfold_m :=
  unfold try_except, bind, call, lift, ret, raise, modify, get, read_clock,
    of_option_exn in *.

(** Strings that are empty or consist of whitespace only. *)
Fixpoint blank (s : string) : bool :=
  match s with
  | EmptyString => true
  | String c s' => Str.is_space c && blank s'
  end.

Lemma lstrip_blank (s : string) : blank s = true → Str.lstrip s = "".
Proof.
  induction s as [|c s IH]; simpl; [done|].
  intros [Hc Hs]%andb_prop. rewrite Hc. auto.
Qed.

Lemma strip_blank (s : string) : blank s = true → Str.strip s = "".
Proof. intros H. unfold Str.strip. by rewrite lstrip_blank. Qed.

Example extract_video_id_first_parameter :
  _extract_video_id "https://www.youtube.com/watch?v=abc123&t=1" = Ok "abc123".
Proof. reflexivity. Qed.

Example extract_video_id_short_url :
  _extract_video_id "https://youtu.be/abc123"
  = Raise (mkExn ValueError "Invalid YouTube URL").
Proof. reflexivity. Qed.


Definition is_model_event (ev : Event) : bool :=
  match ev with
  | EvLoadModel _ _ | EvModelTranscribe _ => true
  | _ => false
  end.

(** Environments for the concrete cases below: [captions] is what the
    caption client answers, [model_text] what the model transcribes;
    everything else succeeds, except the yt-dlp and language-model
    clients, which are down. *)
Definition offline : Exn := mkExn (OtherError "ConnectionError") "offline".

Definition sample_env (import_error : option Exn) (captions : res (list PyDict))
    (model_text : string) : Env :=
  {| new_run_id := "run-1";
     new_content_id := "content-1";
     new_workflow_run_id := "workflow-1";
     utcnow := "2024-01-01T00:00:00";
     time_time := fun n => inject_Z (Z.of_nat n);
     perf_counter := fun n => inject_Z (Z.of_nat n);
     import_youtube_transcript_api := import_error;
     import_youtube_transcript_api_errors := None;
     get_transcript := fun _ => captions;
     makedirs := fun _ => None;
     TemporaryDirectory := Ok "/tmp/tmpabc";
     subprocess_run := fun _ => None;
     tmpdir_cleanup := None;
     cuda_is_available := false;
     load_model := fun _ _ => None;
     model_transcribe := fun _ => Ok {["text" := VStr model_text]};
     extract_info := fun _ => Raise offline;
     fromtimestamp := fun _ => Ok (VObj "datetime");
     llm_chat := fun _ => Raise offline;
     format_value := fun _ => "<object>";
     json_dumps := fun _ => Ok "[]";
     json_loads := fun _ => Raise (mkExn JSONDecodeError "Expecting value");
     StructuredResponse_validate := fun _ => Raise (mkExn ValidationError "invalid");
     SemanticsResponse_validate := fun _ => Raise (mkExn ValidationError "invalid");
     ContentObject_model_validate :=
       fun _ => Raise (mkExn ValidationError "validation error for ContentObject") |}.

Definition captions_disabled : res (list PyDict) :=
  Raise (mkExn TranscriptsDisabled "Subtitles are disabled for this video").

Definition fresh_world : World :=
  mkWorld ∅ (Collector.init "") [] false 0.

Definition sample_url : string := "https://www.youtube.com/watch?v=abc123".

(** *** Download-only mode *)



(** The command line that [_download_audio] runs for an output path. *)
Definition download_command (youtube_url output_path : string) : list string :=
  ["yt-dlp"; "-f"; "bestaudio"; "--extract-audio"; "--audio-format"; "wav";
   "-o"; Str.replace ".wav" ".%(ext)s" output_path; youtube_url].

Definition returns_normally (o : option Exn) : bool :=
  match o with
  | None => true
  | Some _ => false
  end.

(** The body of the [try] of [transcribe_audio] runs to its [return] in
    download-only mode: with a save directory, the video id is found in
    the URL, the directory is made and the download command returns
    normally; without one, the temporary directory is created, the
    download command returns normally and so does [tmpdir.cleanup()],
    which is inside the [try] as well. *)
Definition download_completes (env : Env) (url : string) (save_dir : option string)
    : bool :=
  if dir_given save_dir then
    match _extract_video_id url with
    | Ok id =>
        returns_normally (makedirs env (default "" save_dir))
        && returns_normally
             (subprocess_run env
                (download_command url
                   (Str.path_join (default "" save_dir) (id +:+ ".wav"))))
    | Raise _ => false
    end
  else
    match TemporaryDirectory env with
    | Ok tmpdir =>
        returns_normally
          (subprocess_run env (download_command url (Str.path_join tmpdir "audio.wav")))
        && returns_normally (tmpdir_cleanup env)
    | Raise _ => false
    end.


(** *** Empty transcripts *)

(** Audio acquisition succeeds: the target location can be set up and the
    download command returns normally. *)
Definition audio_acquired (env : Env) (url : string) (save_dir : option string) : Prop :=
  (if dir_given save_dir
   then (∃ id, _extract_video_id url = Ok id) ∧ makedirs env (default "" save_dir) = None
   else ∃ tmp, TemporaryDirectory env = Ok tmp)
  ∧ ∀ command, subprocess_run env command = None.

(** Acquisition is not all that a download-only success needs: without
    a save directory the cleanup of the temporary directory must return
    normally too. *)
Lemma audio_acquired_completes
    (env : Env) (url : string) (save_dir : option string) :
  audio_acquired env url save_dir →
  dir_given save_dir = true ∨ tmpdir_cleanup env = None →
  download_completes env url save_dir = true.
Proof.
  intros [Hsetup Hrun] Hclean. unfold download_completes.
  destruct (dir_given save_dir).
  - destruct Hsetup as [[id ->] ->]. by rewrite Hrun.
  - destruct Hsetup as [tmp ->]. rewrite Hrun.
    destruct Hclean as [Hdir|Hclean]; [done|by rewrite Hclean].
Qed.

(** An environment in which everything about the download works, but the
    cleanup of the temporary directory raises. *)
Definition cleanup_error : Exn := mkExn (OtherError "PermissionError") "Permission denied".

Definition failing_cleanup_env : Env :=
  let env := sample_env None captions_disabled "hello" in
  mkEnv (new_run_id env) (new_content_id env) (new_workflow_run_id env) (utcnow env)
    (time_time env) (perf_counter env)
    (import_youtube_transcript_api env) (import_youtube_transcript_api_errors env)
    (get_transcript env) (makedirs env) (TemporaryDirectory env) (subprocess_run env)
    (Some cleanup_error) (cuda_is_available env) (load_model env) (model_transcribe env)
    (extract_info env) (fromtimestamp env) (llm_chat env) (format_value env)
    (json_dumps env) (json_loads env) (StructuredResponse_validate env)
    (SemanticsResponse_validate env) (ContentObject_model_validate env).

(** There the audio is acquired and downloaded, and the download-only
    call still reports failure, with the method unset. *)
Example cleanup_error_fails_download_only :
  audio_acquired failing_cleanup_env sample_url None
  ∧ ∃ r w',
      transcribe_audio failing_cleanup_env sample_url None false fresh_world = (Ok r, w')
      ∧ (∃ command, EvDownloadAudio command ∈ trace w')
      ∧ success r = false ∧ method r = None
      ∧ errors r = [exn_str cleanup_error].
Proof.
  split; [split; [simpl; eauto | reflexivity]|].
  eexists _, _. split; [reflexivity|]. split; [|done].
  eexists. simpl. rewrite !elem_of_cons. eauto.
Qed.

(** The model is available and transcribes every audio file to a blank
    text. *)
Definition model_yields_blank (env : Env) (w : World) : Prop :=
  (_MODEL w = true ∨ ∀ name device, load_model env name device = None)
  ∧ ∀ path, ∃ d s, model_transcribe env path = Ok d
                   ∧ dict_get_default d "text" (VStr "") = VStr s
                   ∧ blank s = true.

(** C4. When audio acquisition succeeds, transcription is enabled and the
    model yields an empty or whitespace-only transcript, the audio
    strategy returns a result with [success = false], although the audio
    download did take place. *)
Theorem transcribe_audio_blank_transcript_fails
    (env : Env) (url : string) (save_dir : option string) (w : World) :
  audio_acquired env url save_dir →
  model_yields_blank env w →
  ∃ r w', transcribe_audio env url save_dir true w = (Ok r, w')
          ∧ success r = false
          ∧ ∃ command, EvDownloadAudio command ∈ trace w'.
Proof.
  intros [Hsetup Hrun] [Hload Hmodel].
  unfold transcribe_audio, _download_audio, _load_model, result_text.
  unfold_m.
  destruct (dir_given save_dir) eqn:Hdir.
  - destruct Hsetup as [[id Hid] Hmk]. rewrite Hid, Hmk. simpl.
    rewrite Hrun. simpl.
    destruct (Hmodel (Str.path_join (default "" save_dir) (id +:+ ".wav")))
      as (d & s & -> & -> & Hs%strip_blank).
    rewrite Hs. simpl.
    destruct (_MODEL w) eqn:HM; [|destruct Hload as [?|Hload]; [congruence|rewrite Hload]];
      simpl; (eexists _, _; split; [reflexivity|split; [reflexivity|]]);
      eexists; simpl; rewrite !elem_of_app, !list_elem_of_singleton; eauto 10.
  - destruct Hsetup as [tmp Htmp]. rewrite Htmp. simpl.
    rewrite Hrun. simpl.
    destruct (Hmodel (Str.path_join tmp "audio.wav"))
      as (d & s & -> & -> & Hs%strip_blank).
    rewrite Hs. simpl.
    destruct (_MODEL w) eqn:HM; [|destruct Hload as [?|Hload]; [congruence|rewrite Hload]];
      simpl; destruct (tmpdir_cleanup env); simpl;
      (eexists _, _; split; [reflexivity|split; [reflexivity|]]);
      eexists; simpl; rewrite !elem_of_app, !list_elem_of_singleton; eauto 10.
Qed.

Lemma transcribe_audio_blank_transcript_fails_witness :
  ∃ r w',
    transcribe_audio (sample_env None captions_disabled "  ") sample_url None true fresh_world
    = (Ok r, w')
    ∧ success r = false
    ∧ ∃ command, EvDownloadAudio command ∈ trace w'.
Proof.
  apply (transcribe_audio_blank_transcript_fails
           (sample_env None captions_disabled "  ") sample_url None fresh_world).
  - split; [simpl; eauto | reflexivity].
  - split; [right; reflexivity|].
    intros path. exists {["text" := VStr "  "]}, "  ". repeat split; reflexivity.
Defined.

(** *** The coordinator *)

Lemma transcribe_audio_success_method
    (env : Env) (url : string) (save_dir : option string) (do_transcribe : bool)
    (w w' : World) (r : TranscriptionResult) :
  transcribe_audio env url save_dir do_transcribe w = (Ok r, w') →
  success r = true →
  method r = Some "whisper".
Proof.
  unfold transcribe_audio, _download_audio, _load_model, result_text. unfold_m.
  intros Hrun Hsuccess.
  repeat (case_match; simplify_eq/=); done.
Qed.

(** A successful caption attempt: the shape of its result, and its only
    outside call. *)
Lemma get_captions_success
    (env : Env) (url : string) (w w' : World) (r : TranscriptionResult) :
  get_captions env url w = (Ok r, w') →
  success r = true →
  method r = Some "captions" ∧ audio_path r = None
  ∧ ∃ video_id, w' = add_event (EvGetTranscript video_id) w.
Proof.
  unfold get_captions. unfold_m.
  intros Hrun Hsuccess.
  repeat (case_match; simplify_eq/=); eauto.
Qed.

(** C5. When the caption attempt returns a failed result [rc] and the
    audio strategy then returns a successful result [rw], [transcribe]
    returns a successful result with method ["whisper"] whose warnings,
    errors and suggested fixes are those of [rw] followed by those of
    [rc]; in particular every warning, error and fix of the failed caption
    attempt is in the final result. *)
Theorem transcribe_fallback_merges
    (env : Env) (url : string) (config : TranscriptionConfig) (w : World)
    (rc : TranscriptionResult) (w1 : World) (rw : TranscriptionResult) (w2 : World) :
  get_captions env url (tick w) = (Ok rc, w1) →
  success rc = false →
  transcribe_audio env url (download_audio_dir config) (cfg_transcribe config) w1
    = (Ok rw, w2) →
  success rw = true →
  ∃ r w',
    transcribe env url config w = (Ok r, w')
    ∧ success r = true
    ∧ method r = Some "whisper"
    ∧ warnings r = warnings rw ++ warnings rc
    ∧ errors r = errors rw ++ errors rc
    ∧ suggested_fixes r = suggested_fixes rw ++ suggested_fixes rc
    ∧ (∀ x, x ∈ warnings rc → x ∈ warnings r)
    ∧ (∀ x, x ∈ errors rc → x ∈ errors r)
    ∧ (∀ x, x ∈ suggested_fixes rc → x ∈ suggested_fixes r).
Proof.
  intros Hcaptions Hfailed Haudio Hok.
  pose proof (transcribe_audio_success_method _ _ _ _ _ _ _ Haudio Hok) as Hmethod.
  unfold transcribe. unfold_m. simpl.
  rewrite Hcaptions, Hfailed, Haudio. simpl.
  eexists _, _. split; [reflexivity|]. simpl.
  repeat split; auto; intros x Hx; apply elem_of_app; by right.
Qed.

Lemma transcribe_fallback_merges_witness :
  ∃ r w',
    transcribe (sample_env None captions_disabled "hello world") sample_url
      (mkConfig None true) fresh_world = (Ok r, w')
    ∧ method r = Some "whisper"
    ∧ "YouTube captions unavailable" ∈ warnings r
    ∧ "Fallback to audio transcription" ∈ suggested_fixes r.
Proof.
  destruct (transcribe_fallback_merges
              (sample_env None captions_disabled "hello world") sample_url
              (mkConfig None true) fresh_world _ _ _ _
              eq_refl eq_refl eq_refl eq_refl)
    as (r & w' & Hrun & _ & Hmethod & _ & _ & _ & Hwarn & _ & Hfix).
  exists r, w'. repeat split; [exact Hrun | exact Hmethod | |].
  - apply Hwarn. apply list_elem_of_here.
  - apply Hfix. apply list_elem_of_here.
Defined.

(** C6. When the caption attempt returns a successful result,
    [transcribe] returns that result at once, with method ["captions"] and
    no audio path; the one outside call of the whole coordination is the
    caption retrieval, so no audio is acquired and the model cache is left
    alone. *)
Theorem transcribe_captions_fast_path
    (env : Env) (url : string) (config : TranscriptionConfig) (w : World)
    (rc : TranscriptionResult) (w1 : World) :
  get_captions env url (tick w) = (Ok rc, w1) →
  success rc = true →
  ∃ r w' video_id,
    transcribe env url config w = (Ok r, w')
    ∧ success r = true
    ∧ method r = Some "captions"
    ∧ transcript_text r = transcript_text rc
    ∧ audio_path r = None
    ∧ trace w' = trace w ++ [EvGetTranscript video_id]
    ∧ _MODEL w' = _MODEL w.
Proof.
  intros Hcaptions Hok.
  destruct (get_captions_success _ _ _ _ _ Hcaptions Hok) as (Hm & Hp & vid & ->).
  unfold transcribe. unfold_m. simpl.
  rewrite Hcaptions, Hok. simpl.
  eexists _, _, vid. split; [reflexivity|]. simpl. auto 10.
Qed.

Definition sample_captions : res (list PyDict) :=
  Ok [ {["text" := VStr "hello"]}; {["text" := VStr "world"]} ].

Lemma transcribe_captions_fast_path_witness :
  ∃ r w',
    transcribe (sample_env None sample_captions "unused") sample_url
      (mkConfig (Some "/data/audio") true) fresh_world = (Ok r, w')
    ∧ method r = Some "captions"
    ∧ transcript_text r = "hello world"
    ∧ audio_path r = None
    ∧ trace w' = [EvGetTranscript "abc123"].
Proof.
  destruct (transcribe_captions_fast_path
              (sample_env None sample_captions "unused") sample_url
              (mkConfig (Some "/data/audio") true) fresh_world _ _
              eq_refl eq_refl)
    as (r & w' & vid & Hrun & _ & Hmethod & Htext & Hpath & Htrace & _).
  exists r, w'. repeat split; try assumption.
  pose proof Hrun as Hrun'. vm_compute in Hrun'. injection Hrun' as _ <-.
  reflexivity.
Defined.

(** *** Exceptions that escape *)

(** The exception raised when an [except] clause reads a local name that
    no import has bound.  (The wording of the message is that of
    CPython 3.11 and later.) *)
Definition unbound_local : Exn :=
  mkExn UnboundLocalError
    "cannot access local variable 'TranscriptsDisabled' where it is not associated with a value".

(** C10, at the failing input. If either import inside [get_captions]
    fails, evaluating the first [except] clause raises [UnboundLocalError]
    while the import error is being handled; no handler of [get_captions]
    or [transcribe] catches it, so [transcribe] raises instead of
    returning a result. *)
Theorem transcribe_propagates_unbound_local
    (env : Env) (url : string) (config : TranscriptionConfig) (w : World) :
  error_classes_bound env = false →
  transcribe env url config w = (Raise unbound_local, tick w).
Proof.
  intros Hunbound.
  unfold transcribe, get_captions, error_classes_bound in *. unfold_m. simpl.
  destruct (import_youtube_transcript_api env), (import_youtube_transcript_api_errors env);
    simpl; try discriminate; reflexivity.
Qed.

Definition module_not_found : Exn :=
  mkExn ImportError "No module named 'youtube_transcript_api'".

Lemma transcribe_propagates_unbound_local_witness :
  transcribe (sample_env (Some module_not_found) sample_captions "hello") sample_url
    (mkConfig None true) fresh_world
  = (Raise unbound_local, tick fresh_world).
Proof.
  apply (transcribe_propagates_unbound_local
           (sample_env (Some module_not_found) sample_captions "hello") sample_url
           (mkConfig None true) fresh_world).
  reflexivity.
Defined.

(** Apart from that, the coordinator always returns a result. *)

(** The audio strategy converts every exception into a failed result. *)
Lemma transcribe_audio_total
    (env : Env) (url : string) (save_dir : option string) (do_transcribe : bool)
    (w : World) :
  ∃ r w', transcribe_audio env url save_dir do_transcribe w = (Ok r, w').
Proof.
  unfold transcribe_audio, try_except.
  match goal with
  | |- context [match ?m w with _ => _ end] => destruct (m w) as [[r|e] w1]
  end; eauto.
Qed.

(** So does the caption strategy, provided its two imports succeed. *)
Lemma get_captions_total (env : Env) (url : string) (w : World) :
  error_classes_bound env = true →
  ∃ r w', get_captions env url w = (Ok r, w').
Proof.
  intros Hbound. unfold get_captions, try_except. rewrite Hbound.
  match goal with
  | |- context [match ?m w with _ => _ end] => destruct (m w) as [[r|e] w1]
  end; [eauto|].
  cbn. destruct (decide _); eauto.
Qed.

Lemma transcribe_total_when_imports_succeed
    (env : Env) (url : string) (config : TranscriptionConfig) (w : World) :
  error_classes_bound env = true →
  ∃ r w', transcribe env url config w = (Ok r, w').
Proof.
  intros Hbound. unfold transcribe, bind, read_clock, get, modify, ret. cbn.
  destruct (get_captions_total env url (tick w) Hbound) as (rc & w1 & ->).
  destruct (success rc); [eauto|].
  destruct (transcribe_audio_total env url (download_audio_dir config)
              (cfg_transcribe config) w1) as (rw & w2 & ->).
  eauto.
Qed.

End TranscriptionFacts.

(** ** Stage functions *)

Module StageFacts.
Import Schema Collector Stages Runner.

(** *** The regular expression and the prompt templates at work *)

Example search_watch_url :
  validate_input.search "https://www.youtube.com/watch?v=abc123&t=1" = Some "abc123".
Proof. reflexivity. Qed.

Example search_short_url : validate_input.search "see youtu.be/abc123?t=1" = Some "abc123".
Proof. reflexivity. Qed.

Example search_backtracks : validate_input.search "youtube.com/watch?v=" = Some "watch".
Proof. reflexivity. Qed.

Example search_no_id : validate_input.search "http://youtube.com/" = None.
Proof. reflexivity. Qed.

Example format_escapes :
  Format.format "{{x}} is {x}" [("x", "1")] = Ok "{x} is 1".
Proof. reflexivity. Qed.

(** Both templates hold a JSON skeleton in unescaped braces, which
    [str.format] reads as a replacement field; formatting them raises
    [KeyError] whatever the arguments are. *)
Lemma STRUCTURE_PROMPT_format_raises (transcript chapters : string) :
  Format.format analyze_structure.STRUCTURE_PROMPT
    [("transcript", transcript); ("chapters", chapters)]
  = Raise (mkExn KeyError
             (Format.repr_str (Format.nl +:+ "  " +:+ Format.dq +:+ "sections" +:+ Format.dq))).
Proof. vm_compute. reflexivity. Qed.

Lemma SEMANTICS_PROMPT_format_raises (title description transcript_sample : string) :
  Format.format analyze_semantics.SEMANTICS_PROMPT
    [("title", title); ("description", description);
     ("transcript_sample", transcript_sample)]
  = Raise (mkExn KeyError
             (Format.repr_str
                (Format.nl +:+ "  " +:+ Format.dq +:+ "primary_topics" +:+ Format.dq))).
Proof. vm_compute. reflexivity. Qed.

(** *** State invariants and result postconditions *)

(** [m] keeps the invariant [I] of the state, whether it returns or
    raises. *)
Definition inv {A} (I : World → Prop) (m : M World A) : Prop :=
  ∀ w, I w → I (m w).2.

(** Whatever [m] returns satisfies [Q]. *)
Definition returns {A} (m : M World A) (Q : A → Prop) : Prop :=
  ∀ w a w', m w = (Ok a, w') → Q a.

Section Structural.
Context {A B : Type} (I : World → Prop).

Lemma inv_ret (a : A) : inv I (ret a).
Proof. by intros w Hw. Qed.

Lemma inv_raise (e : Exn) : inv I (raise (A:=A) e).
Proof. by intros w Hw. Qed.

Lemma inv_lift (r : res A) : inv I (lift r).
Proof. by intros w Hw. Qed.

Lemma inv_modify (f : World → World) : (∀ w, I w → I (f w)) → inv I (modify f).
Proof. intros Hf w Hw. by apply Hf. Qed.

Lemma inv_bind (m : M World A) (k : A → M World B) :
  inv I m → (∀ a, inv I (k a)) → inv I (bind m k).
Proof.
  intros Hm Hk w Hw. unfold bind. specialize (Hm w Hw).
  destruct (m w) as [[a|e] w1]; simpl in *; [by apply Hk | done].
Qed.

Lemma inv_try_except (m : M World A) (h : Exn → M World A) :
  inv I m → (∀ e, inv I (h e)) → inv I (try_except m h).
Proof.
  intros Hm Hh w Hw. unfold try_except. specialize (Hm w Hw).
  destruct (m w) as [[a|e] w1]; simpl in *; [done | by apply Hh].
Qed.

Lemma returns_ret (a : A) (Q : A → Prop) : Q a → returns (ret a) Q.
Proof. intros Ha w a' w' [= <- _]. done. Qed.

Lemma returns_raise (e : Exn) (Q : A → Prop) : returns (raise e) Q.
Proof. intros w a' w' [=]. Qed.

Lemma returns_bind (m : M World A) (k : A → M World B) (Q : B → Prop) :
  (∀ a, returns (k a) Q) → returns (bind m k) Q.
Proof.
  intros Hk w b w'. unfold bind.
  destruct (m w) as [[a|e] w1]; [apply Hk | done].
Qed.

Lemma returns_try_except (m : M World A) (h : Exn → M World A) (Q : A → Prop) :
  returns m Q → (∀ e, returns (h e) Q) → returns (try_except m h) Q.
Proof.
  intros Hm Hh w a w'. unfold try_except.
  destruct (m w) as [[a1|e] w1] eqn:Hrun; [|apply Hh].
  intros [= <- <-]. by eapply Hm.
Qed.
End Structural.

Lemma inv_get (I : World → Prop) : inv I get.
Proof. by intros w Hw. Qed.

(** *** What every stage leaves alone *)

(** The names carried by the runner's ["Starting stage"] records. *)
Definition start_marker (ev : Event) : option string :=
  match ev with
  | EvLog _ message (Some name) _ =>
      if String.eqb message "Starting stage" then Some name else None
  | _ => None
  end.

Definition started (tr : list Event) : list string := omap start_marker tr.

(** The artifact has its identity section and a [source.url] string. *)
Definition traceable (identity : PyDict) (co : PyDict) : Prop :=
  co !! "identity" = Some (VDict identity)
  ∧ ∃ source u, co !! "source" = Some (VDict source) ∧ source !! "url" = Some (VStr u).

(** The invariant of a stage function: the artifact stays traceable with
    the same identity, the collector is not touched, and no
    ["Starting stage"] record is written. *)
Definition stage_inv (identity : PyDict) (c : DiagnosticsCollector)
    (names : list string) (w : World) : Prop :=
  traceable identity (content_object w)
  ∧ collector w = c
  ∧ started (trace w) = names.

Section Primitive.
Context (identity : PyDict) (c : DiagnosticsCollector) (names : list string).
Let I := stage_inv identity c names.

Lemma started_snoc (tr : list Event) (ev : Event) :
  start_marker ev = None → started (tr ++ [ev]) = started tr.
Proof.
  intros Hev. unfold started. rewrite omap_app. simpl. rewrite Hev.
  apply app_nil_r.
Qed.

Lemma inv_add_event (ev : Event) :
  start_marker ev = None → inv I (modify (add_event ev)).
Proof.
  intros Hev. apply inv_modify. intros w (Ht & Hc & Hs).
  split; [exact Ht | split; [exact Hc|]].
  cbn [add_event trace]. by rewrite started_snoc.
Qed.

Lemma inv_log_event (level : LogLevel) (message : string)
    (stage_name : option string) (event_type : string) :
  String.eqb message "Starting stage" = false →
  inv I (log_event level message stage_name event_type).
Proof.
  intros Hmsg. apply inv_add_event. simpl.
  destruct stage_name; [by rewrite Hmsg | done].
Qed.

Lemma inv_call {A} (ev : Event) (answer : res A) :
  start_marker ev = None → inv I (call ev answer).
Proof.
  intros Hev. apply inv_bind; [by apply inv_add_event | intros _; apply inv_lift].
Qed.

Lemma inv_read_clock (clock : nat → Q) : inv I (read_clock clock).
Proof.
  apply inv_bind; [apply inv_get|intros w0].
  apply inv_bind; [|intros _; apply inv_ret].
  apply inv_modify. intros w (Ht & Hc & Hs). by split.
Qed.

Lemma inv_set_MODEL (b : bool) : inv I (modify (set_MODEL b)).
Proof. apply inv_modify. intros w (Ht & Hc & Hs). by split. Qed.

Lemma inv_get_section (sec : string) : inv I (get_section sec).
Proof. apply inv_bind; [apply inv_get | intros w0; apply inv_lift]. Qed.

Lemma inv_get_field (sec k : string) (dflt : PyVal) : inv I (get_field sec k dflt).
Proof.
  apply inv_bind; [apply inv_get_section | intros v; apply inv_lift].
Qed.

(** A store into a section other than [identity]; in [source], the key
    [url] may only receive a string. *)
Lemma traceable_insert (co : PyDict) (sec : string) (d : PyDict) (k : string) (x : PyVal) :
  sec ≠ "identity" →
  (sec = "source" → k = "url" → ∃ u, x = VStr u) →
  traceable identity co →
  co !! sec = Some (VDict d) →
  traceable identity (<[sec := VDict (<[k := x]> d)]> co).
Proof.
  intros Hsec Hurl (Hid & source & u & Hsrc & Hu) Hd. split.
  - by rewrite lookup_insert_ne.
  - destruct (decide (sec = "source")) as [->|Hne].
    + rewrite lookup_insert_eq. rewrite Hsrc in Hd. injection Hd as <-.
      destruct (decide (k = "url")) as [->|Hk].
      * destruct (Hurl eq_refl eq_refl) as [u' ->].
        eexists _, u'. split; [done|]. by rewrite lookup_insert_eq.
      * eexists _, u. split; [done|]. by rewrite lookup_insert_ne.
    + exists source, u. by rewrite lookup_insert_ne.
Qed.

Lemma traceable_insert_section (co : PyDict) (sec : string) (v : PyVal) :
  sec ≠ "identity" → sec ≠ "source" →
  traceable identity co → traceable identity (<[sec := v]> co).
Proof.
  intros H1 H2 (Hid & source & u & Hsrc & Hu). split.
  - by rewrite lookup_insert_ne.
  - exists source, u. by rewrite lookup_insert_ne.
Qed.

(** A store into a section other than [identity]; in [source], the key
    [url] may only receive a string. *)
Lemma inv_set_field (sec k : string) (x : PyVal) :
  sec ≠ "identity" →
  (sec = "source" → k = "url" → ∃ u, x = VStr u) →
  inv I (set_field sec k x).
Proof.
  intros Hsec Hurl w (Ht & Hc & Hs).
  unfold set_field, get_section, bind, get, lift, modify, getitem, py_setitem.
  destruct (content_object w !! sec) as [v|] eqn:Hv; cbn; [|by split].
  destruct v; cbn; try by split.
  split; [|by split]. by apply traceable_insert.
Qed.

Lemma inv_set_section (sec : string) (v : PyVal) :
  sec ≠ "identity" → sec ≠ "source" → inv I (set_section sec v).
Proof.
  intros H1 H2. apply inv_modify. intros w (Ht & Hc & Hs).
  split; [|by split]. by apply traceable_insert_section.
Qed.
End Primitive.

Ltac inv_side :=
  solve [ reflexivity | discriminate | done
        | intros; discriminate | intros; eexists; reflexivity ].

Ltac inv_step :=
  first
    [ apply inv_ret | apply inv_raise | apply inv_lift | apply inv_get
    | apply inv_read_clock | apply inv_set_MODEL
    | apply inv_get_section | apply inv_get_field
    | apply inv_log_event; inv_side
    | apply inv_call; inv_side
    | apply inv_set_field; inv_side
    | apply inv_set_section; inv_side
    | apply inv_bind; [|intros ?]
    | apply inv_try_except; [|intros ?]
    | match goal with
      | |- inv _ (if ?b then _ else _) => destruct b
      | |- inv _ (match ?x with _ => _ end) => destruct x
      end
    | progress cbv beta zeta ].

Ltac inv_auto := repeat inv_step.

Lemma inv_transcribe identity c names env url config :
  inv (stage_inv identity c names) (Transcription.transcribe env url config).
Proof.
  unfold Transcription.transcribe, Transcription.get_captions,
    Transcription.transcribe_audio, Transcription._download_audio,
    Transcription._load_model.
  inv_auto.
Qed.

Lemma inv_validate_input identity c names env config :
  inv (stage_inv identity c names) (validate_input.process env config).
Proof.
  unfold validate_input.process, timer, timer_end. inv_auto.
Qed.

Lemma inv_fetch_metadata identity c names env config :
  inv (stage_inv identity c names) (fetch_metadata.process env config).
Proof.
  unfold fetch_metadata.process, fetch_metadata.info_get, timer, timer_end. inv_auto.
Qed.

Lemma inv_fetch_transcript identity c names env config :
  inv (stage_inv identity c names) (fetch_transcript.process env config).
Proof.
  unfold fetch_transcript.process, timer, timer_end.
  inv_auto; apply inv_transcribe.
Qed.


Lemma inv_append_diagnostics_warning identity c names msg :
  inv (stage_inv identity c names) (analyze_structure.append_diagnostics_warning msg).
Proof. unfold analyze_structure.append_diagnostics_warning. inv_auto. Qed.

Lemma inv_call_llm identity c names env prompt :
  inv (stage_inv identity c names) (analyze_structure._call_llm env prompt).
Proof. unfold analyze_structure._call_llm. inv_auto. Qed.

Lemma inv_analyze_structure identity c names env config :
  inv (stage_inv identity c names) (analyze_structure.process env config).
Proof.
  unfold analyze_structure.process, timer, timer_end.
  inv_auto; first [apply inv_append_diagnostics_warning | apply inv_call_llm].
Qed.

Lemma inv_analyze_semantics identity c names env config :
  inv (stage_inv identity c names) (analyze_semantics.process env config).
Proof.
  unfold analyze_semantics.process, timer, timer_end.
  inv_auto; first [apply inv_append_diagnostics_warning | apply inv_call_llm].
Qed.

Ltac returns_step :=
  first
    [ apply returns_ret; reflexivity
    | apply returns_raise
    | apply returns_bind; intros ?
    | apply returns_try_except; [|intros ?]
    | match goal with
      | |- returns (if ?b then _ else _) _ => destruct b
      | |- returns (match ?x with _ => _ end) _ => destruct x
      end
    | progress cbv beta zeta ].

Ltac returns_auto := repeat returns_step.

Lemma returns_validate_input env config :
  returns (validate_input.process env config)
    (fun r => stage_name r = "validate_input").
Proof. unfold validate_input.process. returns_auto. Qed.

Lemma returns_fetch_metadata env config :
  returns (fetch_metadata.process env config)
    (fun r => stage_name r = "fetch_metadata").
Proof. unfold fetch_metadata.process. returns_auto. Qed.

Lemma returns_fetch_transcript env config :
  returns (fetch_transcript.process env config)
    (fun r => stage_name r = "fetch_transcript").
Proof. unfold fetch_transcript.process. returns_auto. Qed.

Lemma returns_analyze_structure env config :
  returns (analyze_structure.process env config)
    (fun r => stage_name r = "analyze_structure").
Proof. unfold analyze_structure.process. returns_auto. Qed.

Lemma returns_analyze_semantics env config :
  returns (analyze_semantics.process env config)
    (fun r => stage_name r = "analyze_semantics").
Proof. unfold analyze_semantics.process. returns_auto. Qed.

End StageFacts.

(** ** The orchestrator *)

Module RunnerFacts.
Import Schema Collector Stages Runner StageFacts CollectorFacts.

(** What the loop needs from a stage function. *)
Definition well_behaved (env : Env) (config : RunConfig) (sf : StageFunc) : Prop :=
  (∀ identity c names, inv (stage_inv identity c names) (stage_call sf env config))
  ∧ returns (stage_call sf env config) (fun r => stage_name r = stage_name_of sf).

Lemma STAGES_well_behaved (env : Env) (config : RunConfig) (sf : StageFunc) :
  sf ∈ STAGES → well_behaved env config sf.
Proof.
  unfold STAGES. rewrite !elem_of_cons, elem_of_nil.
  intros [->|[->|[->|[->|[->|[]]]]]]; split; intros; simpl.
  - apply inv_validate_input.
  - apply returns_validate_input.
  - apply inv_fetch_metadata.
  - apply returns_fetch_metadata.
  - apply inv_fetch_transcript.
  - apply returns_fetch_transcript.
  - apply inv_analyze_structure.
  - apply returns_analyze_structure.
  - apply inv_analyze_semantics.
  - apply returns_analyze_semantics.
Qed.

Lemma STAGES_names :
  stage_name_of <$> STAGES
  = ["validate_input"; "fetch_metadata"; "fetch_transcript";
     "analyze_structure"; "analyze_semantics"].
Proof. reflexivity. Qed.

Lemma STAGES_names_NoDup : NoDup (stage_name_of <$> STAGES).
Proof. rewrite STAGES_names. apply NoDup_ListNoDup. repeat constructor; simpl; intuition discriminate. Qed.

(** The state of the loop once the stages named [done] have run:
    [names0] are the stages started before this run. *)
Definition loop_inv (identity : PyDict) (names0 done : list string) (w : World) : Prop :=
  traceable identity (content_object w)
  ∧ (∀ k, is_Some (_stage_status (collector w) !! k) → k ∈ done)
  ∧ started (trace w) = names0 ++ done.

Definition start_record (name : string) : Event :=
  EvLog INFO "Starting stage" (Some name) "start".

Lemma collector_add_fresh (r : StageResult) (w : World) :
  _stage_status (collector w) !! stage_name r = None →
  ∃ c', collector_add r w = (Ok tt, set_collector c' w)
        ∧ _stage_status c' = <[stage_name r := r]> (_stage_status (collector w)).
Proof.
  intros Hfresh. unfold collector_add, zoom.
  rewrite add_stage_result_fresh by done. eauto.
Qed.

Lemma run_stage_spec (env : Env) (config : RunConfig) (sf : StageFunc)
    (identity : PyDict) (names0 done : list string) (w : World) :
  well_behaved env config sf →
  stage_name_of sf ∉ done →
  loop_inv identity names0 done w →
  ∃ w',
    run_stage env config sf w = (Ok tt, w')
    ∧ loop_inv identity names0 (done ++ [stage_name_of sf]) w'
    ∧ (∀ k x, _stage_status (collector w) !! k = Some x →
              _stage_status (collector w') !! k = Some x)
    ∧ (∀ exc w2,
         stage_call sf env config (add_event (start_record (stage_name_of sf)) w)
           = (Raise exc, w2) →
         _stage_status (collector w') !! stage_name_of sf
           = Some (unhandled_result (stage_name_of sf) exc)).
Proof.
  intros [Hinv Hret] Hnew (Ht & Hdone & Hstarted).
  set (name := stage_name_of sf) in *.
  set (wa := add_event (start_record name) w).
  assert (Hfresh : _stage_status (collector w) !! name = None).
  { destruct (_stage_status (collector w) !! name) eqn:Hk; [|done].
    exfalso. apply Hnew, Hdone. eauto. }
  assert (Hwa : stage_inv identity (collector w) (names0 ++ done ++ [name]) wa).
  { split; [done|split; [done|]]. subst wa. cbn [add_event trace].
    unfold started. rewrite omap_app, app_assoc. f_equal. exact Hstarted. }
  pose proof (Hinv _ _ _ wa Hwa) as Hafter.
  unfold run_stage, bind, try_except, log_event, modify. fold name. fold (start_record name). fold wa.
  destruct (stage_call sf env config wa) as [[r|exc] wb] eqn:Hcall;
    cbn [snd] in Hafter; destruct Hafter as (Htb & Hcb & Hsb).
  - assert (Hname : stage_name r = name) by (eapply Hret; eauto).
    destruct (collector_add_fresh r wb) as (c' & -> & Hc').
    { by rewrite Hcb, Hname. }
    eexists. split; [reflexivity|].
    unfold loop_inv, add_event, set_collector; cbn [collector content_object trace].
    split; [|split].
    + split; [done|split].
      * intros k. rewrite Hc', Hcb, Hname.
        destruct (decide (name = k)) as [<-|Hne].
        -- intros _. apply elem_of_app. right. apply list_elem_of_here.
        -- rewrite lookup_insert_ne by done. intros Hk. apply elem_of_app. left. auto.
      * rewrite started_snoc; [by rewrite Hsb, app_assoc|]. reflexivity.
    + intros k x Hk. rewrite Hc', Hcb, Hname.
      rewrite lookup_insert_ne; [done|congruence].
    + intros exc w2 [=].
  - destruct (collector_add_fresh (unhandled_result name exc) wb) as (c' & -> & Hc').
    { by rewrite Hcb. }
    eexists. split; [reflexivity|].
    unfold loop_inv, add_event, set_collector; cbn [collector content_object trace].
    split; [|split].
    + split; [done|split].
      * intros k. rewrite Hc', Hcb. cbn.
        destruct (decide (name = k)) as [<-|Hne].
        -- intros _. apply elem_of_app. right. apply list_elem_of_here.
        -- rewrite lookup_insert_ne by done. intros Hk. apply elem_of_app. left. auto.
      * rewrite started_snoc; [by rewrite Hsb, app_assoc|]. reflexivity.
    + intros k x Hk. rewrite Hc', Hcb. cbn.
      rewrite lookup_insert_ne; [done|congruence].
    + intros exc' w2 [= <- _]. rewrite Hc'. cbn. by rewrite lookup_insert_eq.
Qed.


Lemma bind_ok {S A B} (m : M S A) (k : A → M S B) (s s' : S) (a : A) :
  m s = (Ok a, s') → bind m k s = k a s'.
Proof. intros Hm. unfold bind. by rewrite Hm. Qed.

Lemma run_stages_cons (env : Env) (config : RunConfig) (sf : StageFunc)
    (stages : list StageFunc) :
  run_stages env config (sf :: stages)
  = (run_stage env config sf ;;; run_stages env config stages).
Proof. reflexivity. Qed.

Lemma run_stages_app (env : Env) (config : RunConfig) (pre post : list StageFunc) (w : World) :
  run_stages env config (pre ++ post) w
  = (run_stages env config pre ;;; run_stages env config post) w.
Proof.
  revert w. induction pre as [|sf pre IH]; intros w; [reflexivity|].
  change (run_stages env config ((sf :: pre) ++ post) w)
    with ((run_stage env config sf ;;; run_stages env config (pre ++ post)) w).
  rewrite run_stages_cons. unfold bind in *.
  destruct (run_stage env config sf w) as [[[]|e] w1]; [|reflexivity].
  apply IH.
Qed.

(** The loop over stage functions with distinct names, none of which has
    run yet: it never raises, it starts every stage in order, it keeps the
    artifact traceable and it keeps every result already recorded. *)
Lemma run_stages_spec (env : Env) (config : RunConfig) (stages : list StageFunc) :
  (∀ sf, sf ∈ stages → well_behaved env config sf) →
  NoDup (stage_name_of <$> stages) →
  ∀ (identity : PyDict) (names0 done : list string) (w : World),
    (∀ sf, sf ∈ stages → stage_name_of sf ∉ done) →
    loop_inv identity names0 done w →
    ∃ w',
      run_stages env config stages w = (Ok tt, w')
      ∧ loop_inv identity names0 (done ++ (stage_name_of <$> stages)) w'
      ∧ (∀ k x, _stage_status (collector w) !! k = Some x →
                _stage_status (collector w') !! k = Some x).
Proof.
  induction stages as [|sf stages IH]; intros Hwb Hnodup identity names0 done w Hnew Hinv.
  - exists w. rewrite fmap_nil, app_nil_r. split; [reflexivity|]. split; [exact Hinv|auto].
  - rewrite fmap_cons in Hnodup. apply NoDup_cons in Hnodup as [Hsf Hnodup].
    destruct (run_stage_spec env config sf identity names0 done w)
      as (w1 & Hrun1 & Hinv1 & Hkeep1 & _);
      [apply Hwb, list_elem_of_here | apply Hnew, list_elem_of_here | done |].
    destruct (IH (fun sf' H => Hwb sf' (list_elem_of_further _ _ _ H)) Hnodup
                identity names0 (done ++ [stage_name_of sf]) w1)
      as (w2 & Hrun2 & Hinv2 & Hkeep2); [|done|].
    { intros sf' Hsf'. rewrite elem_of_app, list_elem_of_singleton.
      intros [Hd|Heq].
      - by apply (Hnew sf' (list_elem_of_further _ _ _ Hsf')).
      - apply Hsf. rewrite <- Heq. by apply list_elem_of_fmap_2. }
    exists w2. rewrite run_stages_cons. unfold bind. rewrite Hrun1.
    split; [done|]. split; [|by auto].
    rewrite fmap_cons. by rewrite <- app_assoc in Hinv2.
Qed.

Lemma initialize_spec (env : Env) (url : string) (w : World) :
  ∃ w0,
    initialize env url w = (Ok tt, w0)
    ∧ loop_inv (Identity_dump env) (started (trace w)) [] w0.
Proof.
  eexists. split; [reflexivity|].
  unfold loop_inv; cbn [collector content_object trace set_collector set_content_object add_event].
  split; [|split].
  - split; [reflexivity|]. exists (Source_dump url), url. split; reflexivity.
  - intros k [x Hx]. cbn in Hx. by rewrite lookup_empty in Hx.
  - cbn. rewrite app_nil_r. apply started_snoc. reflexivity.
Qed.

(** The diagnostics section that [build_diagnostics] assembles. *)
Definition assembled_diagnostics (c : DiagnosticsCollector) : PyDict :=
  dump_Diagnostics
    (mkDiagnostics (_stage_status c) (_global_warnings c) (_global_errors c)
       (list_of_set (_global_suggested_fixes c))).

(** After the loop: the diagnostics section is assembled from the
    collector, and the artifact handed back is either the dump of the
    validated model or, when validation raised, the raw dictionary. *)
Lemma finalize_spec (env : Env) (w : World) :
  ∃ artifact w',
    finalize env w = (Ok artifact, w')
    ∧ collector w' = collector w
    ∧ started (trace w') = started (trace w)
    ∧ content_object w'
      = <["diagnostics" := VDict (assembled_diagnostics (collector w))]> (content_object w)
    ∧ ((∃ validated,
          ContentObject_model_validate env (content_object w') = Ok validated
          ∧ artifact = Models.dump_ContentObject validated)
       ∨ (∃ exc, ContentObject_model_validate env (content_object w') = Raise exc)
         ∧ artifact = content_object w').
Proof.
  unfold finalize, bind, zoom, try_except, set_section, log_event, modify, get, lift, ret.
  rewrite build_diagnostics_run.
  fold (assembled_diagnostics (collector w)).
  cbn [collector content_object trace set_collector set_content_object add_event].
  destruct (ContentObject_model_validate env
              (<["diagnostics" := VDict (assembled_diagnostics (collector w))]>
                 (content_object w))) as [validated|exc] eqn:Hvalid;
    eexists _, _; (split; [reflexivity|]);
    cbn [collector content_object trace set_collector set_content_object add_event];
    (split; [reflexivity|]); (split; [by apply started_snoc|]);
    (split; [reflexivity|]); eauto.
Qed.

Lemma assembled_stage_status (c : DiagnosticsCollector) (k : string) (r : StageResult) :
  _stage_status c !! k = Some r →
  ∃ statuses,
    assembled_diagnostics c !! "stage_status" = Some (VDict statuses)
    ∧ statuses !! k = Some (dump_StageResult r).
Proof.
  intros Hk. eexists. split; [reflexivity|].
  cbn. by rewrite lookup_fmap, Hk.
Qed.

(** C1. Take any run of [run_ingestion] and any stage [sf] of [STAGES]
    (with [pre] the stages before it and [post] those after it) whose
    stage function raises the exception [exc] when the loop reaches it.
    Then the run still returns an artifact; the collector holds, under the
    name of [sf], the synthetic result built from [exc], which has
    [success = false] and exactly one failure, of cause
    ["unexpected_exception"] and with the two fixed suggested fixes; every
    stage of [STAGES], those after [sf] included, has been started, in
    the fixed order; and the diagnostics section assembled into the
    artifact dictionary lists the synthetic result under [stage_status].
    The artifact returned is the dump of that dictionary's validated
    model or, if validation raised, the dictionary itself. *)
Theorem unhandled_stage_exception_is_contained
    (env : Env) (url : string) (config : option RunConfig) (w : World)
    (pre : list StageFunc) (sf : StageFunc) (post : list StageFunc)
    (w1 : World) (exc : Exn) (w2 : World) :
  let cfg := config_or_empty config in
  let name := stage_name_of sf in
  STAGES = pre ++ sf :: post →
  (initialize env url ;;; run_stages env cfg pre) w = (Ok tt, w1) →
  stage_call sf env cfg (add_event (start_record name) w1) = (Raise exc, w2) →
  ∃ artifact w',
    run_ingestion env url config w = (Ok artifact, w')
    ∧ _stage_status (collector w') !! name = Some (unhandled_result name exc)
    ∧ success (unhandled_result name exc) = false
    ∧ (∃ failure, failures (unhandled_result name exc) = [failure]
                  ∧ cause failure = "unexpected_exception"
                  ∧ failure_suggested_fixes failure
                    = ["Review logs"; "Report bug with traceback"])
    ∧ started (trace w') = started (trace w) ++ (stage_name_of <$> STAGES)
    ∧ (∃ diagnostics statuses,
         content_object w' !! "diagnostics" = Some (VDict diagnostics)
         ∧ diagnostics !! "stage_status" = Some (VDict statuses)
         ∧ statuses !! name = Some (dump_StageResult (unhandled_result name exc)))
    ∧ ((∃ validated,
          ContentObject_model_validate env (content_object w') = Ok validated
          ∧ artifact = Models.dump_ContentObject validated)
       ∨ artifact = content_object w').
Proof.
  intros cfg name Hsplit Hpre Hraise.
  pose proof STAGES_names_NoDup as Hnodup. rewrite Hsplit in Hnodup.
  rewrite fmap_app, fmap_cons in Hnodup.
  apply NoDup_app in Hnodup as (Hpre_nd & Hpre_post & Hpost_nd).
  apply NoDup_cons in Hpost_nd as [Hsf_post Hpost_nd].
  assert (Hwb : ∀ sf', sf' ∈ pre ++ sf :: post → well_behaved env cfg sf').
  { intros sf' Hin. apply STAGES_well_behaved. by rewrite Hsplit. }
  (* the stages before *)
  destruct (initialize_spec env url w) as (w0 & Hinit & Hinv0).
  destruct (run_stages_spec env cfg pre
              (fun sf' H => Hwb sf' (proj2 (elem_of_app _ _ _) (or_introl H)))
              Hpre_nd (Identity_dump env) (started (trace w)) [] w0) as (w1' & Hrun_pre & Hinv1 & _);
    [intros ? _; apply not_elem_of_nil | exact Hinv0 |].
  assert (w1' = w1) as ->.
  { rewrite (bind_ok _ _ _ _ _ Hinit), Hrun_pre in Hpre. congruence. }
  (* the stage that raises *)
  destruct (run_stage_spec env cfg sf (Identity_dump env) (started (trace w))
              ([] ++ (stage_name_of <$> pre)) w1) as (w3 & Hrun_sf & Hinv3 & _ & Hrec);
    [apply Hwb; rewrite elem_of_app, elem_of_cons; auto
    | rewrite app_nil_l; intros Hin; eapply Hpre_post; [exact Hin|apply list_elem_of_here]
    | exact Hinv1 |].
  specialize (Hrec _ _ Hraise).
  (* the stages after *)
  destruct (run_stages_spec env cfg post
              (fun sf' H => Hwb sf' (proj2 (elem_of_app _ _ _)
                                       (or_intror (list_elem_of_further _ _ _ H))))
              Hpost_nd (Identity_dump env) (started (trace w))
              (([] ++ (stage_name_of <$> pre)) ++ [stage_name_of sf]) w3) as (w4 & Hrun_post & Hinv4 & Hkeep);
    [|exact Hinv3|].
  { intros sf' Hin. rewrite app_nil_l, elem_of_app, list_elem_of_singleton.
    intros [Hp|Heq].
    - eapply Hpre_post; [exact Hp|]. apply list_elem_of_further.
      by apply list_elem_of_fmap_2.
    - apply Hsf_post. rewrite <- Heq. by apply list_elem_of_fmap_2. }
  destruct (finalize_spec env w4) as (artifact & w5 & Hfin & Hc5 & Hs5 & Hco5 & Hart).
  exists artifact, w5.
  split.
  { assert (Hloop : run_stages env cfg STAGES w0 = (Ok tt, w4)).
    { rewrite Hsplit, run_stages_app.
      rewrite (bind_ok _ _ _ _ _ Hrun_pre), run_stages_cons.
      by rewrite (bind_ok _ _ _ _ _ Hrun_sf). }
    unfold run_ingestion.
    rewrite (bind_ok _ _ _ _ _ Hinit). fold cfg.
    by rewrite (bind_ok _ _ _ _ _ Hloop). }
  apply Hkeep in Hrec.
  split; [by rewrite Hc5|].
  split; [reflexivity|].
  split; [eexists; repeat split; reflexivity|].
  split.
  { rewrite Hs5. destruct Hinv4 as (_ & _ & ->).
    rewrite Hsplit, fmap_app, fmap_cons, app_nil_l, <- !app_assoc. reflexivity. }
  split.
  { destruct (assembled_stage_status _ _ _ Hrec) as (statuses & Hst & Hk).
    exists (assembled_diagnostics (collector w4)), statuses.
    rewrite Hco5, lookup_insert_eq. auto. }
  destruct Hart as [Hok|[_ ->]]; auto.
Qed.


(** The artifact has an identity section with its four fields and a
    source section with a [url] string. *)
Definition identity_and_url_present (artifact : PyDict) : Prop :=
  (∃ identity,
     artifact !! "identity" = Some (VDict identity)
     ∧ is_Some (identity !! "content_id")
     ∧ is_Some (identity !! "workflow_run_id")
     ∧ is_Some (identity !! "created_at")
     ∧ is_Some (identity !! "workflow_version"))
  ∧ ∃ source u,
      artifact !! "source" = Some (VDict source) ∧ source !! "url" = Some (VStr u).

Lemma traceable_present (env : Env) (co : PyDict) :
  traceable (Identity_dump env) co → identity_and_url_present co.
Proof.
  intros (Hid & Hsrc). split; [|exact Hsrc].
  exists (Identity_dump env). split; [exact Hid|].
  repeat split; eexists; reflexivity.
Qed.

(** [url] is a required [str] field of [Source]: [exclude_none] never
    drops it. *)
Lemma dump_Source_url (s : Models.Source) :
  Models.dump_Source s !! "url" = Some (VStr (Models.url s)).
Proof.
  unfold Models.dump_Source. rewrite lookup_insert_ne by done.
  apply lookup_insert_eq.
Qed.

Lemma dump_ContentObject_present (validated : Models.ContentObject) :
  identity_and_url_present (Models.dump_ContentObject validated).
Proof.
  split.
  - eexists. split; [reflexivity|]. repeat split; eexists; reflexivity.
  - eexists _, _. split; [reflexivity|apply dump_Source_url].
Qed.

(** C2. Every run of [run_ingestion] returns an artifact, whatever the
    stages and the final validation do, and that artifact has its
    identity section (with all four identity fields) and a [source.url]
    string.  The dictionary is created with both; every stage function of
    [STAGES], whether it returns or raises, leaves the identity section
    untouched and [source.url] a string; and so does the assembly of the
    diagnostics, so that the dictionary handed to validation still has
    the identity it was created with. *)
Theorem run_ingestion_keeps_identity_and_url
    (env : Env) (url : string) (config : option RunConfig) (w : World) :
  let cfg := config_or_empty config in
  (∃ artifact w',
     run_ingestion env url config w = (Ok artifact, w')
     ∧ identity_and_url_present artifact
     ∧ traceable (Identity_dump env) (content_object w'))
  ∧ traceable (Identity_dump env) (initial_content_object env url)
  ∧ (∀ sf w0, sf ∈ STAGES →
       traceable (Identity_dump env) (content_object w0) →
       traceable (Identity_dump env) (content_object (stage_call sf env cfg w0).2)).
Proof.
  intros cfg. split; [|split].
  - destruct (initialize_spec env url w) as (w0 & Hinit & Hinv0).
    destruct (run_stages_spec env cfg STAGES (STAGES_well_behaved env cfg)
                STAGES_names_NoDup (Identity_dump env) (started (trace w)) [] w0)
      as (w1 & Hloop & (Ht1 & _) & _);
      [intros ? _; apply not_elem_of_nil | exact Hinv0 |].
    destruct (finalize_spec env w1) as (artifact & w2 & Hfin & _ & _ & Hco & Hart).
    assert (Ht2 : traceable (Identity_dump env) (content_object w2)).
    { rewrite Hco. by apply traceable_insert_section. }
    exists artifact, w2. split; [|split; [|exact Ht2]].
    + unfold run_ingestion.
      rewrite (bind_ok _ _ _ _ _ Hinit). fold cfg.
      by rewrite (bind_ok _ _ _ _ _ Hloop).
    + destruct Hart as [(validated & _ & ->)|[_ ->]].
      * apply dump_ContentObject_present.
      * by apply (traceable_present env).
  - split; [reflexivity|]. exists (Source_dump url), url. split; reflexivity.
  - intros sf w0 Hsf Ht.
    destruct (STAGES_well_behaved env cfg sf Hsf) as [Hinv _].
    by apply (Hinv (Identity_dump env) (collector w0) (started (trace w0)) w0).
Qed.


(** A run in which the captions are found but the structural analysis
    raises while it formats its prompt. *)
Definition captions_env : Env :=
  TranscriptionFacts.sample_env None TranscriptionFacts.sample_captions "unused".

Definition sample_key_error : Exn :=
  mkExn KeyError
    (Format.repr_str (Format.nl +:+ "  " +:+ Format.dq +:+ "sections" +:+ Format.dq)).

Lemma unhandled_stage_exception_is_contained_witness :
  ∃ artifact w',
    run_ingestion captions_env TranscriptionFacts.sample_url None
      TranscriptionFacts.fresh_world = (Ok artifact, w')
    ∧ _stage_status (collector w') !! "analyze_structure"
      = Some (unhandled_result "analyze_structure" sample_key_error)
    ∧ started (trace w')
      = ["validate_input"; "fetch_metadata"; "fetch_transcript";
         "analyze_structure"; "analyze_semantics"].
Proof.
  pose (pre := take 3 STAGES).
  pose (sf := mkStageFunc "second_brain.content_ingestor.stages.analyze_structure"
                analyze_structure.process).
  pose (post := drop 4 STAGES).
  pose (w1 := ((initialize captions_env TranscriptionFacts.sample_url ;;;
                run_stages captions_env (config_or_empty None) pre)
                 TranscriptionFacts.fresh_world).2).
  pose (w2 := (stage_call sf captions_env (config_or_empty None)
                 (add_event (start_record "analyze_structure") w1)).2).
  destruct (unhandled_stage_exception_is_contained captions_env
              TranscriptionFacts.sample_url None TranscriptionFacts.fresh_world
              pre sf post w1 sample_key_error w2)
    as (artifact & w' & Hrun & Hrecorded & _ & _ & Hstarted & _).
  - reflexivity.
  - vm_compute. reflexivity.
  - vm_compute. reflexivity.
  - exists artifact, w'. split; [exact Hrun|]. split; [exact Hrecorded|exact Hstarted].
Defined.

End RunnerFacts.

(** * Further properties *)

(** ** Sequences of submissions to the collector *)

Module CollectorSubmissions.
Import Schema Collector CollectorFacts.

(** The first result of [rs] submitted under the name [k]. *)
Definition first_named (k : string) (rs : list StageResult) : option StageResult :=
  List.find (fun r => bool_decide (stage_name r = k)) rs.

Lemma submit_all_cons (r : StageResult) (rs : list StageResult) (c : DiagnosticsCollector) :
  submit_all (r :: rs) c = submit_all rs (add_stage_result r c).2.
Proof. reflexivity. Qed.

Lemma submit_all_lookup (rs : list StageResult) (c0 : DiagnosticsCollector) (k : string) :
  _stage_status (submit_all rs c0) !! k
  = match _stage_status c0 !! k with
    | Some r => Some r
    | None => first_named k rs
    end.
Proof.
  revert c0. induction rs as [|r rs IH]; intros c0.
  - simpl. by destruct (_ !! k).
  - rewrite submit_all_cons, IH. unfold first_named. simpl.
    destruct (_stage_status c0 !! stage_name r) as [x|] eqn:Hx.
    + rewrite add_stage_result_duplicate by eauto. simpl.
      destruct (_stage_status c0 !! k) as [y|] eqn:Hy; [done|].
      case_bool_decide as Hk; [congruence|done].
    + rewrite add_stage_result_fresh by done. simpl.
      case_bool_decide as Hk.
      * subst k. rewrite lookup_insert_eq. by rewrite Hx.
      * rewrite lookup_insert_ne by done. done.
Qed.

Lemma first_named_NoDup (rs : list StageResult) (r : StageResult) :
  NoDup (stage_name <$> rs) → r ∈ rs → first_named (stage_name r) rs = Some r.
Proof.
  induction rs as [|r0 rs IH]; intros Hnd Hin.
  - by apply elem_of_nil in Hin.
  - rewrite fmap_cons in Hnd. apply NoDup_cons in Hnd as [Hr0 Hnd].
    unfold first_named. simpl. case_bool_decide as Hk.
    + apply elem_of_cons in Hin as [->|Hin]; [done|].
      exfalso. apply Hr0. rewrite Hk. by apply list_elem_of_fmap_2.
    + apply elem_of_cons in Hin as [->|Hin]; [done|]. by apply IH.
Qed.

Lemma first_named_elem (rs : list StageResult) (k : string) (r : StageResult) :
  first_named k rs = Some r → r ∈ rs ∧ stage_name r = k.
Proof.
  unfold first_named. intros H. apply find_some in H as [Hin Hk].
  apply bool_decide_eq_true in Hk. split; [by apply list_elem_of_In|done].
Qed.

(** Accumulation when every submitted name is new. *)
Lemma submit_all_accumulates (rs : list StageResult) (c0 : DiagnosticsCollector) :
  NoDup (stage_name <$> rs) →
  (∀ r, r ∈ rs → _stage_status c0 !! stage_name r = None) →
  _global_warnings (submit_all rs c0) = _global_warnings c0 ++ concat (warnings <$> rs)
  ∧ _global_errors (submit_all rs c0) = _global_errors c0 ++ concat (errors <$> rs)
  ∧ _global_suggested_fixes (submit_all rs c0)
    = _global_suggested_fixes c0
      ++ concat ((fun r => suggested_fixes r ++ failure_fixes r) <$> rs).
Proof.
  revert c0. induction rs as [|r rs IH]; intros c0 Hnd Hnew.
  - simpl. by rewrite !app_nil_r.
  - rewrite fmap_cons in Hnd. apply NoDup_cons in Hnd as [Hr Hnd].
    rewrite submit_all_cons.
    rewrite add_stage_result_fresh by (apply Hnew, list_elem_of_here).
    cbn [snd].
    destruct (IH (mkCollector (run_id c0) (<[stage_name r:=r]> (_stage_status c0))
                    (_global_warnings c0 ++ warnings r)
                    (_global_errors c0 ++ errors r)
                    ((_global_suggested_fixes c0 ++ suggested_fixes r) ++ failure_fixes r))
                Hnd) as (Hw & He & Hf).
    { intros r' Hr'. cbn. rewrite lookup_insert_ne.
      - apply Hnew. by apply list_elem_of_further.
      - intros Heq. apply Hr. rewrite Heq. by apply list_elem_of_fmap_2. }
    rewrite Hw, He, Hf. rewrite !fmap_cons. cbn. by rewrite <- !app_assoc.
Qed.

Lemma has_fatal_failure_spec (c : DiagnosticsCollector) :
  ∃ b, has_fatal_failure c = (Ok b, c)
       ∧ (b = true ↔ ∃ k r, _stage_status c !! k = Some r ∧ success r = false).
Proof.
  eexists. split; [reflexivity|].
  rewrite existsb_exists. split.
  - intros ([k r] & Hin & Hr). exists k, r. split.
    + apply elem_of_map_to_list. by apply list_elem_of_In.
    + cbn in Hr. by destruct (success r).
  - intros (k & r & Hk & Hr). exists (k, r). split.
    + apply list_elem_of_In. by apply elem_of_map_to_list.
    + cbn. by rewrite Hr.
Qed.

Definition sample_success : StageResult :=
  mkStageResult "validate_input" true ["slow network"] [] [] ["Try again later"] None.

(** X1. Submit results with pairwise distinct stage names to a new
    collector.  Then [has_fatal_failure] returns, leaves the collector
    alone, and answers [True] exactly when one of the submitted results
    has [success = False]. *)
Theorem has_fatal_failure_after_submissions (run : string) (rs : list StageResult) :
  NoDup (stage_name <$> rs) →
  let c := submit_all rs (init run) in
  ∃ b, has_fatal_failure c = (Ok b, c)
       ∧ (b = true ↔ ∃ r, r ∈ rs ∧ success r = false).
Proof.
  intros Hnd c. destruct (has_fatal_failure_spec c) as (b & Hrun & Hb).
  exists b. split; [done|]. rewrite Hb. split.
  - intros (k & r & Hk & Hr). exists r. split; [|done].
    subst c. rewrite submit_all_lookup in Hk. cbn in Hk. rewrite lookup_empty in Hk.
    by apply first_named_elem in Hk as [? _].
  - intros (r & Hin & Hr). exists (stage_name r), r. split; [|done].
    subst c. rewrite submit_all_lookup. cbn. rewrite lookup_empty.
    by apply first_named_NoDup.
Qed.

Lemma has_fatal_failure_after_submissions_witness :
  let c := submit_all [sample_success; sample_result] (init "run-1") in
  ∃ b, has_fatal_failure c = (Ok b, c)
       ∧ (b = true ↔ ∃ r, r ∈ [sample_success; sample_result] ∧ success r = false).
Proof.
  apply (has_fatal_failure_after_submissions "run-1" [sample_success; sample_result]).
  apply NoDup_ListNoDup. repeat constructor; simpl; intuition discriminate.
Defined.

(** X2. Submit any sequence of results to a collector in any state, each
    call either accepted or rejected as a duplicate.  Afterwards the
    result recorded under a stage name is the one the collector already
    had, or else the first one submitted under that name: a later
    submission never replaces an earlier one.  [build_diagnostics] lists
    the dump of exactly that result under [stage_status]. *)
Theorem first_submission_wins
    (c0 : DiagnosticsCollector) (rs : list StageResult) (k : string) :
  let c := submit_all rs c0 in
  _stage_status c !! k
  = match _stage_status c0 !! k with
    | Some r => Some r
    | None => first_named k rs
    end
  ∧ ∃ d statuses,
      build_diagnostics c = (Ok d, c)
      ∧ d !! "stage_status" = Some (VDict statuses)
      ∧ statuses !! k = dump_StageResult <$> _stage_status c !! k.
Proof.
  intros c. split; [apply submit_all_lookup|].
  eexists _, _. split; [apply build_diagnostics_run|]. split; [reflexivity|].
  cbn. by rewrite lookup_fmap.
Qed.

(** X3. Submit results with pairwise distinct stage names to a new
    collector.  The diagnostics built afterwards list the warnings of all
    results, and likewise their errors, in the order of submission and
    with repetitions kept; the fixes the collector has accumulated are,
    result after result, the stage-level fixes followed by the fixes of
    its failures. *)
Theorem diagnostics_keep_submission_order (run : string) (rs : list StageResult) :
  NoDup (stage_name <$> rs) →
  let c := submit_all rs (init run) in
  ∃ d,
    build_diagnostics c = (Ok d, c)
    ∧ d !! "warnings" = Some (str_list (concat (warnings <$> rs)))
    ∧ d !! "errors" = Some (str_list (concat (errors <$> rs)))
    ∧ _global_suggested_fixes c
      = concat ((fun r => suggested_fixes r ++ failure_fixes r) <$> rs).
Proof.
  intros Hnd c.
  destruct (submit_all_accumulates rs (init run) Hnd) as (Hw & He & Hf).
  { intros r _. cbn. apply lookup_empty. }
  eexists. split; [apply build_diagnostics_run|].
  fold c in Hw, He, Hf. rewrite Hw, He, Hf. cbn. done.
Qed.

Lemma diagnostics_keep_submission_order_witness :
  let c := submit_all [sample_success; sample_result] (init "run-1") in
  ∃ d,
    build_diagnostics c = (Ok d, c)
    ∧ d !! "warnings" = Some (str_list ["slow network"; "Metadata fetch failed"])
    ∧ d !! "errors" = Some (str_list [])
    ∧ _global_suggested_fixes c
      = ["Try again later"; "Try again later"; "Try again later"].
Proof.
  apply (diagnostics_keep_submission_order "run-1" [sample_success; sample_result]).
  apply NoDup_ListNoDup. repeat constructor; simpl; intuition discriminate.
Defined.

End CollectorSubmissions.

(** ** Outcomes of the transcription strategies *)

Module TranscriptionOutcomes.
Import Transcription TranscriptionFacts.

#[local] Arguments Str.path_join : simpl never.
#[local] Arguments Str.replace : simpl never.
#[local] Arguments Str.strip : simpl never.

(** *** Splitting a URL *)

Lemma split_go_nonempty (sep s : string) (skip : nat) (cur : string) :
  ∃ x l, Str.split_go sep s skip cur = x :: l.
Proof.
  revert skip cur. induction s as [|c s IH]; intros skip cur;
    cbn [Str.split_go]; [eauto|].
  destruct skip; [|apply IH].
  destruct (String.prefix sep (String c s)); [eauto|apply IH].
Qed.

Lemma split_go_two (sep s : string) (cur : string) :
  sep ≠ "" →
  Str.contains sep s = true →
  ∃ x y l, Str.split_go sep s 0 cur = x :: y :: l.
Proof.
  intros Hsep. revert cur. induction s as [|c s IH]; intros cur Hin.
  - destruct sep; [done|discriminate].
  - cbn [Str.contains] in Hin. cbn [Str.split_go].
    destruct (String.prefix sep (String c s)) eqn:Hp.
    + destruct (split_go_nonempty sep s (String.length sep - 1) "") as (y & l & ->).
      eauto.
    + apply IH. exact Hin.
Qed.

(** Strings without the character [&]. *)
Fixpoint no_amp (s : string) : bool :=
  match s with
  | EmptyString => true
  | String c s' => negb (Ascii.eqb c "&") && no_amp s'
  end.

Lemma no_amp_snoc (s : string) (c : ascii) :
  no_amp s = true → Ascii.eqb c "&" = false → no_amp (s +:+ String c "") = true.
Proof.
  intros Hs Hc. induction s as [|a s IH]; simpl in *.
  - by rewrite Hc.
  - apply andb_prop in Hs as [Ha Hs]. rewrite Ha. simpl. auto.
Qed.

Lemma prefix_amp (c : ascii) (s : string) :
  String.prefix "&" (String c s) = Ascii.eqb c "&".
Proof.
  cbn [String.prefix]. destruct (ascii_dec "&" c) as [Heq|Hne].
  - subst c. by destruct s.
  - symmetry. apply Ascii.eqb_neq. congruence.
Qed.

Lemma split_amp_head (s cur : string) :
  no_amp cur = true →
  ∃ x l, Str.split_go "&" s 0 cur = x :: l ∧ no_amp x = true.
Proof.
  revert cur. induction s as [|c s IH]; intros cur Hcur.
  - simpl. eauto.
  - cbn [Str.split_go]. rewrite prefix_amp.
    destruct (Ascii.eqb c "&") eqn:Hc; [eauto|].
    apply IH. by apply no_amp_snoc.
Qed.

Lemma no_amp_contains (s : string) : no_amp s = true → Str.contains "&" s = false.
Proof.
  induction s as [|c s IH]; [done|].
  intros [Hc Hs]%andb_prop. cbn [Str.contains]. rewrite prefix_amp.
  apply negb_true_iff in Hc. rewrite Hc. simpl. auto.
Qed.

(** X4. [_extract_video_id] returns an id exactly for the URLs that
    contain ["v="], and the id it returns has no ["&"] in it; for every
    other URL it raises [ValueError("Invalid YouTube URL")].  Its two
    subscripts are therefore always in range: it never raises
    [IndexError]. *)
Theorem extract_video_id_spec (url : string) :
  if Str.contains "v=" url
  then ∃ id, _extract_video_id url = Ok id ∧ Str.contains "&" id = false
  else _extract_video_id url = Raise (mkExn ValueError "Invalid YouTube URL").
Proof.
  unfold _extract_video_id.
  destruct (Str.contains "v=" url) eqn:Hin; [|done].
  destruct (split_go_two "v=" url "" ltac:(done) Hin) as (x & rest & l & Hsplit).
  unfold Str.split at 1. rewrite Hsplit. cbn [lookup list_lookup].
  destruct (split_amp_head rest "" eq_refl) as (id & l' & Hid & Hno).
  unfold Str.split. rewrite Hid. cbn.
  exists id. split; [done|]. by apply no_amp_contains.
Qed.

(** *** Results *)

(** X5. Whenever [transcribe] returns a successful result, the result
    names the strategy that produced it: its [method] is ["captions"] or
    ["whisper"], never [None]. *)
Theorem successful_result_names_method
    (env : Env) (url : string) (config : TranscriptionConfig)
    (w w' : World) (r : TranscriptionResult) :
  transcribe env url config w = (Ok r, w') →
  success r = true →
  method r = Some "captions" ∨ method r = Some "whisper".
Proof.
  unfold transcribe, bind, read_clock, get, modify, ret. cbn.
  destruct (get_captions env url (tick w)) as [[rc|e] w1] eqn:Hc; [|done].
  destruct (success rc) eqn:Hs.
  - intros [= <- _] _. left. cbn.
    by destruct (get_captions_success _ _ _ _ _ Hc Hs) as (-> & _).
  - destruct (transcribe_audio env url (download_audio_dir config)
                (cfg_transcribe config) w1) as [[rw|e] w2] eqn:Ha; [|done].
    intros [= <- _] Hok. right. cbn in *.
    eapply transcribe_audio_success_method; eauto.
Qed.

Lemma successful_result_names_method_witness :
  ∃ r w',
    transcribe (sample_env None captions_disabled "hello world") sample_url
      (mkConfig None true) fresh_world = (Ok r, w')
    ∧ (method r = Some "captions" ∨ method r = Some "whisper").
Proof.
  eexists _, _. split; [reflexivity|].
  eapply (successful_result_names_method
            (sample_env None captions_disabled "hello world") sample_url
            (mkConfig None true) fresh_world); reflexivity.
Defined.

(** X6. Whenever [transcribe_audio] returns a result with an audio path, a
    directory to keep the audio was given and the path is that directory
    joined with the video id of the URL and [".wav"]; and when a
    directory was given, every result with method ["whisper"] has an
    audio path.  The path of a temporary download never gets into the
    result. *)
Theorem audio_path_only_when_requested
    (env : Env) (url : string) (save_dir : option string) (do_transcribe : bool)
    (w w' : World) (r : TranscriptionResult) :
  transcribe_audio env url save_dir do_transcribe w = (Ok r, w') →
  (∀ p, audio_path r = Some p →
        dir_given save_dir = true
        ∧ ∃ id, _extract_video_id url = Ok id
                ∧ p = Str.path_join (default "" save_dir) (id +:+ ".wav"))
  ∧ (dir_given save_dir = true → method r = Some "whisper" → is_Some (audio_path r)).
Proof.
  unfold transcribe_audio, _download_audio, _load_model, result_text, call. unfold_m.
  intros Hrun.
  repeat (case_match; simplify_eq/=); split; intros; simplify_eq/=; eauto.
Qed.

Lemma audio_path_only_when_requested_witness :
  ∃ r w',
    transcribe_audio (sample_env None captions_disabled "hello") sample_url
      (Some "/data/audio") true fresh_world = (Ok r, w')
    ∧ (∀ p, audio_path r = Some p →
            dir_given (Some "/data/audio") = true
            ∧ ∃ id, _extract_video_id sample_url = Ok id
                    ∧ p = Str.path_join "/data/audio" (id +:+ ".wav"))
    ∧ (dir_given (Some "/data/audio") = true → method r = Some "whisper" →
       is_Some (audio_path r)).
Proof.
  eexists _, _. split; [reflexivity|].
  eapply (audio_path_only_when_requested
            (sample_env None captions_disabled "hello") sample_url
            (Some "/data/audio") true fresh_world).
  reflexivity.
Defined.

Definition is_load_event (ev : Event) : bool :=
  match ev with
  | EvLoadModel _ _ => true
  | _ => false
  end.

Lemma transcribe_audio_sets_cache
    (env : Env) (url : string) (save_dir : option string)
    (w w' : World) (r : TranscriptionResult) :
  transcribe_audio env url save_dir true w = (Ok r, w') →
  success r = true →
  _MODEL w' = true.
Proof.
  unfold transcribe_audio, _download_audio, _load_model, result_text, call. unfold_m.
  intros Hrun Hok.
  repeat (case_match; simplify_eq/=); try done;
    repeat match goal with
           | H : (_, _) = (_, _) |- _ => injection H as ? ?; subst
           end;
    unfold add_event, set_MODEL in *; simpl in *; congruence.
Qed.

Lemma transcribe_audio_cached
    (env : Env) (url : string) (save_dir : option string) (do_transcribe : bool)
    (w : World) :
  _MODEL w = true →
  ∃ r w' evs,
    transcribe_audio env url save_dir do_transcribe w = (Ok r, w')
    ∧ trace w' = trace w ++ evs
    ∧ forallb (fun ev => negb (is_load_event ev)) evs = true.
Proof.
  intros Hcached.
  unfold transcribe_audio, _download_audio, _load_model, result_text. unfold_m.
  destruct (dir_given save_dir);
    [destruct (_extract_video_id url); simpl;
       [destruct (makedirs env (default "" save_dir)); simpl|]
    |destruct (TemporaryDirectory env); simpl];
    repeat match goal with
           | |- context [subprocess_run env ?c] => destruct (subprocess_run env c); simpl
           end;
    destruct do_transcribe; simpl; rewrite ?Hcached; simpl;
    repeat match goal with
           | |- context [model_transcribe env ?p] => destruct (model_transcribe env p); simpl
           | |- context [dict_get_default ?d "text" ?x] =>
               destruct (dict_get_default d "text" x); simpl
           | |- context [String.eqb (Str.strip ?s) ""] =>
               destruct (String.eqb (Str.strip s) ""); simpl
           | |- context [tmpdir_cleanup env] => destruct (tmpdir_cleanup env); simpl
           end;
    eexists _, _, _;
    (split; [reflexivity|]);
    (split; [simpl; rewrite <- ?app_assoc; first [reflexivity | symmetry; apply app_nil_r]|]);
    reflexivity.
Qed.

(** X7. The transcription model is loaded at most once per process: after
    one call of [transcribe_audio] that transcribed successfully, every
    later call, for any URL and in any mode, returns without loading the
    model again. *)
Theorem model_loaded_at_most_once
    (env : Env) (url1 url2 : string) (dir1 dir2 : option string) (do_transcribe : bool)
    (w w1 : World) (r1 : TranscriptionResult) :
  transcribe_audio env url1 dir1 true w = (Ok r1, w1) →
  success r1 = true →
  ∃ r2 w2 evs,
    transcribe_audio env url2 dir2 do_transcribe w1 = (Ok r2, w2)
    ∧ trace w2 = trace w1 ++ evs
    ∧ forallb (fun ev => negb (is_load_event ev)) evs = true.
Proof.
  intros Hfirst Hok. apply transcribe_audio_cached.
  by eapply transcribe_audio_sets_cache.
Qed.

Lemma model_loaded_at_most_once_witness :
  ∃ r1 w1 r2 w2 evs,
    transcribe_audio (sample_env None captions_disabled "hello") sample_url None true
      fresh_world = (Ok r1, w1)
    ∧ EvLoadModel "base" "cpu" ∈ trace w1
    ∧ transcribe_audio (sample_env None captions_disabled "hello")
        "https://www.youtube.com/watch?v=xyz789" None true w1 = (Ok r2, w2)
    ∧ trace w2 = trace w1 ++ evs
    ∧ forallb (fun ev => negb (is_load_event ev)) evs = true.
Proof.
  eexists _, _. 
  destruct (model_loaded_at_most_once
              (sample_env None captions_disabled "hello") sample_url
              "https://www.youtube.com/watch?v=xyz789" None None true fresh_world
              _ _ eq_refl eq_refl) as (r2 & w2 & evs & Hrun & Htrace & Hevs).
  exists r2, w2, evs. split; [reflexivity|]. split; [|by repeat split].
  cbn. rewrite !elem_of_cons. auto.
Defined.

(** *** Failures *)

Lemma transcribe_audio_failure
    (env : Env) (url : string) (save_dir : option string) (do_transcribe : bool)
    (w w' : World) (r : TranscriptionResult) :
  transcribe_audio env url save_dir do_transcribe w = (Ok r, w') →
  success r = false →
  errors r ≠ [] ∧ suggested_fixes r ≠ [].
Proof.
  unfold transcribe_audio, _download_audio, _load_model, result_text. unfold_m.
  intros Hrun Hfail.
  repeat (case_match; simplify_eq/=); done.
Qed.

(** X8. When the two imports of [get_captions] succeed, [transcribe]
    returns a result whatever its collaborators do (caption client,
    file system, yt-dlp, model): none of their exceptions gets out.  And
    when the result reports failure it says why: it has at least one
    error and at least one suggested fix. *)
Theorem transcribe_contains_collaborator_failures
    (env : Env) (url : string) (config : TranscriptionConfig) (w : World) :
  error_classes_bound env = true →
  ∃ r w',
    transcribe env url config w = (Ok r, w')
    ∧ (success r = false → errors r ≠ [] ∧ suggested_fixes r ≠ []).
Proof.
  intros Hbound. unfold transcribe, bind, read_clock, get, modify, ret. cbn.
  destruct (get_captions_total env url (tick w) Hbound) as (rc & w1 & ->).
  destruct (success rc) eqn:Hrc; [eexists _, _; split; [reflexivity|]; cbn; congruence|].
  destruct (transcribe_audio_total env url (download_audio_dir config)
              (cfg_transcribe config) w1) as (rw & w2 & Hrw).
  rewrite Hrw. eexists _, _. split; [reflexivity|]. cbn. intros Hfail.
  destruct (transcribe_audio_failure _ _ _ _ _ _ _ Hrw Hfail) as [He Hf].
  split; intros Happ; apply app_eq_nil in Happ as [? _]; done.
Qed.

Lemma transcribe_contains_collaborator_failures_witness :
  ∃ r w',
    transcribe (sample_env None captions_disabled "  ") sample_url
      (mkConfig None true) fresh_world = (Ok r, w')
    ∧ (success r = false → errors r ≠ [] ∧ suggested_fixes r ≠ []).
Proof.
  apply (transcribe_contains_collaborator_failures
           (sample_env None captions_disabled "  ") sample_url
           (mkConfig None true) fresh_world).
  reflexivity.
Defined.



End TranscriptionOutcomes.

(** ** The first two stages *)

Module InputStages.
Import Schema Collector Stages Runner StageFacts RunnerFacts TranscriptionOutcomes.

#[local] Arguments Str.strip : simpl never.
#[local] Arguments validate_input.search : simpl never.

(** *** The URL pattern *)

Fixpoint all_chars (p : ascii → bool) (s : string) : bool :=
  match s with
  | EmptyString => true
  | String c s' => p c && all_chars p s'
  end.

Lemma take_while_all (p : ascii → bool) (s : string) :
  all_chars p (Str.take_while p s) = true.
Proof.
  induction s as [|c s IH]; [done|]. simpl.
  destruct (p c) eqn:Hc; [|done]. simpl. by rewrite Hc.
Qed.

Lemma first_match_Some {A} (k : string → option A) (rests : list string) (x : A) :
  validate_input.first_match k rests = Some x → ∃ r, r ∈ rests ∧ k r = Some x.
Proof.
  induction rests as [|r rests IH]; [done|]. simpl.
  destruct (k r) as [y|] eqn:Hr.
  - intros [= ->]. exists r. split; [apply list_elem_of_here|done].
  - intros (r' & Hin & Hk)%IH. exists r'. split; [by apply list_elem_of_further|done].
Qed.

Lemma append_nil_l (s : string) : "" +:+ s = s.
Proof. reflexivity. Qed.

Lemma append_cons (c : ascii) (s r : string) : String c s +:+ r = String c (s +:+ r).
Proof. reflexivity. Qed.

Lemma append_assoc (a b c : string) : (a +:+ b) +:+ c = a +:+ b +:+ c.
Proof. induction a as [|x a IH]; [done|]. rewrite !append_cons. by f_equal. Qed.

Lemma strip_prefix_Some (p s r : string) :
  validate_input.strip_prefix p s = Some r → s = p +:+ r.
Proof.
  unfold validate_input.strip_prefix.
  destruct (String.prefix p s) eqn:Hp; [|done]. intros [= <-].
  revert s Hp. induction p as [|a p IH]; intros s Hp.
  - rewrite append_nil_l. cbn [String.length]. rewrite Nat.sub_0_r. clear Hp.
    induction s as [|c s IHs]; [done|]. cbn. by f_equal.
  - destruct s as [|b s]; [done|]. cbn in Hp.
    destruct (ascii_dec a b) as [->|]; [|done].
    rewrite append_cons. cbn. f_equal. by apply IH.
Qed.

Lemma elem_of_one_of (alts : list string) (s r : string) :
  r ∈ validate_input.one_of alts s → ∃ p, p ∈ alts ∧ s = p +:+ r.
Proof.
  unfold validate_input.one_of. rewrite list_elem_of_omap.
  intros (p & Hp & Hs). exists p. split; [done|]. by apply strip_prefix_Some.
Qed.

Lemma elem_of_optional (alts : list string) (s r : string) :
  r ∈ validate_input.optional alts s → r = s ∨ ∃ p, p ∈ alts ∧ s = p +:+ r.
Proof.
  unfold validate_input.optional. rewrite elem_of_app, list_elem_of_singleton.
  intros [Hin | ->]; [right|by left].
  by apply elem_of_one_of.
Qed.

Lemma contains_prefix (sub s : string) : String.prefix sub s = true → Str.contains sub s = true.
Proof. intros H. destruct s; cbn [Str.contains]; by rewrite H. Qed.

Lemma contains_cons (sub : string) (c : ascii) (s : string) :
  Str.contains sub s = true → Str.contains sub (String c s) = true.
Proof. intros H. cbn [Str.contains]. rewrite H. apply orb_true_r. Qed.

Lemma contains_app_r (sub p s : string) :
  Str.contains sub s = true → Str.contains sub (p +:+ s) = true.
Proof.
  intros H. induction p as [|c p IH]; [done|].
  rewrite append_cons. by apply contains_cons.
Qed.

Lemma prefix_app (p r : string) : String.prefix p (p +:+ r) = true.
Proof.
  induction p as [|a p IH]; [by destruct r|]. rewrite append_cons. cbn.
  destruct (ascii_dec a a); [exact IH|done].
Qed.

Definition hosts : list string := ["youtube.com"; "youtu.be"; "youtube-nocookie.com"].

Lemma match_here_Some (s id : string) :
  validate_input.match_here s = Some id →
  id ≠ "" ∧ all_chars validate_input.id_char id = true
  ∧ ∃ host, host ∈ hosts ∧ Str.contains (host +:+ "/") s = true.
Proof.
  unfold validate_input.match_here.
  intros (s1 & H1 & (s2 & H2 & (s3 & H3 & (s4 & H4 & (s5 & H5 & Hid)%first_match_Some
    )%first_match_Some)%first_match_Some)%first_match_Some)%first_match_Some.
  destruct (String.eqb (Str.take_while validate_input.id_char s5) "") eqn:He; [done|].
  injection Hid as <-.
  split; [by apply String.eqb_neq|]. split; [apply take_while_all|].
  apply elem_of_one_of in H4 as (slash & Hslash & ->).
  apply list_elem_of_singleton in Hslash as ->.
  apply elem_of_one_of in H3 as (host & Hhost & ->).
  exists host. split; [exact Hhost|].
  assert (Hs2 : Str.contains (host +:+ "/") (host +:+ "/" +:+ s4) = true).
  { apply contains_prefix. rewrite <- append_assoc. apply prefix_app. }
  apply elem_of_optional in H2 as [ <- | (p2 & _ & ->)];
    apply elem_of_optional in H1 as [ <- | (p1 & _ & ->)];
    repeat (first [exact Hs2 | apply contains_app_r]).
Qed.

Lemma search_cons (c : ascii) (url : string) :
  validate_input.search (String c url)
  = match validate_input.match_here (String c url) with
    | Some g => Some g
    | None => validate_input.search url
    end.
Proof. reflexivity. Qed.

Lemma search_Some (url id : string) :
  validate_input.search url = Some id →
  id ≠ "" ∧ all_chars validate_input.id_char id = true
  ∧ ∃ host, host ∈ hosts ∧ Str.contains (host +:+ "/") url = true.
Proof.
  induction url as [|c url IH].
  - by cbn.
  - rewrite search_cons. destruct (validate_input.match_here (String c url)) eqn:Hm.
    + intros [= ->]. by apply match_here_Some.
    + intros (Hne & Hall & host & Hh & Hc)%IH. repeat split; try done.
      exists host. split; [done|]. by apply contains_cons.
Qed.

(** X10. Whatever [YOUTUBE_REGEX.search] captures as the video id is
    not empty and has none of the characters [&], newline, [?] and [#];
    and a match is only found in a text that contains one of the three
    host names followed by a slash. *)
Theorem search_found_is_a_video_id (url : string) :
  match validate_input.search url with
  | Some id =>
      id ≠ "" ∧ all_chars validate_input.id_char id = true
      ∧ ∃ host, host ∈ hosts ∧ Str.contains (host +:+ "/") url = true
  | None => True
  end.
Proof.
  destruct (validate_input.search url) as [id|] eqn:Hs; [|done].
  by apply search_Some.
Qed.

Lemma strip_prefix_app (p r : string) : validate_input.strip_prefix p (p +:+ r) = Some r.
Proof.
  unfold validate_input.strip_prefix. rewrite prefix_app. f_equal.
  induction p as [|a p IH].
  - rewrite append_nil_l. cbn [String.length]. rewrite Nat.sub_0_r.
    induction r as [|c r IHr]; [done|]. cbn. by f_equal.
  - rewrite append_cons. cbn. exact IH.
Qed.

Lemma take_while_id (p : ascii → bool) (s : string) :
  all_chars p s = true → Str.take_while p s = s.
Proof.
  induction s as [|c s IH]; [done|]. cbn. intros [Hc Hs]%andb_prop.
  rewrite Hc. f_equal. by apply IH.
Qed.

Lemma first_match_optional_hit {A} (k : string → option A) (p : string)
    (alts : list string) (r : string) (x : A) :
  k r = Some x →
  validate_input.first_match k (validate_input.optional (p :: alts) (p +:+ r)) = Some x.
Proof.
  intros Hk. unfold validate_input.optional. cbn [omap list_omap].
  rewrite strip_prefix_app. cbn. by rewrite Hk.
Qed.

Lemma first_match_one_of_hit {A} (k : string → option A) (p : string)
    (alts : list string) (r : string) (x : A) :
  k r = Some x →
  validate_input.first_match k (validate_input.one_of (p :: alts) (p +:+ r)) = Some x.
Proof.
  intros Hk. unfold validate_input.one_of. cbn [omap list_omap].
  rewrite strip_prefix_app. cbn. by rewrite Hk.
Qed.

Definition watch_url (id : string) : string := "https://www.youtube.com/watch?v=" +:+ id.

Lemma match_here_watch_url (id : string) :
  id ≠ "" → all_chars validate_input.id_char id = true →
  validate_input.match_here (watch_url id) = Some id.
Proof.
  intros Hne Hall.
  unfold validate_input.match_here, watch_url.
  change ("https://www.youtube.com/watch?v=" +:+ id)
    with ("https://" +:+ "www." +:+ "youtube.com" +:+ "/" +:+ "watch?v=" +:+ id).
  do 2 apply first_match_optional_hit. do 2 apply first_match_one_of_hit.
  apply first_match_optional_hit.
  rewrite take_while_id by done. by apply String.eqb_neq in Hne as ->.
Qed.

(** X11. Round trip: the canonical watch URL that [fetch_metadata]
    builds from a video id is a URL from which the pattern of
    [validate_input] captures that very id, for every non-empty id
    without [&], newline, [?] and [#]. *)
Theorem search_watch_url_round_trip (id : string) :
  id ≠ "" → all_chars validate_input.id_char id = true →
  validate_input.search (watch_url id) = Some id.
Proof.
  intros Hne Hall. unfold watch_url.
  change ("https://www.youtube.com/watch?v=" +:+ id)
    with (String "h" ("ttps://www.youtube.com/watch?v=" +:+ id)).
  rewrite search_cons.
  change (String "h" ("ttps://www.youtube.com/watch?v=" +:+ id)) with (watch_url id).
  by rewrite match_here_watch_url.
Qed.

Lemma append_snoc (a : string) (c : ascii) (s : string) :
  (a +:+ String c "") +:+ s = a +:+ String c s.
Proof. by rewrite append_assoc. Qed.

Lemma split_amp_id_chars (s cur : string) :
  all_chars validate_input.id_char s = true →
  Str.split_go "&" s 0 cur = [cur +:+ s].
Proof.
  revert cur. induction s as [|c s IH]; intros cur Hs.
  - cbn. f_equal. induction cur as [|a cur IHc]; [done|]. rewrite append_cons. by f_equal.
  - cbn [all_chars] in Hs. apply andb_prop in Hs as [Hc Hs].
    cbn [Str.split_go]. rewrite prefix_amp.
    assert (Ascii.eqb c "&" = false) as ->.
    { unfold validate_input.id_char in Hc. apply negb_true_iff in Hc.
      by repeat apply orb_false_elim in Hc as [Hc _]. }
    rewrite IH by done. by rewrite append_snoc.
Qed.

(** *** [validate_input.process] *)

Definition input_failure (r : StageResult) (cause' : string) : Prop :=
  success r = false
  ∧ ∃ failure, failures r = [failure]
               ∧ type failure = INPUT_ERROR ∧ cause failure = cause'.

(** The result of [validate_input] for the stripped URL [url], with
    execution time [t]. *)
Definition validate_result (url : string) (t : Q) : StageResult :=
  if String.eqb url "" then
    mkStageResult "validate_input" false [] ["No URL provided"]
      [mkStageFailure "validate_input" INPUT_ERROR "missing_url"
         "Cannot proceed without input URL" ["Provide a valid YouTube URL via CLI"]]
      [] (Some t)
  else
    match validate_input.search url with
    | Some _ => mkStageResult "validate_input" true [] [] [] [] (Some t)
    | None =>
        mkStageResult "validate_input" false
          ["URL did not match YouTube pattern: " +:+ url] []
          [mkStageFailure "validate_input" INPUT_ERROR "invalid_youtube_url"
             "Cannot extract video_id; pipeline will produce diagnostics-only artifact"
             ["Ensure URL is from youtube.com or youtu.be";
              "Check for typos or extra characters";
              "Use standard watch?v= or youtu.be format"]]
          [] (Some t)
    end.

Lemma validate_input_run
    (env : Env) (config : RunConfig) (w : World) (source : PyDict) (u : string) :
  content_object w !! "source" = Some (VDict source) →
  source !! "url" = Some (VStr u) →
  ∃ t w',
    validate_input.process env config w = (Ok (validate_result (Str.strip u) t), w')
    ∧ content_object w'
      = match validate_input.search (Str.strip u) with
        | Some id =>
            <["source" := VDict (<["url" := VStr (Str.strip u)]>
                                 (<["video_id" := VStr id]> source))]>
              (content_object w)
        | None => content_object w
        end.
Proof.
  intros Hsrc Hurl.
  unfold validate_input.process, timer, timer_end, set_field, get_section, log_event,
    read_clock.
  unfold bind, get, lift, modify, ret, raise.
  unfold dict_get_default. cbv beta iota. cbn [content_object add_event tick].
  rewrite Hsrc. cbn [default from_option id py_get]. cbv beta iota.
  unfold dict_get_default. rewrite Hurl. cbn [default from_option id]. cbv beta iota.
  unfold validate_result.
  destruct (String.eqb (Str.strip u) "") eqn:Hempty.
  - apply String.eqb_eq in Hempty. rewrite Hempty. cbn.
    eexists _, _. split; reflexivity.
  - destruct (validate_input.search (Str.strip u)) as [id|] eqn:Hsearch.
    + destruct (search_Some _ _ Hsearch) as (_ & Hchars & _).
      unfold Str.split. rewrite split_amp_id_chars by done. rewrite append_nil_l.
      cbv beta iota. cbn [lookup list_lookup]. cbv beta iota. unfold getitem, py_setitem.
      cbn [content_object add_event tick set_content_object]. rewrite Hsrc. cbv beta iota.
      cbn [content_object add_event tick set_content_object].
      rewrite lookup_insert_eq. cbv beta iota.
      eexists _, _. split; [reflexivity|].
      cbn [content_object add_event tick set_content_object].
      by rewrite insert_insert_eq.
    + cbn. eexists _, _. split; reflexivity.
Qed.

(** *** [fetch_metadata.process] *)

(** The result of [fetch_metadata] when there is no video id. *)
Definition missing_video_id_result : StageResult :=
  mkStageResult "fetch_metadata" false [] []
    [mkStageFailure "fetch_metadata" INPUT_ERROR "missing_video_id"
       "Cannot fetch metadata without video_id" ["Ensure validate_input stage succeeded"]]
    [] None.

Lemma fetch_metadata_early_return
    (env : Env) (config : RunConfig) (w : World) (source : PyDict) :
  content_object w !! "source" = Some (VDict source) →
  truthy (dict_get source "video_id") = false →
  fetch_metadata.process env config w
  = (Ok missing_video_id_result,
     add_event (EvLog INFO "Fetching YouTube metadata" (Some "fetch_metadata") "start") w).
Proof.
  intros Hsrc Hid.
  unfold fetch_metadata.process, get_field, get_section, log_event.
  unfold bind, get, lift, modify, ret.
  unfold getitem, dict_get_default. unfold dict_get in Hid.
  do 3 (cbv beta iota; cbn [content_object add_event py_get]; rewrite ?Hsrc).
  unfold dict_get_default. rewrite Hid. reflexivity.
Qed.

(** The artifact as the runner creates it, in a state where nothing has
    happened yet. *)
Definition new_artifact (env : Env) (url : string) : World :=
  mkWorld (initial_content_object env url) (Collector.init (new_run_id env)) [] false 0.

Lemma search_watch_url_round_trip_witness :
  validate_input.search (watch_url "abc123") = Some "abc123".
Proof. apply (search_watch_url_round_trip "abc123"); [discriminate|reflexivity]. Defined.

(** X12. On an artifact whose [source.url] is a string, [validate_input]
    always returns a timed result, and what it does is decided by the
    pattern on the stripped URL alone.  If the pattern captures an id the
    stage succeeds without failures and stores that id as
    [source.video_id] and the stripped URL as [source.url], changing
    nothing else in the artifact; otherwise it fails with one
    [INPUT_ERROR] failure, of cause ["missing_url"] for a blank URL and
    ["invalid_youtube_url"] for any other, and leaves the artifact as it
    was. *)
Theorem validate_input_outcomes
    (env : Env) (config : RunConfig) (w : World) (source : PyDict) (u : string) :
  content_object w !! "source" = Some (VDict source) →
  source !! "url" = Some (VStr u) →
  ∃ r w',
    validate_input.process env config w = (Ok r, w')
    ∧ stage_name r = "validate_input"
    ∧ is_Some (execution_time_ms r)
    ∧ match validate_input.search (Str.strip u) with
      | Some id =>
          success r = true ∧ failures r = [] ∧ errors r = []
          ∧ content_object w'
            = <["source" := VDict (<["url" := VStr (Str.strip u)]>
                                   (<["video_id" := VStr id]> source))]>
                (content_object w)
      | None =>
          input_failure r (if String.eqb (Str.strip u) "" then "missing_url"
                           else "invalid_youtube_url")
          ∧ content_object w' = content_object w
      end.
Proof.
  intros Hsrc Hurl.
  destruct (validate_input_run env config w source u Hsrc Hurl) as (t & w' & Hrun & Hco).
  eexists _, w'. split; [exact Hrun|]. unfold validate_result.
  destruct (String.eqb (Str.strip u) "") eqn:Hempty.
  - apply String.eqb_eq in Hempty. rewrite Hempty in Hco |- *.
    change (validate_input.search "") with (@None string) in Hco |- *.
    split; [done|]. split; [by eexists|]. split; [|done].
    split; [done|]. by eexists.
  - destruct (validate_input.search (Str.strip u)) as [id|].
    + split; [done|]. split; [by eexists|]. by repeat split.
    + split; [done|]. split; [by eexists|]. split; [|done].
      split; [done|]. by eexists.
Qed.

Lemma validate_input_outcomes_witness :
  let u := " https://youtu.be/abc123?t=1 " in
  let w := new_artifact captions_env u in
  ∃ r w',
    validate_input.process captions_env (mkRunConfig None None) w = (Ok r, w')
    ∧ stage_name r = "validate_input"
    ∧ is_Some (execution_time_ms r)
    ∧ match validate_input.search (Str.strip u) with
      | Some id =>
          success r = true ∧ failures r = [] ∧ errors r = []
          ∧ content_object w'
            = <["source" := VDict (<["url" := VStr (Str.strip u)]>
                                   (<["video_id" := VStr id]> (Source_dump u)))]>
                (content_object w)
      | None =>
          input_failure r (if String.eqb (Str.strip u) "" then "missing_url"
                           else "invalid_youtube_url")
          ∧ content_object w' = content_object w
      end.
Proof.
  apply (validate_input_outcomes captions_env (mkRunConfig None None)
           (new_artifact captions_env " https://youtu.be/abc123?t=1 ")
           (Source_dump " https://youtu.be/abc123?t=1 ")
           " https://youtu.be/abc123?t=1 "); reflexivity.
Defined.

(** X13. On an artifact whose source section has no video id (the key is
    missing, or its value is [None] or empty), [fetch_metadata] gives up
    before it does anything: it returns a failed result with one
    [INPUT_ERROR] failure of cause ["missing_video_id"] and no execution
    time, it makes no outside call and reads no clock, and the only
    trace it leaves is its start record. *)
Theorem fetch_metadata_without_video_id
    (env : Env) (config : RunConfig) (w : World) (source : PyDict) :
  content_object w !! "source" = Some (VDict source) →
  truthy (dict_get source "video_id") = false →
  ∃ r,
    fetch_metadata.process env config w
    = (Ok r,
       add_event (EvLog INFO "Fetching YouTube metadata" (Some "fetch_metadata") "start") w)
    ∧ input_failure r "missing_video_id"
    ∧ execution_time_ms r = None.
Proof.
  intros Hsrc Hid. exists missing_video_id_result.
  split; [by apply (fetch_metadata_early_return env config w source)|].
  split; [|reflexivity]. split; [reflexivity|]. by eexists.
Qed.

Lemma fetch_metadata_without_video_id_witness :
  let w := new_artifact captions_env "not a link" in
  ∃ r,
    fetch_metadata.process captions_env (mkRunConfig None None) w
    = (Ok r,
       add_event (EvLog INFO "Fetching YouTube metadata" (Some "fetch_metadata") "start") w)
    ∧ input_failure r "missing_video_id"
    ∧ execution_time_ms r = None.
Proof.
  apply (fetch_metadata_without_video_id captions_env (mkRunConfig None None)
           (new_artifact captions_env "not a link") (Source_dump "not a link"));
    reflexivity.
Defined.

End InputStages.

(** ** Outside calls *)

Module Footprints.
Import Schema Collector Stages Runner StageFacts TranscriptionFacts.

(** *** Invariants of the trace *)

Definition on_trace (T : list Event → Prop) (w : World) : Prop := T (trace w).

(** Appending [ev] keeps [T]. *)
Definition accepts (T : list Event → Prop) (ev : Event) : Prop :=
  ∀ tr, T tr → T (tr ++ [ev]).

Section TraceInvariants.
Context (T : list Event → Prop).
Let I := on_trace T.

Lemma tinv_same_trace {A} (m : M World A) :
  (∀ w, trace (m w).2 = trace w) → inv I m.
Proof. intros Hm w Hw. unfold I, on_trace. by rewrite Hm. Qed.

Lemma tinv_add_event (ev : Event) : accepts T ev → inv I (modify (add_event ev)).
Proof. intros Hev. apply inv_modify. intros w Hw. by apply Hev. Qed.

Lemma tinv_log_event (level : LogLevel) (message : string)
    (stage_name : option string) (event_type : string) :
  accepts T (EvLog level message stage_name event_type) →
  inv I (log_event level message stage_name event_type).
Proof. apply tinv_add_event. Qed.

Lemma tinv_call {A} (ev : Event) (answer : res A) : accepts T ev → inv I (call ev answer).
Proof.
  intros Hev. apply inv_bind; [by apply tinv_add_event | intros _; apply inv_lift].
Qed.

Lemma tinv_read_clock (clock : nat → Q) : inv I (read_clock clock).
Proof. by apply tinv_same_trace. Qed.

Lemma tinv_set_MODEL (b : bool) : inv I (modify (set_MODEL b)).
Proof. by apply tinv_same_trace. Qed.

Lemma tinv_get_section (sec : string) : inv I (get_section sec).
Proof. by apply tinv_same_trace. Qed.

Lemma tinv_get_field (sec k : string) (dflt : PyVal) : inv I (get_field sec k dflt).
Proof.
  apply tinv_same_trace. intros w. unfold get_field, get_section, bind, get, lift.
  by destruct (getitem (content_object w) sec).
Qed.

Lemma tinv_set_field (sec k : string) (x : PyVal) : inv I (set_field sec k x).
Proof.
  apply tinv_same_trace. intros w.
  unfold set_field, get_section, bind, get, lift, modify.
  destruct (getitem (content_object w) sec) as [v|]; [|done].
  by destruct (py_setitem v k x).
Qed.

Lemma tinv_set_section (sec : string) (v : PyVal) : inv I (set_section sec v).
Proof. by apply tinv_same_trace. Qed.

Lemma tinv_zoom_collector {A} (m : M DiagnosticsCollector A) :
  inv I (zoom collector set_collector m).
Proof.
  apply tinv_same_trace. intros w. unfold zoom. by destruct (m (collector w)).
Qed.

(** A step that raises stops the computation. *)
Lemma inv_bind_lift {A B} (J : World → Prop) (r : res A) (k : A → M World B) :
  (∀ a, r = Ok a → inv J (k a)) → inv J (bind (lift r) k).
Proof.
  intros Hk w Hw. unfold bind, lift. destruct r as [a|e]; [by apply Hk|done].
Qed.
End TraceInvariants.

Lemma returns_bind_lift {A B} (r : res A) (k : A → M World B) (Q : B → Prop) :
  (∀ a, r = Ok a → returns (k a) Q) → returns (bind (lift r) k) Q.
Proof.
  intros Hk w b w'. unfold bind, lift. destruct r as [a|e]; [by apply Hk|done].
Qed.

(** *** Footprints *)

(** Since [tr0], only events accepted by [P] were recorded. *)
Definition only (P : Event → bool) (tr0 tr : list Event) : Prop :=
  ∃ evs, tr = tr0 ++ evs ∧ forallb P evs = true.

Lemma only_accepts (P : Event → bool) (tr0 : list Event) (ev : Event) :
  P ev = true → accepts (only P tr0) ev.
Proof.
  intros Hev tr (evs & -> & Hevs). exists (evs ++ [ev]).
  split; [by rewrite app_assoc|]. rewrite forallb_app, Hevs. cbn. by rewrite Hev.
Qed.

(** Whatever the state and the outcome, [m] records only events accepted
    by [P]. *)
Definition emits {A} (P : Event → bool) (m : M World A) : Prop :=
  ∀ w, ∃ evs, trace (m w).2 = trace w ++ evs ∧ forallb P evs = true.

Lemma emits_intro {A} (P : Event → bool) (m : M World A) :
  (∀ tr0, inv (on_trace (only P tr0)) m) → emits P m.
Proof.
  intros Hm w. apply (Hm (trace w) w). exists []. by rewrite app_nil_r.
Qed.

Lemma emits_inv {A} (P : Event → bool) (m : M World A) (tr0 : list Event) :
  emits P m → inv (on_trace (only P tr0)) m.
Proof.
  intros Hm w (evs & Hw & Hevs). destruct (Hm w) as (evs' & Hw' & Hevs').
  exists (evs ++ evs'). unfold on_trace. rewrite Hw', Hw, app_assoc.
  split; [done|]. by rewrite forallb_app, Hevs, Hevs'.
Qed.

Lemma emits_weaken {A} (P P' : Event → bool) (m : M World A) :
  (∀ ev, P ev = true → P' ev = true) → emits P m → emits P' m.
Proof.
  intros HP Hm w. destruct (Hm w) as (evs & Hw & Hevs). exists evs. split; [done|].
  rewrite forallb_forall in *. auto.
Qed.

Definition is_log (ev : Event) : bool :=
  match ev with
  | EvLog _ _ _ _ => true
  | _ => false
  end.

Definition is_extract_info (ev : Event) : bool :=
  match ev with
  | EvExtractInfo _ => true
  | _ => false
  end.

Definition is_llm (ev : Event) : bool :=
  match ev with
  | EvLLM _ => true
  | _ => false
  end.

Definition is_transcription_event (ev : Event) : bool :=
  match ev with
  | EvGetTranscript _ | EvMakedirs _ | EvTemporaryDirectory | EvDownloadAudio _
  | EvLoadModel _ _ | EvModelTranscribe _ | EvTempCleanup => true
  | _ => false
  end.

Ltac tinv_side := solve [ apply only_accepts; reflexivity ].

Ltac tinv_step :=
  lazymatch goal with
  | |- inv _ (ret _) => apply inv_ret
  | |- inv _ (raise _) => apply inv_raise
  | |- inv _ get => apply inv_get
  | |- inv _ (lift _) => apply inv_lift
  | |- inv _ (read_clock _) => apply tinv_read_clock
  | |- inv _ (modify (set_MODEL _)) => apply tinv_set_MODEL
  | |- inv _ (get_section _) => apply tinv_get_section
  | |- inv _ (get_field _ _ _) => apply tinv_get_field
  | |- inv _ (set_field _ _ _) => apply tinv_set_field
  | |- inv _ (set_section _ _) => apply tinv_set_section
  | |- inv _ (zoom collector set_collector _) => apply tinv_zoom_collector
  | |- inv _ (log_event _ _ _ _) => apply tinv_log_event; tinv_side
  | |- inv _ (call _ _) => apply tinv_call; tinv_side
  | |- inv _ (bind (lift (Format.format _ _)) _) =>
      apply inv_bind_lift; intros ? Hfmt;
      first [ rewrite STRUCTURE_PROMPT_format_raises in Hfmt
            | rewrite SEMANTICS_PROMPT_format_raises in Hfmt ];
      discriminate Hfmt
  | |- inv _ (bind _ _) => apply inv_bind; [|intros ?]
  | |- inv _ (try_except _ _) => apply inv_try_except; [|intros ?]
  | |- inv _ (if ?b then _ else _) => destruct b
  | |- inv _ (match ?x with _ => _ end) => destruct x
  | |- _ => progress cbv beta zeta
  end.

Ltac tinv_auto := repeat tinv_step.

Lemma emits_validate_input env config :
  emits is_log (validate_input.process env config).
Proof.
  apply emits_intro. intros tr0.
  unfold validate_input.process, timer, timer_end. tinv_auto.
Qed.

Lemma emits_fetch_metadata env config :
  emits (fun ev => is_log ev || is_extract_info ev) (fetch_metadata.process env config).
Proof.
  apply emits_intro. intros tr0.
  unfold fetch_metadata.process, fetch_metadata.info_get, timer, timer_end. tinv_auto.
Qed.

Lemma emits_transcribe env url config :
  emits is_transcription_event (Transcription.transcribe env url config).
Proof.
  apply emits_intro. intros tr0.
  unfold Transcription.transcribe, Transcription.get_captions,
    Transcription.transcribe_audio, Transcription._download_audio,
    Transcription._load_model.
  tinv_auto.
Qed.

Lemma emits_fetch_transcript env config :
  emits (fun ev => is_log ev || is_transcription_event ev)
    (fetch_transcript.process env config).
Proof.
  apply emits_intro. intros tr0.
  unfold fetch_transcript.process, timer, timer_end.
  tinv_auto.
  all: apply emits_inv; eapply emits_weaken; [|apply emits_transcribe];
    intros ev ->; apply orb_true_r.
Qed.

Lemma emits_append_diagnostics_warning msg :
  emits is_log (analyze_structure.append_diagnostics_warning msg).
Proof.
  apply emits_intro. intros tr0.
  unfold analyze_structure.append_diagnostics_warning. tinv_auto.
Qed.

Lemma emits_analyze_structure env config :
  emits is_log (analyze_structure.process env config).
Proof.
  apply emits_intro. intros tr0.
  unfold analyze_structure.process, timer, timer_end.
  tinv_auto; apply emits_inv, emits_append_diagnostics_warning.
Qed.

Lemma emits_analyze_semantics env config :
  emits is_log (analyze_semantics.process env config).
Proof.
  apply emits_intro. intros tr0.
  unfold analyze_semantics.process, timer, timer_end.
  tinv_auto; apply emits_inv, emits_append_diagnostics_warning.
Qed.

(** X14. The outside calls of each stage, whatever the state and
    whether the stage returns or raises.  [validate_input] and the two
    analysis stages record log entries and nothing else: they make no
    outside call, and in particular the analysis stages never reach the
    language model.  [fetch_metadata] calls nothing but the metadata
    lookup, and [fetch_transcript] nothing but the caption client, the
    file system, the audio download and the transcription model. *)
Theorem stage_footprints (env : Env) (config : RunConfig) :
  emits is_log (validate_input.process env config)
  ∧ emits (fun ev => is_log ev || is_extract_info ev) (fetch_metadata.process env config)
  ∧ emits (fun ev => is_log ev || is_transcription_event ev)
      (fetch_transcript.process env config)
  ∧ emits is_log (analyze_structure.process env config)
  ∧ emits is_log (analyze_semantics.process env config).
Proof.
  split; [apply emits_validate_input|].
  split; [apply emits_fetch_metadata|].
  split; [apply emits_fetch_transcript|].
  split; [apply emits_analyze_structure | apply emits_analyze_semantics].
Qed.

(** *** The whole run *)

Lemma emits_stage (env : Env) (config : RunConfig) (sf : StageFunc) :
  sf ∈ STAGES →
  emits (fun ev => negb (is_llm ev)) (stage_call sf env config).
Proof.
  unfold STAGES. rewrite !elem_of_cons, elem_of_nil.
  intros [->|[->|[->|[->|[->|[]]]]]]; cbn [stage_call];
    [ eapply emits_weaken; [|apply emits_validate_input]
    | eapply emits_weaken; [|apply emits_fetch_metadata]
    | eapply emits_weaken; [|apply emits_fetch_transcript]
    | eapply emits_weaken; [|apply emits_analyze_structure]
    | eapply emits_weaken; [|apply emits_analyze_semantics] ];
    by intros [].
Qed.

Lemma emits_run_stage (P : Event → bool) (env : Env) (config : RunConfig) (sf : StageFunc) :
  (∀ level message stage_name event_type,
     P (EvLog level message stage_name event_type) = true) →
  emits P (stage_call sf env config) →
  emits P (run_stage env config sf).
Proof.
  intros Hlog Hsf. apply emits_intro. intros tr0.
  assert (Hadm : ∀ level message stage_name event_type,
            accepts (only P tr0) (EvLog level message stage_name event_type)).
  { intros. apply only_accepts, Hlog. }
  unfold run_stage, collector_add.
  repeat first [ apply tinv_log_event, Hadm | apply tinv_zoom_collector
               | apply emits_inv, Hsf
               | apply inv_bind; [|intros ?]
               | apply inv_try_except; [|intros ?]
               | progress cbv beta zeta ].
Qed.

Lemma emits_run_stages (P : Event → bool) (env : Env) (config : RunConfig)
    (stages : list StageFunc) :
  (∀ level message stage_name event_type,
     P (EvLog level message stage_name event_type) = true) →
  (∀ sf, sf ∈ stages → emits P (stage_call sf env config)) →
  emits P (run_stages env config stages).
Proof.
  intros Hlog Hsf. apply emits_intro. intros tr0.
  induction stages as [|sf stages IH]; [apply inv_ret|].
  rewrite RunnerFacts.run_stages_cons. apply inv_bind.
  - apply emits_inv, emits_run_stage; [done|]. apply Hsf, list_elem_of_here.
  - intros _. apply IH. intros sf' Hin. by apply Hsf, list_elem_of_further.
Qed.

Lemma emits_run_ingestion (P : Event → bool) (env : Env) (url : string)
    (config : option RunConfig) :
  (∀ level message stage_name event_type,
     P (EvLog level message stage_name event_type) = true) →
  (∀ sf, sf ∈ STAGES → emits P (stage_call sf env (config_or_empty config))) →
  emits P (run_ingestion env url config).
Proof.
  intros Hlog Hsf. apply emits_intro. intros tr0.
  assert (Hadm : ∀ level message stage_name event_type,
            accepts (only P tr0) (EvLog level message stage_name event_type)).
  { intros. apply only_accepts, Hlog. }
  unfold run_ingestion, initialize, finalize.
  repeat first [ apply tinv_log_event, Hadm | apply tinv_zoom_collector
               | apply tinv_set_section | apply inv_get | apply inv_ret | apply inv_lift
               | apply emits_inv, emits_run_stages; [exact Hlog|exact Hsf]
               | apply tinv_same_trace; reflexivity
               | apply inv_bind; [|intros ?]
               | apply inv_try_except; [|intros ?]
               | progress cbv beta zeta ].
Qed.

(** X15. No run of [run_ingestion] ever calls the language model,
    whatever the URL, the configuration and the collaborators are: among
    the events of a run there is no call of the client behind
    [_call_llm].  (The two analysis stages raise while they format their
    prompt, before the call.) *)
Theorem run_ingestion_never_calls_llm
    (env : Env) (url : string) (config : option RunConfig) (w : World) :
  ∃ evs,
    trace (run_ingestion env url config w).2 = trace w ++ evs
    ∧ ∀ prompt, EvLLM prompt ∉ evs.
Proof.
  destruct (emits_run_ingestion (fun ev => negb (is_llm ev)) env url config
              ltac:(done) ltac:(intros; by apply emits_stage) w) as (evs & Htr & Hevs).
  exists evs. split; [done|]. intros prompt Hin.
  rewrite forallb_forall in Hevs. apply list_elem_of_In in Hin.
  by specialize (Hevs _ Hin).
Qed.

(** *** Download-only runs *)

Lemma emits_transcribe_download_only env url config :
  Transcription.cfg_transcribe config = false →
  emits (fun ev => is_transcription_event ev && negb (is_model_event ev))
    (Transcription.transcribe env url config).
Proof.
  intros Hoff. apply emits_intro. intros tr0.
  unfold Transcription.transcribe, Transcription.get_captions,
    Transcription.transcribe_audio, Transcription._download_audio.
  rewrite Hoff.
  tinv_auto.
Qed.

Lemma emits_fetch_transcript_download_only env config :
  config_transcribe config = Some false →
  emits (fun ev => negb (is_model_event ev))
    (fetch_transcript.process env config).
Proof.
  intros Hoff. apply emits_intro. intros tr0.
  unfold fetch_transcript.process, timer, timer_end.
  repeat first
    [ apply emits_inv; eapply emits_weaken;
        [|apply emits_transcribe_download_only; by rewrite Hoff];
        by intros []
    | tinv_step ].
Qed.

(** X16. In a run configured with [transcribe = False] the transcription
    model is neither loaded nor run, whatever else happens in the run. *)
Theorem download_only_run_never_uses_model
    (env : Env) (url : string) (config : RunConfig) (w : World) :
  config_transcribe config = Some false →
  ∃ evs,
    trace (run_ingestion env url (Some config) w).2 = trace w ++ evs
    ∧ ∀ ev, ev ∈ evs → is_model_event ev = false.
Proof.
  intros Hoff.
  destruct (emits_run_ingestion (fun ev => negb (is_model_event ev))
              env url (Some config) ltac:(done)) with (w := w) as (evs & Htr & Hevs).
  - unfold STAGES. intros sf. rewrite !elem_of_cons, elem_of_nil.
    intros [->|[->|[->|[->|[->|[]]]]]]; cbn [stage_call config_or_empty default];
      [ eapply emits_weaken; [|apply emits_validate_input]
      | eapply emits_weaken; [|apply emits_fetch_metadata]
      | by apply emits_fetch_transcript_download_only
      | eapply emits_weaken; [|apply emits_analyze_structure]
      | eapply emits_weaken; [|apply emits_analyze_semantics] ];
      by intros [].
  - exists evs. split; [done|]. intros ev Hin.
    rewrite forallb_forall in Hevs. apply list_elem_of_In in Hin.
    apply negb_true_iff. by apply Hevs.
Qed.

Lemma download_only_run_never_uses_model_witness :
  ∃ evs,
    trace (run_ingestion (sample_env None captions_disabled "hello") sample_url
             (Some (mkRunConfig None (Some false))) fresh_world).2
    = trace fresh_world ++ evs
    ∧ ∀ ev, ev ∈ evs → is_model_event ev = false.
Proof.
  apply (download_only_run_never_uses_model
           (sample_env None captions_disabled "hello") sample_url
           (mkRunConfig None (Some false)) fresh_world).
  reflexivity.
Defined.

End Footprints.

(** ** Outcomes of the stages *)

Module StageOutcomes.
Import Schema Collector Stages Runner StageFacts TranscriptionFacts RunnerFacts.
Import TranscriptionOutcomes InputStages Footprints.

#[local] Arguments Str.strip : simpl never.
#[local] Arguments validate_input.search : simpl never.

Ltac returns_cut_step :=
  first
    [ match goal with
      | |- returns (bind (lift (Format.format _ _)) _) _ =>
          apply returns_bind_lift; intros ? Hfmt;
          first [ rewrite STRUCTURE_PROMPT_format_raises in Hfmt
                | rewrite SEMANTICS_PROMPT_format_raises in Hfmt ];
          discriminate Hfmt
      end
    | apply returns_ret; done
    | apply returns_raise
    | apply returns_bind; intros ?
    | apply returns_try_except; [|intros ?]
    | match goal with
      | |- returns (if ?b then _ else _) _ => destruct b
      | |- returns (match ?x with _ => _ end) _ => destruct x
      end
    | progress cbv beta zeta ].

Ltac returns_cut := repeat returns_cut_step.

Lemma get_field_dict (sec k : string) (dflt : PyVal) (d : PyDict) (w : World) :
  content_object w !! sec = Some (VDict d) →
  get_field sec k dflt w = (Ok (dict_get_default d k dflt), w).
Proof.
  intros Hsec. unfold get_field, get_section, bind, get, lift, getitem.
  by rewrite Hsec.
Qed.

Lemma returns_bind_with {A B} (m : M World A) (k : A → M World B)
    (P : A → Prop) (Q : B → Prop) :
  returns m P → (∀ a, P a → returns (k a) Q) → returns (bind m k) Q.
Proof.
  intros Hm Hk w b w'. unfold bind.
  destruct (m w) as [[a|e] w1] eqn:Hrun; [|done].
  apply Hk. by eapply Hm.
Qed.

(** A [try] whose handlers all return. *)
Lemma try_except_returns {A} (m : M World A) (h : Exn → M World A) (Q : A → Prop)
    (w : World) :
  returns m Q →
  (∀ e w1, ∃ a w', h e w1 = (Ok a, w') ∧ Q a) →
  ∃ a w', try_except m h w = (Ok a, w') ∧ Q a.
Proof.
  intros Hm Hh. unfold try_except.
  destruct (m w) as [[a|e] w1] eqn:Hrun; [|apply Hh].
  exists a, w1. split; [done|]. by eapply Hm.
Qed.

Ltac returns_by tac :=
  repeat first
    [ apply returns_ret; tac
    | apply returns_raise
    | apply returns_bind; intros ?
    | apply returns_try_except; [|intros ?]
    | match goal with
      | |- returns (if ?b then _ else _) _ => destruct b eqn:?
      | |- returns (match ?x with _ => _ end) _ => destruct x eqn:?
      end
    | progress cbv beta zeta ].

(** *** [fetch_metadata.process] *)

(** A result of [fetch_metadata]: success without failures, or failure
    with exactly one failure record of the given kind. *)
Definition metadata_result (r : StageResult) : Prop :=
  stage_name r = "fetch_metadata"
  ∧ match success r, failures r with
    | true, [] => True
    | false, [failure] =>
        stage failure = "fetch_metadata"
        ∧ (type failure = INPUT_ERROR ∨ type failure = SOURCE_ERROR)
        ∧ failure_suggested_fixes failure ≠ []
    | _, _ => False
    end.

(** The values that [json.dumps] writes without descending into them. *)
Definition scalar (v : PyVal) : bool :=
  match v with
  | VNone | VBool _ | VInt _ | VFloat _ | VStr _ => true
  | VList _ | VDict _ | VObj _ => false
  end.

(** X17. On an artifact with a source section whose [video_id] is
    absent, [None], a Boolean, a number or a string, [fetch_metadata]
    always returns a result under its own name, whatever the metadata
    lookup answers or raises and whatever shape its answer has: no
    exception gets out of the stage.  The result is a success without
    failures or a failure with exactly one failure record, of type
    [INPUT_ERROR] or [SOURCE_ERROR], that suggests at least one fix.
    The condition on [video_id] is about the start record, which is
    written before the [try] and carries the video id in its metadata:
    for a scalar the serialisation of the record cannot run into a
    [RecursionError], the one error that the stream handler hands on to
    the caller ([Logger.emit]). *)
Theorem fetch_metadata_always_returns
    (env : Env) (config : RunConfig) (w : World) (source : PyDict) :
  content_object w !! "source" = Some (VDict source) →
  scalar (dict_get_default source "video_id" VNone) = true →
  ∃ r w', fetch_metadata.process env config w = (Ok r, w') ∧ metadata_result r.
Proof.
  intros Hsrc _. unfold fetch_metadata.process.
  erewrite bind_ok by (by apply get_field_dict).
  erewrite bind_ok by reflexivity.
  erewrite bind_ok by (by apply get_field_dict).
  destruct (truthy _); cbn [negb].
  - erewrite bind_ok by reflexivity.
    apply try_except_returns.
    + returns_by ltac:(by repeat split).
    + intros e w1. destruct (decide (exn_class e = DownloadError));
        eexists _, _; (split; [reflexivity|]); split; [done| |done|].
      * cbn. repeat split; auto. by destruct (_ || _).
      * cbn. repeat split; auto.
  - eexists _, _. split; [reflexivity|]. split; [done|]. cbn. repeat split; auto.
Qed.

(** An environment whose metadata lookup answers, and an artifact that
    [validate_input] has given a video id. *)
Definition sample_info : PyDict :=
  <["title" := VStr "A talk"]>
  (<["uploader" := VStr "A channel"]>
  (<["duration" := VInt 61]>
  (<["timestamp" := VInt 1700000000]>
  (<["automatic_captions" := VDict {["en" := VList []]}]> ∅)))).

Definition metadata_env : Env :=
  let env := sample_env None sample_captions "unused" in
  mkEnv (new_run_id env) (new_content_id env) (new_workflow_run_id env) (utcnow env)
    (time_time env) (perf_counter env)
    (import_youtube_transcript_api env) (import_youtube_transcript_api_errors env)
    (get_transcript env) (makedirs env) (TemporaryDirectory env) (subprocess_run env)
    (tmpdir_cleanup env) (cuda_is_available env) (load_model env) (model_transcribe env)
    (fun _ => Ok (VDict sample_info)) (fromtimestamp env) (llm_chat env) (format_value env)
    (json_dumps env) (json_loads env) (StructuredResponse_validate env)
    (SemanticsResponse_validate env) (ContentObject_model_validate env).

Definition identified_source : PyDict :=
  <["video_id" := VStr "abc123"]> (Source_dump sample_url).

Definition identified_artifact : World :=
  set_content_object
    (<["source" := VDict identified_source]>
       (initial_content_object metadata_env sample_url))
    (new_artifact metadata_env sample_url).

(** On that artifact the stage gets past the test of the video id, asks
    for the metadata of the watch URL and succeeds. *)
Example fetch_metadata_identified_artifact :
  truthy (dict_get_default identified_source "video_id" VNone) = true
  ∧ ∃ r w',
      fetch_metadata.process metadata_env (mkRunConfig None None) identified_artifact
      = (Ok r, w')
      ∧ success r = true
      ∧ EvExtractInfo (watch_url "abc123") ∈ trace w'.
Proof.
  split; [reflexivity|].
  eexists _, _. split; [vm_compute; reflexivity|]. split; [reflexivity|].
  cbn [trace]. rewrite !elem_of_cons. auto.
Qed.

Lemma fetch_metadata_always_returns_witness :
  ∃ r w',
    fetch_metadata.process metadata_env (mkRunConfig None None) identified_artifact
    = (Ok r, w')
    ∧ metadata_result r.
Proof.
  apply (fetch_metadata_always_returns metadata_env (mkRunConfig None None)
           identified_artifact identified_source); reflexivity.
Defined.

(** *** [fetch_transcript.process] *)

Definition transcript_result (r : StageResult) : Prop :=
  stage_name r = "fetch_transcript"
  ∧ length (failures r) = length (errors r)
  ∧ Forall (fun failure => stage failure = "fetch_transcript"
                           ∧ type failure = EXTRACTION_ERROR) (failures r)
  ∧ (success r = false → failures r ≠ []).

Lemma transcribe_failure_has_error
    (env : Env) (url : string) (config : Transcription.TranscriptionConfig) :
  returns (Transcription.transcribe env url config)
    (fun r => Transcription.success r = false → Transcription.errors r ≠ []).
Proof.
  intros w r w'.
  unfold Transcription.transcribe, bind, read_clock, get, modify, ret. cbn.
  destruct (Transcription.get_captions env url (tick w)) as [[rc|e] w1] eqn:Hc; [|done].
  destruct (Transcription.success rc) eqn:Hs.
  - intros [= <- _]. cbn. congruence.
  - destruct (Transcription.transcribe_audio env url _ _ w1) as [[rw|e] w2] eqn:Ha; [|done].
    intros [= <- _]. cbn. intros Hfail Happ.
    apply app_eq_nil in Happ as [Hnil _].
    by destruct (transcribe_audio_failure _ _ _ _ _ _ _ Ha Hfail) as [? _].
Qed.

Lemma get_section_dict (sec : string) (v : PyVal) (w : World) :
  content_object w !! sec = Some v → get_section sec w = (Ok v, w).
Proof. intros Hsec. unfold get_section, bind, get, lift, getitem. by rewrite Hsec. Qed.

(** X18. On an artifact whose [source.url] is a string,
    [fetch_transcript] always returns a result under its own name,
    whatever [transcribe] does: no exception gets out of the stage.  The
    result has one failure record per error, each of type
    [EXTRACTION_ERROR], and a failed result has at least one. *)
Theorem fetch_transcript_always_returns
    (env : Env) (config : RunConfig) (w : World) (source : PyDict) (u : string) :
  content_object w !! "source" = Some (VDict source) →
  source !! "url" = Some (VStr u) →
  ∃ r w', fetch_transcript.process env config w = (Ok r, w') ∧ transcript_result r.
Proof.
  intros Hsrc Hurl. unfold fetch_transcript.process.
  erewrite bind_ok by reflexivity.
  erewrite bind_ok by (by apply get_section_dict).
  erewrite bind_ok by (unfold lift, getitem; by rewrite Hurl).
  erewrite bind_ok by reflexivity.
  erewrite bind_ok by reflexivity.
  apply try_except_returns.
  - eapply returns_bind_with; [apply transcribe_failure_has_error|].
    intros result Herr. cbv beta.
    returns_by ltac:(split; [done|]; cbn;
                     split; [by rewrite length_fmap|];
                     split; [by apply Forall_fmap, Forall_true|];
                     intros Hf Hnil; apply fmap_nil_inv in Hnil; by apply Herr).
  - intros e w1. eexists _, _. split; [reflexivity|].
    split; [done|]. cbn. split; [done|]. split; [|done]. by repeat constructor.
Qed.

Lemma fetch_transcript_always_returns_witness :
  ∃ r w',
    fetch_transcript.process captions_env (mkRunConfig None None)
      (new_artifact captions_env sample_url) = (Ok r, w')
    ∧ transcript_result r.
Proof.
  apply (fetch_transcript_always_returns captions_env (mkRunConfig None None)
           (new_artifact captions_env sample_url) (Source_dump sample_url) sample_url);
    reflexivity.
Defined.

(** X19. When an import inside [get_captions] fails, the
    [UnboundLocalError] that escapes [transcribe] stops at
    [fetch_transcript]: the stage returns a failed result whose one error
    is the text of that exception and whose one failure has the cause
    ["unexpected"], without execution time; the artifact is left as it
    was and no outside call has been made. *)
Theorem fetch_transcript_contains_import_failure
    (env : Env) (config : RunConfig) (w : World) (source : PyDict) (u : string) :
  content_object w !! "source" = Some (VDict source) →
  source !! "url" = Some (VStr u) →
  Transcription.error_classes_bound env = false →
  ∃ w',
    fetch_transcript.process env config w
    = (Ok (mkStageResult "fetch_transcript" false []
             [exn_str unbound_local]
             [mkStageFailure "fetch_transcript" EXTRACTION_ERROR "unexpected"
                "No transcript" ["Review logs"]]
             [] None), w')
    ∧ content_object w' = content_object w
    ∧ ∃ evs, trace w' = trace w ++ evs ∧ forallb is_log evs = true.
Proof.
  intros Hsrc Hurl Hunbound. unfold fetch_transcript.process.
  erewrite bind_ok by reflexivity.
  erewrite bind_ok by (by apply get_section_dict).
  erewrite bind_ok by (unfold lift, getitem; by rewrite Hurl).
  erewrite bind_ok by reflexivity.
  erewrite bind_ok by reflexivity.
  unfold try_except, bind at 1.
  unfold Transcription.transcribe, Transcription.get_captions.
  rewrite Hunbound. unfold Transcription.error_classes_bound in Hunbound.
  unfold_m. cbn.
  destruct (import_youtube_transcript_api env),
    (import_youtube_transcript_api_errors env); try discriminate; cbn;
    (eexists; split; [reflexivity|]; split; [reflexivity|]);
    eexists; (split; [cbn; rewrite <- app_assoc; reflexivity|reflexivity]).
Qed.

Lemma fetch_transcript_contains_import_failure_witness :
  let env := sample_env (Some module_not_found) sample_captions "hello" in
  let w := new_artifact env sample_url in
  ∃ w',
    fetch_transcript.process env (mkRunConfig None None) w
    = (Ok (mkStageResult "fetch_transcript" false []
             [exn_str unbound_local]
             [mkStageFailure "fetch_transcript" EXTRACTION_ERROR "unexpected"
                "No transcript" ["Review logs"]]
             [] None), w')
    ∧ content_object w' = content_object w
    ∧ ∃ evs, trace w' = trace w ++ evs ∧ forallb is_log evs = true.
Proof.
  apply (fetch_transcript_contains_import_failure
           (sample_env (Some module_not_found) sample_captions "hello")
           (mkRunConfig None None)
           (new_artifact (sample_env (Some module_not_found) sample_captions "hello")
              sample_url)
           (Source_dump sample_url) sample_url); reflexivity.
Defined.

(** *** [validate_input] and [fetch_metadata] together *)

Definition outside_calls (evs : list Event) : list Event :=
  List.filter (fun ev => negb (is_log ev)) evs.

Lemma outside_calls_logs (evs : list Event) :
  forallb is_log evs = true → outside_calls evs = [].
Proof.
  induction evs as [|ev evs IH]; [done|]. cbn.
  intros [Hev Hevs]%andb_prop. rewrite Hev. cbn. by apply IH.
Qed.

Lemma outside_calls_app (evs1 evs2 : list Event) :
  outside_calls (evs1 ++ evs2) = outside_calls evs1 ++ outside_calls evs2.
Proof. apply List.filter_app. Qed.

Lemma try_call_emits {A B} (P : Event → bool) (ev : Event) (answer : res A)
    (k : A → M World B) (h : Exn → M World B) (w : World) :
  (∀ a, emits P (k a)) → (∀ e, emits P (h e)) →
  ∃ evs, trace (try_except (bind (call ev answer) k) h w).2 = trace w ++ ev :: evs
         ∧ forallb P evs = true.
Proof.
  intros Hk Hh. unfold call. unfold try_except, bind, modify, lift. cbn beta iota.
  destruct answer as [a|e].
  - destruct (Hk a (add_event ev w)) as (evs & Htr & Hevs).
    destruct (k a (add_event ev w)) as [[b|e] w1] eqn:Hrun; cbn [snd] in Htr; cbn iota beta.
    + exists evs. split; [|done]. cbn [snd]. rewrite Htr. cbn. by rewrite <- app_assoc.
    + destruct (Hh e w1) as (evs' & Htr' & Hevs').
      exists (evs ++ evs'). rewrite Htr', Htr, forallb_app, Hevs, Hevs'. cbn.
      split; [|done]. by rewrite <- !app_assoc.
  - destruct (Hh e (add_event ev w)) as (evs & Htr & Hevs).
    exists evs. split; [|done]. rewrite Htr. cbn. by rewrite <- app_assoc.
Qed.

(** With a video id in the artifact, the metadata stage makes exactly one
    outside call: the lookup of the canonical watch URL of that id. *)
Lemma fetch_metadata_single_lookup
    (env : Env) (config : RunConfig) (w : World) (source : PyDict) (vid : string) :
  content_object w !! "source" = Some (VDict source) →
  source !! "video_id" = Some (VStr vid) →
  vid ≠ "" →
  ∃ evs,
    trace (fetch_metadata.process env config w).2 = trace w ++ evs
    ∧ outside_calls evs = [EvExtractInfo (watch_url vid)].
Proof.
  intros Hsrc Hid Hne. unfold fetch_metadata.process.
  erewrite bind_ok by (by apply get_field_dict).
  erewrite bind_ok by reflexivity.
  erewrite bind_ok by (by apply get_field_dict).
  unfold dict_get_default. rewrite Hid. cbn [default from_option]. unfold id at 1. cbn [truthy].
  apply String.eqb_neq in Hne. rewrite Hne. cbn [negb].
  erewrite bind_ok by reflexivity.
  cbv zeta. cbn [fetch_metadata.format_str]. fold (watch_url vid).
  match goal with
  | |- context [try_except (bind (call ?ev ?ans) ?k) ?h ?w0] =>
      destruct (try_call_emits is_log ev ans k h w0) as (evs & Htr & Hevs)
  end.
  - intros info. apply emits_intro. intros tr0.
    unfold fetch_metadata.info_get, timer, timer_end. tinv_auto.
  - intros e. apply emits_intro. intros tr0.
    unfold timer_end. tinv_auto.
  - rewrite Htr. eexists. cbn [tick add_event trace]. rewrite <- app_assoc.
    split; [reflexivity|]. cbn. by rewrite outside_calls_logs.
Qed.

(** X20. [validate_input] followed by [fetch_metadata], on an artifact
    whose [source.url] is a string and which has no video id yet.  If the
    pattern captures an id from the stripped URL, the two stages together
    make exactly one outside call, the metadata lookup of the canonical
    watch URL of that id, whatever form the given URL had.  If it does
    not, they make no outside call at all. *)
Theorem validate_then_fetch_metadata
    (env : Env) (config : RunConfig) (w : World) (source : PyDict) (u : string) :
  content_object w !! "source" = Some (VDict source) →
  source !! "url" = Some (VStr u) →
  truthy (dict_get source "video_id") = false →
  ∃ evs,
    trace ((validate_input.process env config ;;;
            fetch_metadata.process env config) w).2 = trace w ++ evs
    ∧ outside_calls evs
      = match validate_input.search (Str.strip u) with
        | Some id => [EvExtractInfo (watch_url id)]
        | None => []
        end.
Proof.
  intros Hsrc Hurl Hfalsy.
  destruct (validate_input_run env config w source u Hsrc Hurl)
    as (t & w1 & Hrun & Hco).
  destruct (emits_validate_input env config w) as (evs1 & Htr1 & Hevs1).
  rewrite Hrun in Htr1. cbn [snd] in Htr1.
  erewrite bind_ok by exact Hrun.
  destruct (validate_input.search (Str.strip u)) as [id|] eqn:Hsearch.
  - destruct (search_Some _ _ Hsearch) as (Hne & _).
    destruct (fetch_metadata_single_lookup env config w1 _ id
                ltac:(rewrite Hco; apply lookup_insert_eq)
                ltac:(rewrite lookup_insert_ne by done; apply lookup_insert_eq) Hne)
      as (evs2 & Htr2 & Hcalls).
    exists (evs1 ++ evs2). rewrite Htr2, Htr1, app_assoc. split; [done|].
    by rewrite outside_calls_app, outside_calls_logs.
  - rewrite (fetch_metadata_early_return env config w1 source
               ltac:(by rewrite Hco) Hfalsy).
    cbn [snd add_event trace]. eexists. rewrite Htr1, <- app_assoc.
    split; [reflexivity|]. rewrite outside_calls_app, outside_calls_logs by done.
    reflexivity.
Qed.

Lemma validate_then_fetch_metadata_witness :
  let w := new_artifact captions_env " https://youtu.be/abc123?t=1 " in
  ∃ evs,
    trace ((validate_input.process captions_env (mkRunConfig None None) ;;;
            fetch_metadata.process captions_env (mkRunConfig None None)) w).2
    = trace w ++ evs
    ∧ outside_calls evs = [EvExtractInfo "https://www.youtube.com/watch?v=abc123"].
Proof.
  apply (validate_then_fetch_metadata captions_env (mkRunConfig None None)
           (new_artifact captions_env " https://youtu.be/abc123?t=1 ")
           (Source_dump " https://youtu.be/abc123?t=1 ")
           " https://youtu.be/abc123?t=1 "); reflexivity.
Defined.

(** *** The analysis stages *)


Definition structure_skipped (r : StageResult) : Prop :=
  stage_name r = "analyze_structure" ∧ success r = true
  ∧ warnings r = ["No transcript available for structural analysis"]
  ∧ errors r = [] ∧ failures r = [].

(** X21. On an artifact with a raw section, [analyze_structure] has two
    outcomes, decided by the transcript alone.  Without a transcript
    (missing, [None] or empty) it returns the success result that carries
    the warning about the missing transcript and stores the empty
    structure, with the chapters of the raw section as its sections.
    With a transcript it never returns a result: it raises, the runner's
    failure boundary being what catches the exception. *)
Theorem analyze_structure_outcomes
    (env : Env) (config : RunConfig) (w : World) (raw : PyDict) :
  content_object w !! "raw" = Some (VDict raw) →
  let transcript := py_or (dict_get_default raw "transcript_text" (VStr "")) (VStr "") in
  let chapters := dict_get_default raw "chapters" (VList []) in
  if truthy transcript
    then ∃ exc w', analyze_structure.process env config w = (Raise exc, w')
    else ∃ r w',
           analyze_structure.process env config w = (Ok r, w')
           ∧ structure_skipped r
           ∧ content_object w'
             = <["structure" := analyze_structure.empty_structure chapters]>
                 (content_object w).
Proof.
  intros Hraw transcript chapters.
  unfold analyze_structure.process.
  erewrite bind_ok by reflexivity.
  erewrite bind_ok by (by apply get_field_dict).
  erewrite bind_ok by (by apply get_field_dict).
  erewrite bind_ok by reflexivity.
  fold transcript chapters.
  destruct (truthy transcript) eqn:Ht; cbn [negb].
  - match goal with |- ∃ exc w', ?m ?w0 = _ =>
      assert (Hret : returns m (fun _ => False)); [|destruct (m w0) as [[r|exc] w'] eqn:Hrun]
    end.
    + returns_cut.
    + destruct (Hret _ _ _ Hrun).
    + eauto.
  - eexists _, _. split; [reflexivity|]. split; [by repeat split|reflexivity].
Qed.

(** An artifact whose transcript has been fetched. *)
Definition with_transcript (text : string) (w : World) : World :=
  set_content_object
    (<["raw" := VDict {["transcript_text" := VStr text]}]> (content_object w)) w.

Lemma analyze_structure_outcomes_witness :
  ∃ exc w',
    analyze_structure.process captions_env (mkRunConfig None None)
      (with_transcript "hello world" (new_artifact captions_env sample_url))
    = (Raise exc, w').
Proof.
  exact (analyze_structure_outcomes captions_env (mkRunConfig None None)
           (with_transcript "hello world" (new_artifact captions_env sample_url))
           {["transcript_text" := VStr "hello world"]} eq_refl).
Defined.

Definition truncation_warning : string := "Transcript truncated for structural analysis".

Definition structure_key_error : Exn :=
  mkExn KeyError
    (Format.repr_str (Format.nl +:+ "  " +:+ Format.dq +:+ "sections" +:+ Format.dq)).

Lemma append_diagnostics_warning_new (msg : string) (diag : PyDict) (w : World) :
  content_object w !! "diagnostics" = Some (VDict diag) →
  diag !! "warnings" = None →
  analyze_structure.append_diagnostics_warning msg w
  = (Ok tt,
     set_content_object
       (<["diagnostics" := VDict (<["warnings" := VList [VStr msg]]> diag)]>
          (content_object w)) w).
Proof.
  intros Hdiag Hwarn. unfold analyze_structure.append_diagnostics_warning.
  erewrite bind_ok by (by apply get_section_dict).
  unfold dict_get_default. rewrite Hwarn. cbn [default from_option app].
  unfold set_field.
  erewrite bind_ok by (by apply get_section_dict).
  reflexivity.
Qed.

(** X22. The usual case of a fetched transcript: the raw section holds
    a non-empty transcript string and no chapters, and the diagnostics
    section has no warnings yet.  Then [analyze_structure] raises
    [KeyError] from [STRUCTURE_PROMPT.format], whose template has a JSON
    skeleton in single braces; the key is the text between the first
    such brace and the colon after it.  Before that, a transcript of more
    than 40000 characters puts the truncation warning into the
    diagnostics section; nothing else in the artifact changes, and the
    language model is not called. *)
Theorem analyze_structure_raises_key_error
    (env : Env) (config : RunConfig) (w : World) (raw diag : PyDict) (t : string) :
  content_object w !! "raw" = Some (VDict raw) →
  raw !! "transcript_text" = Some (VStr t) →
  t ≠ "" →
  raw !! "chapters" = None →
  content_object w !! "diagnostics" = Some (VDict diag) →
  diag !! "warnings" = None →
  ∃ w',
    analyze_structure.process env config w = (Raise structure_key_error, w')
    ∧ content_object w'
      = (if (40000 <? N.of_nat (String.length t))%N
         then <["diagnostics" :=
                  VDict (<["warnings" := VList [VStr truncation_warning]]> diag)]>
                (content_object w)
         else content_object w)
    ∧ ∃ evs, trace w' = trace w ++ evs ∧ forallb is_log evs = true.
Proof.
  intros Hraw Ht Hne Hch Hdiag Hwarn.
  unfold analyze_structure.process.
  erewrite bind_ok by reflexivity.
  erewrite bind_ok by (by apply get_field_dict).
  erewrite bind_ok by (by apply get_field_dict).
  erewrite bind_ok by reflexivity.
  unfold dict_get_default. rewrite Ht, Hch. cbn [default from_option].
  assert (Htruthy : truthy (VStr t) = true).
  { cbn. apply String.eqb_neq in Hne. by rewrite Hne. }
  unfold py_or, id. rewrite !Htruthy. cbn [negb truthy].
  erewrite bind_ok by reflexivity.
  destruct (40000 <? N.of_nat (String.length t))%N eqn:Hlong.
  - erewrite bind_ok; cycle 1.
    { erewrite bind_ok by reflexivity.
      erewrite bind_ok by (by apply append_diagnostics_warning_new).
      reflexivity. }
    erewrite bind_ok by reflexivity.
    cbn [fetch_metadata.format_str]. unfold bind at 1, lift at 1.
    rewrite STRUCTURE_PROMPT_format_raises.
    eexists. split; [reflexivity|]. split; [reflexivity|].
    eexists [_]. split; reflexivity.
  - erewrite bind_ok by reflexivity.
    erewrite bind_ok by reflexivity.
    cbn [fetch_metadata.format_str]. unfold bind at 1, lift at 1.
    rewrite STRUCTURE_PROMPT_format_raises.
    eexists. split; [reflexivity|]. split; [reflexivity|].
    eexists [_]. split; reflexivity.
Qed.

Lemma analyze_structure_raises_key_error_witness :
  let w := with_transcript "hello world" (new_artifact captions_env sample_url) in
  ∃ w',
    analyze_structure.process captions_env (mkRunConfig None None) w
    = (Raise structure_key_error, w')
    ∧ content_object w' = content_object w
    ∧ ∃ evs, trace w' = trace w ++ evs ∧ forallb is_log evs = true.
Proof.
  apply (analyze_structure_raises_key_error captions_env (mkRunConfig None None)
           (with_transcript "hello world" (new_artifact captions_env sample_url))
           {["transcript_text" := VStr "hello world"]} ∅ "hello world");
    first [reflexivity | discriminate].
Defined.

Definition semantics_skipped (r : StageResult) : Prop :=
  stage_name r = "analyze_semantics" ∧ success r = true
  ∧ warnings r = ["Insufficient content for semantic analysis"]
  ∧ errors r = [] ∧ failures r = [].

(** X23. On an artifact with a source and a raw section,
    [analyze_semantics] has two outcomes.  With neither a transcript nor a
    title it returns the success result that carries the warning about
    insufficient content and stores the empty semantics.  With either of
    them it never returns a result: it raises. *)
Theorem analyze_semantics_outcomes
    (env : Env) (config : RunConfig) (w : World) (source raw : PyDict) :
  content_object w !! "source" = Some (VDict source) →
  content_object w !! "raw" = Some (VDict raw) →
  let title := dict_get_default source "title" (VStr "") in
  let transcript := py_or (dict_get_default raw "transcript_text" (VStr "")) (VStr "") in
  if truthy transcript || truthy title
    then ∃ exc w', analyze_semantics.process env config w = (Raise exc, w')
    else ∃ r w',
           analyze_semantics.process env config w = (Ok r, w')
           ∧ semantics_skipped r
           ∧ content_object w'
             = <["semantics" := analyze_semantics.empty_semantics]> (content_object w).
Proof.
  intros Hsource Hraw title transcript.
  unfold analyze_semantics.process.
  erewrite bind_ok by reflexivity.
  erewrite bind_ok by (by apply get_field_dict).
  erewrite bind_ok by (by apply get_field_dict).
  erewrite bind_ok by (by apply get_field_dict).
  erewrite bind_ok by reflexivity.
  fold title transcript.
  destruct (truthy transcript) eqn:Ht, (truthy title) eqn:Hti; cbn [negb andb orb].
  4: { eexists _, _. split; [reflexivity|]. split; [by repeat split|reflexivity]. }
  all: match goal with |- ∃ exc w', ?m ?w0 = _ =>
      assert (Hret : returns m (fun _ => False));
        [returns_cut|destruct (m w0) as [[r|exc] w'] eqn:Hrun;
                     [destruct (Hret _ _ _ Hrun)|eauto]]
    end.
Qed.

Lemma analyze_semantics_outcomes_witness :
  let w := new_artifact captions_env sample_url in
  ∃ r w',
    analyze_semantics.process captions_env (mkRunConfig None None) w = (Ok r, w')
    ∧ semantics_skipped r
    ∧ content_object w'
      = <["semantics" := analyze_semantics.empty_semantics]> (content_object w).
Proof.
  exact (analyze_semantics_outcomes captions_env (mkRunConfig None None)
           (new_artifact captions_env sample_url) (Source_dump sample_url) ∅
           eq_refl eq_refl).
Defined.

End StageOutcomes.

(** ** What every run records *)

Module RunRecords.
Import Schema Collector Stages Runner StageFacts CollectorFacts RunnerFacts TranscriptionFacts.

Lemma run_stage_records (env : Env) (config : RunConfig) (sf : StageFunc)
    (identity : PyDict) (names0 done : list string) (w : World) :
  well_behaved env config sf →
  stage_name_of sf ∉ done →
  loop_inv identity names0 done w →
  ∃ r, _stage_status (collector (run_stage env config sf w).2) !! stage_name_of sf = Some r
       ∧ stage_name r = stage_name_of sf.
Proof.
  intros [Hinv Hret] Hnew (Ht & Hdone & Hstarted).
  set (name := stage_name_of sf) in *.
  set (wa := add_event (start_record name) w).
  assert (Hfresh : _stage_status (collector w) !! name = None).
  { destruct (_stage_status (collector w) !! name) eqn:Hk; [|done].
    exfalso. apply Hnew, Hdone. eauto. }
  assert (Hwa : stage_inv identity (collector w) (started (trace wa)) wa) by done.
  pose proof (Hinv _ _ _ wa Hwa) as Hafter.
  unfold run_stage, bind, try_except, log_event, modify. fold name. fold (start_record name).
  fold wa.
  destruct (stage_call sf env config wa) as [[r|exc] wb] eqn:Hcall;
    cbn [snd] in Hafter; destruct Hafter as (_ & Hcb & _).
  - assert (Hname : stage_name r = name) by (eapply Hret; eauto).
    destruct (collector_add_fresh r wb) as (c' & -> & Hc').
    { by rewrite Hcb, Hname. }
    exists r. cbn. rewrite Hc', Hname. by rewrite lookup_insert_eq.
  - destruct (collector_add_fresh (unhandled_result name exc) wb) as (c' & -> & Hc').
    { by rewrite Hcb. }
    eexists. cbn. rewrite Hc'. cbn. by rewrite lookup_insert_eq.
Qed.

Lemma run_stages_records (env : Env) (config : RunConfig) (stages : list StageFunc) :
  (∀ sf, sf ∈ stages → well_behaved env config sf) →
  NoDup (stage_name_of <$> stages) →
  ∀ (identity : PyDict) (names0 done : list string) (w : World),
    (∀ sf, sf ∈ stages → stage_name_of sf ∉ done) →
    loop_inv identity names0 done w →
    ∀ sf, sf ∈ stages →
      ∃ r, _stage_status (collector (run_stages env config stages w).2) !! stage_name_of sf
           = Some r
           ∧ stage_name r = stage_name_of sf.
Proof.
  induction stages as [|sf0 stages IH];
    intros Hwb Hnodup identity names0 done w Hnew Hinv sf Hin.
  - by apply elem_of_nil in Hin.
  - rewrite fmap_cons in Hnodup. apply NoDup_cons in Hnodup as [Hsf0 Hnodup].
    assert (Hwb0 : well_behaved env config sf0) by apply Hwb, list_elem_of_here.
    assert (Hnew0 : stage_name_of sf0 ∉ done) by apply Hnew, list_elem_of_here.
    destruct (run_stage_spec env config sf0 identity names0 done w Hwb0 Hnew0 Hinv)
      as (w1 & Hrun1 & Hinv1 & _ & _).
    pose proof (run_stage_records env config sf0 identity names0 done w Hwb0 Hnew0 Hinv)
      as (r0 & Hr0 & Hname0).
    rewrite Hrun1 in Hr0. cbn [snd] in Hr0.
    assert (Hwb' : ∀ sf', sf' ∈ stages → well_behaved env config sf').
    { intros sf' H. by apply Hwb, list_elem_of_further. }
    assert (Hnew' : ∀ sf', sf' ∈ stages → stage_name_of sf' ∉ done ++ [stage_name_of sf0]).
    { intros sf' Hsf'. rewrite elem_of_app, list_elem_of_singleton.
      intros [Hd|Heq].
      - by apply (Hnew sf' (list_elem_of_further _ _ _ Hsf')).
      - apply Hsf0. rewrite <- Heq. by apply list_elem_of_fmap_2. }
    destruct (run_stages_spec env config stages Hwb' Hnodup identity names0
                (done ++ [stage_name_of sf0]) w1 Hnew' Hinv1) as (w2 & Hrun2 & _ & Hkeep).
    rewrite run_stages_cons. erewrite bind_ok by exact Hrun1.
    apply elem_of_cons in Hin as [->|Hin].
    + exists r0. rewrite Hrun2. cbn [snd]. split; [by apply Hkeep|done].
    + by apply (IH Hwb' Hnodup identity names0 (done ++ [stage_name_of sf0]) w1 Hnew' Hinv1).
Qed.

(** X24. Every run of [run_ingestion] returns, and the diagnostics it
    assembles into the artifact have, under [stage_status], one entry for
    each of the five stages and no other entry, whatever the stages did:
    returned a result or raised.  The entry under a stage name is the
    dump of a result that carries that name. *)
Theorem run_records_every_stage
    (env : Env) (url : string) (config : option RunConfig) (w : World) :
  ∃ artifact w' diagnostics statuses,
    run_ingestion env url config w = (Ok artifact, w')
    ∧ content_object w' !! "diagnostics" = Some (VDict diagnostics)
    ∧ diagnostics !! "stage_status" = Some (VDict statuses)
    ∧ ∀ k,
        match statuses !! k with
        | Some v =>
            k ∈ ["validate_input"; "fetch_metadata"; "fetch_transcript";
                 "analyze_structure"; "analyze_semantics"]
            ∧ ∃ r, v = dump_StageResult r ∧ stage_name r = k
        | None =>
            k ∉ ["validate_input"; "fetch_metadata"; "fetch_transcript";
                 "analyze_structure"; "analyze_semantics"]
        end.
Proof.
  set (cfg := config_or_empty config).
  destruct (initialize_spec env url w) as (w0 & Hinit & Hinv0).
  assert (Hnew : ∀ sf, sf ∈ STAGES → stage_name_of sf ∉ ([] : list string)).
  { intros ? _. apply not_elem_of_nil. }
  destruct (run_stages_spec env cfg STAGES (STAGES_well_behaved env cfg)
              STAGES_names_NoDup (Identity_dump env) (started (trace w)) [] w0 Hnew Hinv0)
    as (w1 & Hloop & (_ & Hdone & _) & _).
  pose proof (run_stages_records env cfg STAGES (STAGES_well_behaved env cfg)
                STAGES_names_NoDup (Identity_dump env) (started (trace w)) [] w0 Hnew Hinv0)
    as Hrec.
  rewrite Hloop in Hrec. cbn [snd] in Hrec.
  destruct (finalize_spec env w1) as (artifact & w2 & Hfin & _ & _ & Hco & _).
  exists artifact, w2, (assembled_diagnostics (collector w1)),
    (dump_StageResult <$> _stage_status (collector w1)).
  split; [|split; [|split]].
  - unfold run_ingestion. erewrite bind_ok by exact Hinit. fold cfg.
    by erewrite bind_ok by exact Hloop.
  - by rewrite Hco, lookup_insert_eq.
  - reflexivity.
  - intros k. rewrite lookup_fmap. rewrite <- STAGES_names.
    destruct (_stage_status (collector w1) !! k) as [r|] eqn:Hk;
      cbn [fmap option_fmap option_map].
    + assert (Hin : k ∈ stage_name_of <$> STAGES).
      { specialize (Hdone k ltac:(eauto)). by rewrite app_nil_l in Hdone. }
      split; [done|]. exists r. split; [done|].
      apply list_elem_of_fmap in Hin as (sf & -> & Hsf).
      destruct (Hrec sf Hsf) as (r' & Hr' & Hname). congruence.
    + intros (sf & -> & Hsf)%list_elem_of_fmap.
      destruct (Hrec sf Hsf) as (r' & Hr' & _). congruence.
Qed.

(** *** What validation drops *)

Lemma set_unless_none_lookup_ne (k k' : string) (o : option PyVal) (d : PyDict) :
  k ≠ k' → Models.set_unless_none k o d !! k' = d !! k'.
Proof.
  intros Hne. unfold Models.set_unless_none. destruct o; [|done].
  by apply lookup_insert_ne.
Qed.

(** The schema of the raw section has no field [audio_path]. *)
Lemma dump_Raw_audio_path (r : Models.Raw) : Models.dump_Raw r !! "audio_path" = None.
Proof.
  unfold Models.dump_Raw.
  rewrite !set_unless_none_lookup_ne by discriminate. apply lookup_empty.
Qed.

(** A state in which the download succeeds, the captions are disabled and
    the final validation accepts the artifact. *)
Definition validated_sample : Models.ContentObject :=
  Models.mkContentObject
    (Models.mkIdentity "content-1" "workflow-1" "2024-01-01T00:00:00" "0.1.0")
    (Models.mkSource "youtube" sample_url (Some "abc123") None None None None None None)
    (Models.mkRaw (Some "hello") (Some "en") (Some (7 # 10)) None None None)
    (Models.mkStructure None None None None None)
    (Models.mkSemantics None None None None None)
    (mkDiagnostics ∅ [] [] []).

Definition accepting_env : Env :=
  let env := sample_env None captions_disabled "hello" in
  mkEnv (new_run_id env) (new_content_id env) (new_workflow_run_id env) (utcnow env)
    (time_time env) (perf_counter env)
    (import_youtube_transcript_api env) (import_youtube_transcript_api_errors env)
    (get_transcript env) (makedirs env) (TemporaryDirectory env) (subprocess_run env)
    (tmpdir_cleanup env) (cuda_is_available env) (load_model env) (model_transcribe env)
    (extract_info env) (fromtimestamp env) (llm_chat env) (format_value env)
    (json_dumps env) (json_loads env) (StructuredResponse_validate env)
    (SemanticsResponse_validate env) (fun _ => Ok validated_sample).

(** X25. When the final validation accepts the artifact, what
    [run_ingestion] returns is the dump of the validated model, and the
    raw section of that dump has no [audio_path]: the schema of the raw
    section has no such field, so the path that [fetch_transcript] stored
    in the working dictionary does not reach the returned artifact. *)
Theorem validated_artifact_drops_audio_path
    (env : Env) (url : string) (config : option RunConfig) (w w' : World)
    (artifact : PyDict) (validated : Models.ContentObject) :
  run_ingestion env url config w = (Ok artifact, w') →
  ContentObject_model_validate env (content_object w') = Ok validated →
  artifact = Models.dump_ContentObject validated
  ∧ ∃ raw, artifact !! "raw" = Some (VDict raw) ∧ raw !! "audio_path" = None.
Proof.
  intros Hrun Hvalid.
  set (cfg := config_or_empty config).
  destruct (initialize_spec env url w) as (w0 & Hinit & Hinv0).
  destruct (run_stages_spec env cfg STAGES (STAGES_well_behaved env cfg)
              STAGES_names_NoDup (Identity_dump env) (started (trace w)) [] w0)
    as (w1 & Hloop & _ & _);
    [intros ? _; apply not_elem_of_nil | exact Hinv0 |].
  destruct (finalize_spec env w1) as (artifact' & w2 & Hfin & _ & _ & _ & Hart).
  unfold run_ingestion in Hrun.
  erewrite bind_ok in Hrun by exact Hinit. fold cfg in Hrun.
  erewrite bind_ok in Hrun by exact Hloop.
  rewrite Hfin in Hrun. injection Hrun as <- <-.
  destruct Hart as [(validated' & Hv & ->)|[(exc & Hexc) _]]; [|congruence].
  assert (validated' = validated) as -> by congruence.
  split; [done|]. exists (Models.dump_Raw (Models.raw validated)).
  split; [reflexivity|apply dump_Raw_audio_path].
Qed.

Lemma validated_artifact_drops_audio_path_witness :
  ∃ artifact w',
    run_ingestion accepting_env sample_url (Some (mkRunConfig (Some "/data/audio") None))
      fresh_world = (Ok artifact, w')
    ∧ (∃ raw, content_object w' !! "raw" = Some (VDict raw)
              ∧ raw !! "audio_path" = Some (VStr "/data/audio/abc123.wav"))
    ∧ artifact = Models.dump_ContentObject validated_sample
    ∧ ∃ raw, artifact !! "raw" = Some (VDict raw) ∧ raw !! "audio_path" = None.
Proof.
  pose (run := run_ingestion accepting_env sample_url
                 (Some (mkRunConfig (Some "/data/audio") None)) fresh_world).
  pose (artifact := Models.dump_ContentObject validated_sample).
  pose (working := match content_object run.2 !! "raw" with
                   | Some (VDict raw) => raw
                   | _ => ∅
                   end).
  assert (Hfst : run.1 = Ok artifact) by (vm_compute; reflexivity).
  assert (Hrun : run = (Ok artifact, run.2)).
  { rewrite <- Hfst. apply surjective_pairing. }
  exists artifact, run.2.
  split; [exact Hrun|]. split.
  - exists working. split; vm_compute; reflexivity.
  - apply (validated_artifact_drops_audio_path accepting_env sample_url
             (Some (mkRunConfig (Some "/data/audio") None)) fresh_world run.2
             artifact validated_sample); [exact Hrun|reflexivity].
Defined.

End RunRecords.

(** ** The logger *)

Module LoggerFacts.
Import Logger.

Lemma get_logger_cached (run_id_str : string) (st : State) :
  get_logger run_id_str (get_logger run_id_str st).2
  = get_logger run_id_str st.
Proof.
  unfold get_logger at 2 3.
  destruct (_loggers st !! run_id_str) as [logger|] eqn:Hc; cbn [snd].
  - unfold get_logger. by rewrite Hc.
  - unfold get_logger. cbn [_loggers update_logger set_loggerDict].
    by rewrite lookup_insert_eq.
Qed.

(** X26. [get_logger] is idempotent per run id: once it has been called
    for a run id, in any state, calling it again for the same id, any
    number of times, returns the same logger and changes nothing; so the
    logger of a run never gets a second handler or a second filter from
    it. *)
Theorem get_logger_idempotent (run_id_str : string) (st : State) (n : nat) :
  let st1 := (get_logger run_id_str st).2 in
  Nat.iter n (fun s => (get_logger run_id_str s).2) st1 = st1
  ∧ get_logger run_id_str st1 = ((get_logger run_id_str st).1, st1).
Proof.
  intros st1. assert (Hagain : get_logger run_id_str st1 = ((get_logger run_id_str st).1, st1)).
  { subst st1. rewrite get_logger_cached. by destruct (get_logger run_id_str st). }
  split; [|exact Hagain]. clearbody st1.
  induction n as [|n IH]; [done|]. simpl. rewrite IH. by rewrite Hagain.
Qed.

Lemma get_logger_lookup (run_id_str : string) (st : State) :
  _loggers st !! run_id_str = None →
  let old := default (mkLogger NOTSET true [] [])
               (loggerDict st !! logger_name run_id_str) in
  get_logger run_id_str st
  = (logger_name run_id_str,
     mkState
       (<[logger_name run_id_str :=
            mkLogger INFO false
              (match handlers old with [] => [StdoutJSONHandler] | _ :: _ => handlers old end)
              (filters old ++ [RunIdFilter run_id_str])]> (loggerDict st))
       (<[run_id_str := logger_name run_id_str]> (_loggers st))
       (stdout st) (clock_reads st)).
Proof.
  intros Hc. unfold get_logger. rewrite Hc. cbn zeta. f_equal.
  unfold update_logger, getLogger, set_loggerDict.
  destruct (loggerDict st !! logger_name run_id_str) as [l|] eqn:Hl;
    cbn [loggerDict _loggers stdout clock_reads default from_option id]; f_equal.
  - apply map_eq. intros k. destruct (decide (k = logger_name run_id_str)) as [->|Hk].
    + rewrite lookup_insert_eq. rewrite !lookup_alter_eq, Hl. cbn. by destruct (handlers l).
    + rewrite lookup_insert_ne by done. by rewrite !lookup_alter_ne.
  - apply map_eq. intros k. destruct (decide (k = logger_name run_id_str)) as [->|Hk].
    + rewrite lookup_insert_eq. rewrite !lookup_alter_eq, lookup_insert_eq. by cbn.
    + rewrite lookup_insert_ne by done. rewrite !lookup_alter_ne by done.
      by rewrite lookup_insert_ne.
Qed.

(** What a record of the run [run_id_str] looks like once formatted:
    the three fixed fields, the run id, the event type, the stage name
    unless it is missing or empty, and the metadata unless they are
    missing or empty. *)
Definition expected_entry (now : string) (lvl : N) (message run_id_str : string)
    (stage_name : option string) (event_type : string) (metadata : option PyDict)
    : PyDict :=
  let d : PyDict :=
    <["run_id" := VStr run_id_str]>
    (<["message" := VStr message]>
    (<["level" := VStr (getLevelName lvl)]>
    (<["timestamp" := VStr (now +:+ "Z")]> ∅))) in
  let d := match stage_name with
           | Some name => if String.eqb name "" then d else <["stage_name" := VStr name]> d
           | None => d
           end in
  let d := <["event_type" := VStr event_type]> d in
  match metadata with
  | Some m => if bool_decide (m = ∅) then d else <["metadata" := VDict m]> d
  | None => d
  end.

(** The state after one record was formatted, and after its line was
    written as well. *)
Definition formatted (st : State) : State :=
  mkState (loggerDict st) (_loggers st) (stdout st) (S (clock_reads st)).

Definition written (line : string) (st : State) : State :=
  mkState (loggerDict st) (_loggers st) (stdout st ++ [line]) (S (clock_reads st)).

Lemma truthy_dict (m : PyDict) : truthy (VDict m) = negb (bool_decide (m = ∅)).
Proof.
  cbn. destruct (map_to_list m) as [|x l] eqn:Hm.
  - apply map_to_list_empty_iff in Hm. by rewrite bool_decide_eq_true_2.
  - rewrite bool_decide_eq_false_2; [done|]. intros ->.
    by rewrite map_to_list_empty in Hm.
Qed.

(** The [extra] dictionary that [log_event] builds. *)
Definition extra_of (stage_name : option string) (event_type : string)
    (metadata : option PyDict) : PyDict :=
  let extra : PyDict := {["event_type" := VStr event_type]} in
  let extra := match stage_name with
               | Some name => if truthy (VStr name) then <["stage_name" := VStr name]> extra
                              else extra
               | None => extra
               end in
  match metadata with
  | Some m => if truthy (VDict m) then <["metadata" := VDict m]> extra else extra
  | None => extra
  end.

Ltac eval_lookup :=
  match goal with
  | |- context [@lookup string PyVal PyDict _ ?k ?m] =>
      let r := eval vm_compute in (@lookup string PyVal PyDict _ k m) in
      replace (@lookup string PyVal PyDict _ k m) with r by (vm_compute; reflexivity)
  end.

Lemma log_record_entry (now : string) (lvl : N) (message run_id_str : string)
    (stage_name : option string) (event_type : string) (metadata : option PyDict) :
  log_record now
    (mkLogRecord lvl message (Some run_id_str)
       (extra_of stage_name event_type metadata) None)
  = expected_entry now lvl message run_id_str stage_name event_type metadata.
Proof.
  unfold expected_entry, log_record, add_if_not_none, dict_get, extra_of.
  cbn [levelno msg record_run_id attrs exc_text].
  destruct metadata as [m|]; [rewrite truthy_dict; destruct (bool_decide (m = ∅))|];
    (destruct stage_name as [name|]; [cbn [truthy]; destruct (String.eqb name "")|]);
    cbn [negb]; cbv zeta; repeat eval_lookup; reflexivity.
Qed.

(** X27. The first [get_logger] for a run id, then [log_event] on the
    logger it returns.  A record below level [INFO] is dropped.  Any
    other record is formatted once and written as one line, the JSON
    text of an object with the timestamp, the level name, the message,
    the run id and the event type, with the stage name unless that is
    missing or empty, and with the metadata unless they are missing or
    empty.  If the serialiser raises, nothing is written and the
    exception stops in the handler, except a [RecursionError], which
    reaches the caller. *)
Theorem log_event_writes_one_entry
    (utcnow_iso : nat → string) (json_dumps : PyVal → res string)
    (run_id_str : string) (st : State)
    (lvl : N) (message : string) (stage_name : option string)
    (event_type : string) (metadata : option PyDict) :
  _loggers st !! run_id_str = None →
  loggerDict st !! logger_name run_id_str = None →
  let logger := (get_logger run_id_str st).1 in
  let st1 := (get_logger run_id_str st).2 in
  let entry := expected_entry (utcnow_iso (clock_reads st)) lvl message run_id_str
                 stage_name event_type metadata in
  log_event utcnow_iso json_dumps logger lvl message stage_name event_type metadata st1
  = Some (if (INFO <=? lvl)%N then
            match json_dumps (VDict entry) with
            | Ok line => (Ok tt, written line st1)
            | Raise exc =>
                (if decide (exn_class exc = recursion_error) then Raise exc else Ok tt,
                 formatted st1)
            end
          else (Ok tt, st1)).
Proof.
  intros Hcache Hfresh logger st1 entry. subst logger st1.
  rewrite get_logger_lookup by done. rewrite Hfresh. cbn [fst snd default from_option].
  unfold log_event. fold (extra_of stage_name event_type metadata).
  generalize (log_record_entry (utcnow_iso (clock_reads st)) lvl message run_id_str
                stage_name event_type metadata).
  fold entry. generalize (extra_of stage_name event_type metadata). clearbody entry.
  intros extra Hentry.
  unfold log. cbn [loggerDict]. rewrite lookup_insert_eq.
  cbn [level propagate handlers filters orb bool_decide].
  rewrite bool_decide_eq_false_2 by done. cbn [orb N.eqb INFO NOTSET].
  destruct (INFO <=? lvl)%N eqn:Hlevel; [|done].
  f_equal. cbn [app foldl apply_filter for_each].
  unfold emit, format, try_except, bind, get, modify, lift, ret, raise.
  cbn [clock_reads stdout loggerDict _loggers levelno msg attrs exc_text].
  rewrite Hentry.
  destruct (json_dumps (VDict entry)) as [line|exc]; cbn.
  - reflexivity.
  - by destruct (decide (exn_class exc = recursion_error)).
Qed.

Definition sample_clock (n : nat) : string := "2024-01-01T00:00:00".

Definition sample_dumps (v : PyVal) : res string := Ok "{}".

Lemma log_event_writes_one_entry_witness :
  let st := mkState ∅ ∅ [] 0 in
  let logger := (get_logger "run-1" st).1 in
  let st1 := (get_logger "run-1" st).2 in
  let entry := expected_entry (sample_clock (clock_reads st)) WARNING "Stage completed"
                 "run-1" (Some "fetch_metadata") "failure" None in
  log_event sample_clock sample_dumps logger WARNING "Stage completed"
    (Some "fetch_metadata") "failure" None st1
  = Some (if (INFO <=? WARNING)%N then
            match sample_dumps (VDict entry) with
            | Ok line => (Ok tt, written line st1)
            | Raise exc =>
                (if decide (exn_class exc = recursion_error) then Raise exc else Ok tt,
                 formatted st1)
            end
          else (Ok tt, st1)).
Proof.
  apply (log_event_writes_one_entry sample_clock sample_dumps "run-1" (mkState ∅ ∅ [] 0)
           WARNING "Stage completed" (Some "fetch_metadata") "failure" None);
    reflexivity.
Defined.

End LoggerFacts.
